(** * nvhbackend: request handlers of the classifieds backend

    A shallow embedding of the Express route handlers in
    [src/routes/auth.js], [src/unnamed/part_001] (a second revision of the
    auth routes), [src/routes/listings.js] and [src/routes/upload.js],
    together with the query wrapper of [src/unnamed/part_000].

    Handlers are functions in a small state-and-exception monad over one
    [world]: the two PostgreSQL tables, the storage bucket and a trace of the
    observable effects (console lines, token signatures, storage calls). *)

From Stdlib Require Import ZArith String Ascii List Bool Lia.
From Stdlib Require Import Sorting.Sorted Sorting.Permutation.
From Stdlib Require Import Numbers.DecimalString.
From stdpp Require Import base gmap strings list sorting.
From Equations Require Import Equations.
From Equations.Prop Require Import Logic.
Import ListNotations.

Local Open Scope string_scope.
Local Open Scope Z_scope.

(** ** JavaScript strings

    A string is held as the bytes of its UTF-8 encoding, the way the JSON
    body of a request carries it. [length] counts UTF-16 code units, as
    the [length] property does, and [trim] removes the white space and
    the line terminators of ECMAScript whatever their encoded length.
    Searching and splitting go byte by byte, which finds in well-formed
    UTF-8 what they find in the string. [toLowerCase] follows the case
    tables of the engine and is a parameter of the handlers ([Casing],
    below). *)
Module Js.

Definition code (c : ascii) : nat := nat_of_ascii c.

(** [s.length]: the number of UTF-16 code units of [s]. A character of one
    to three bytes is one unit, a character of four bytes is a surrogate
    pair, and a byte that continues a character adds nothing. *)
Definition units (c : ascii) : nat :=
  if (code c <? 128)%nat then 1
  else if (code c <? 192)%nat then 0
  else if (code c <? 240)%nat then 1
  else 2.

Fixpoint length (s : string) : nat :=
  match s with
  | String c s' => (units c + length s')%nat
  | EmptyString => 0
  end.

(** White space and line terminators of ECMAScript, by encoded length:
    U+0009 to U+000D and U+0020; U+00A0; U+1680, U+2000 to U+200A, U+2028,
    U+2029, U+202F, U+205F, U+3000 and U+FEFF. *)
Definition space1 (a : ascii) : bool :=
  ((9 <=? code a) && (code a <=? 13))%nat || (code a =? 32)%nat.

Definition space2 (a b : ascii) : bool :=
  ((code a =? 194) && (code b =? 160))%nat.

Definition space3 (a b c : ascii) : bool :=
  ((code a =? 225) && (code b =? 154) && (code c =? 128))%nat
  || ((code a =? 226) && (code b =? 128)
      && (((128 <=? code c) && (code c <=? 138)) || (code c =? 168)
          || (code c =? 169) || (code c =? 175)))%nat
  || ((code a =? 226) && (code b =? 129) && (code c =? 159))%nat
  || ((code a =? 227) && (code b =? 128) && (code c =? 128))%nat
  || ((code a =? 239) && (code b =? 187) && (code c =? 191))%nat.

(** [String.prototype.trimStart] *)
Fixpoint trimStart (s : string) : string :=
  match s with
  | String a s1 =>
      if space1 a then trimStart s1
      else
        match s1 with
        | String b s2 =>
            if space2 a b then trimStart s2
            else
              match s2 with
              | String c s3 => if space3 a b c then trimStart s3 else s
              | EmptyString => s
              end
        | EmptyString => s
        end
  | EmptyString => EmptyString
  end.

(** [String.prototype.trimEnd]: what follows the last character that is
    not white space is dropped. *)
Fixpoint trimEnd (s : string) : string :=
  match s with
  | String c s' =>
      match trimStart s with
      | EmptyString => EmptyString
      | String _ _ => String c (trimEnd s')
      end
  | EmptyString => EmptyString
  end.

Definition trim (s : string) : string := trimEnd (trimStart s).

Definition lower (c : ascii) : ascii :=
  let n := nat_of_ascii c in
  if ((65 <=? n) && (n <=? 90))%nat then ascii_of_nat (n + 32) else c.

(** The letters A to Z in lower case and every other byte as it is: what
    [toLowerCase] makes of an ASCII string. *)
Fixpoint ascii_lower (s : string) : string :=
  match s with
  | String c s' => String (lower c) (ascii_lower s')
  | EmptyString => EmptyString
  end.

(** [s] without the bytes that continue the character in front of it. *)
Fixpoint continued (s : string) : string :=
  match s with
  | String c s' =>
      if ((128 <=? code c) && (code c <? 192))%nat then continued s' else s
  | EmptyString => EmptyString
  end.

Fixpoint is_ascii (s : string) : bool :=
  match s with
  | String c s' => (code c <? 128)%nat && is_ascii s'
  | EmptyString => true
  end.
(** [s.startsWith(p)]. *)
Definition startsWith (s p : string) : bool := String.prefix p s.

(** What is left of [s] after the prefix [p], when [s] starts with [p]. *)
Fixpoint strip_prefix (p s : string) : option string :=
  match p, s with
  | EmptyString, _ => Some s
  | String a p', String b s' =>
      if Ascii.eqb a b then strip_prefix p' s' else None
  | String _ _, EmptyString => None
  end.

(** The first occurrence of [sep] in [s]: the text before it and the text
    after it ([s.indexOf(sep)] with both sides sliced off). *)
Fixpoint find_sep (sep s : string) : option (string * string) :=
  match strip_prefix sep s with
  | Some rest => Some (EmptyString, rest)
  | None =>
      match s with
      | String c s' =>
          match find_sep sep s' with
          | Some (before, rest) => Some (String c before, rest)
          | None => None
          end
      | EmptyString => None
      end
  end.

(** [s.includes(sub)]. *)
Definition includes (s sub : string) : bool :=
  match find_sep sub s with Some _ => true | None => false end.

(** Every occurrence of a non-empty separator consumes at least one
    character, which is what makes [split] terminate. *)
Lemma find_sep_shorter a sep s before rest :
  find_sep (String a sep) s = Some (before, rest) ->
  (String.length rest < String.length s)%nat.
Proof.
  assert (Hstrip : forall p t r, strip_prefix p t = Some r ->
            String.length t = (String.length p + String.length r)%nat).
  { induction p as [|x p IH]; intros t r; simpl.
    - intros [= <-]. reflexivity.
    - destruct t as [|y t]; [discriminate|].
      destruct (Ascii.eqb x y); [|discriminate].
      intros Hp. simpl. rewrite (IH _ _ Hp). reflexivity. }
  revert before rest. induction s as [|c s IH]; intros before rest.
  - simpl. discriminate.
  - unfold find_sep; fold find_sep.
    destruct (strip_prefix (String a sep) (String c s)) as [r|] eqn:Hp.
    + intros [= _ <-]. apply Hstrip in Hp. simpl in *. lia.
    + destruct (find_sep (String a sep) s) as [[b r]|]; [|discriminate].
      intros [= _ <-]. specialize (IH _ _ eq_refl). simpl. lia.
Qed.

(** [s.split(sep)] for a non-empty separator [String a sep]: the pieces
    between successive occurrences, scanning from the left. *)
Equations? split_by (a : ascii) (sep : string) (s : string) : list string
  by wf (String.length s) lt :=
  split_by a sep s with inspect (find_sep (String a sep) s) := {
    | exist _ (Some (before, rest)) Hfound => before :: split_by a sep rest
    | exist _ None _ => [s] }.
Proof. eapply find_sep_shorter; eassumption. Qed.

(** With the empty separator JavaScript splits into single characters. *)
Definition split (s sep : string) : list string :=
  match sep with
  | String a sep' => split_by a sep' s
  | EmptyString => map (fun c => String c EmptyString) (list_ascii_of_string s)
  end.
#[global] Arguments split : simpl never.

(** Number to string conversion of template literals, for integers. *)
Definition toString (n : Z) : string := NilZero.string_of_int (Z.to_int n).

End Js.

(** [String.prototype.toLowerCase] maps every letter Unicode gives a lower
    case; its tables belong to the engine, not to the repository. The
    handlers are stated over any such function, known to do on an ASCII
    string what [Js.ascii_lower] does. *)
Class Casing := {
  toLowerCase : string -> string;
  toLowerCase_ascii :
    forall s, Js.is_ascii s = true -> toLowerCase s = Js.ascii_lower s }.

(** ** Values, rows and the world *)

(** The values a JSON client sends for the textual fields of a body. *)
Inductive jsval :=
| JsUndefined
| JsString (s : string)
| JsNumber (n : Z).

(** JavaScript truthiness, as tested by [!x] and [if (x)]. *)
Definition truthy (v : jsval) : bool :=
  match v with
  | JsUndefined => false
  | JsString s => negb (String.eqb s "")
  | JsNumber n => negb (n =? 0)
  end.

Definition truthy_opt (v : option string) : bool :=
  match v with
  | Some s => negb (String.eqb s "")
  | None => false
  end.

(** JSON documents sent back by [res.json]. *)
#[warnings="-register-all"]
Inductive json :=
| JNull
| JNum (n : Z)
| JStr (s : string)
| JArr (items : list json)
| JObj (fields : list (string * json)).

Record response := { status : Z; body : json }.

(** A thrown JavaScript error, with the properties the handlers inspect. *)
Record error := {
  e_name : string;
  e_message : string;
  e_code : option string;
  e_constraint : option string }.

Definition TypeError (msg : string) : error :=
  {| e_name := "TypeError"; e_message := msg; e_code := None; e_constraint := None |}.

Definition Error (msg : string) : error :=
  {| e_name := "Error"; e_message := msg; e_code := None; e_constraint := None |}.

(** Rows of [users(id, name, email UNIQUE, phone UNIQUE, password,
    created_at, updated_at)]. *)
Record user_row := {
  u_id : Z;
  u_name : string;
  u_email : string;
  u_phone : string;
  u_password : string;
  u_created_at : Z;
  u_updated_at : option Z }.

(** Rows of [listings]; every column but the keys and the timestamps is
    nullable. *)
Record listing_row := {
  l_id : Z;
  l_user_id : Z;
  l_title : option string;
  l_description : option string;
  l_category : option string;
  l_custom_category : option string;
  l_location : option string;
  l_county : option string;
  l_phone : option string;
  l_amenities : option (list string);
  l_images : option (list string);
  l_created_at : Z;
  l_updated_at : Z }.

(** The body of [POST /register] and [POST /login]. *)
Record credentials := {
  name : jsval;
  email : jsval;
  phone : jsval;
  password : jsval }.

(** What a console line can print. *)
Inductive logged :=
| LText (s : string)
| LNum (n : Z)
| LBody (b : credentials)
| LError (e : error)
| LQuery (text : string) (rows : nat).

(** An object of the storage bucket. *)
Record object := { content : string; contentType : string }.

(** Effects a handler leaves behind, oldest first. *)
Inductive event :=
| Console (line : list logged)
| JwtSign (userId : Z) (mail : string) (secret : string) (expiresIn : string)
| StorageUpload (path : string) (mime : string) (upsert : bool)
| StorageRemove (paths : list string).

Record world := {
  users : list user_row;
  users_id_seq : Z;
  listings : list listing_row;
  listings_id_seq : Z;
  bucket : gmap string object;
  trace : list event }.

Definition emit (ev : event) (w : world) : world :=
  {| users := users w; users_id_seq := users_id_seq w;
     listings := listings w; listings_id_seq := listings_id_seq w;
     bucket := bucket w; trace := trace w ++ [ev] |}.

Definition set_users (us : list user_row) (seq : Z) (w : world) : world :=
  {| users := us; users_id_seq := seq;
     listings := listings w; listings_id_seq := listings_id_seq w;
     bucket := bucket w; trace := trace w |}.

Definition set_listings (ls : list listing_row) (seq : Z) (w : world) : world :=
  {| users := users w; users_id_seq := users_id_seq w;
     listings := ls; listings_id_seq := seq;
     bucket := bucket w; trace := trace w |}.

Definition set_bucket (b : gmap string object) (w : world) : world :=
  {| users := users w; users_id_seq := users_id_seq w;
     listings := listings w; listings_id_seq := listings_id_seq w;
     bucket := b; trace := trace w |}.

(** [process.env] *)
Record environment := { JWT_SECRET : option string }.

(** ** The handler monad

    A handler step either goes on with a value, has sent the response (every
    [res.json] of the routes is in tail position or behind a [return]), or
    has thrown. *)
Inductive outcome (A : Type) :=
| Next (a : A)
| Done (r : response)
| Thrown (e : error).
Arguments Next {A} a.
Arguments Done {A} r.
Arguments Thrown {A} e.

Definition handler (A : Type) : Type := world -> outcome A * world.

#[export] Instance handler_ret : MRet handler := fun A a w => (Next a, w).

#[export] Instance handler_bind : MBind handler := fun A B f m w =>
  match m w with
  | (Next a, w') => f a w'
  | (Done r, w') => (Done r, w')
  | (Thrown e, w') => (Thrown e, w')
  end.

Definition throw {A} (e : error) : handler A := fun w => (Thrown e, w).

(** [try { body } catch (error) { handle error }] *)
Definition try_catch {A} (body : handler A) (handle : error -> handler A) : handler A :=
  fun w =>
    match body w with
    | (Thrown e, w') => handle e w'
    | r => r
    end.

(** [res.status(code).json(doc)] *)
Definition respond {A} (code : Z) (doc : json) : handler A :=
  fun w => (Done {| status := code; body := doc |}, w).

Definition error_doc (msg : string) : json := JObj [("error", JStr msg)].

(** [console.log] and [console.error] *)
Definition console (line : list logged) : handler unit :=
  fun w => (Next tt, emit (Console line) w).

(** [v.trim()], [v.toLowerCase()]: only strings have the method. *)
Definition method (f : string -> string) (what : string) (v : jsval) : handler string :=
  match v with
  | JsString s => mret (f s)
  | JsNumber _ => throw (TypeError (what ++ " is not a function"))
  | JsUndefined => throw (TypeError "Cannot read properties of undefined")
  end.

(** [v.length < n]: a number has no [length], and [undefined < n] is false. *)
Definition length_lt (v : jsval) (n : nat) : handler bool :=
  match v with
  | JsString s => mret (Js.length s <? n)%nat
  | JsNumber _ => mret false
  | JsUndefined => throw (TypeError "Cannot read properties of undefined")
  end.

(** ** The query wrapper ([src/unnamed/part_000])

    A statement is what [pool.query] does with the tables: rows and row
    count, or a database error. [query] adds the logging of the wrapper (the
    measured duration is left out of the line). The SQL texts are those of
    the source, with the line breaks and the indentation of the template
    literals; a successful query prints only their first fifty
    characters. *)
Record result (A : Type) := { rows : list A; rowCount : nat }.
Arguments rows {A} r.
Arguments rowCount {A} r.

Definition statement (A : Type) : Type := world -> (error + result A) * world.

Definition query {A} (text : string) (st : statement A) : handler (result A) :=
  fun w =>
    match st w with
    | (inr res, w') =>
        (Next res,
         emit (Console [LText "Executed query";
                        LQuery (String.substring 0 50 text) (rowCount res)]) w')
    | (inl e, w') =>
        (Thrown e,
         emit (Console [LText "Query text:"; LText text])
           (emit (Console [LText "Query error:"; LText (e_message e)]) w'))
    end.

(** [rows[0]], whose properties are then read. *)
Definition first_row {A} (res : result A) : handler A :=
  match rows res with
  | r :: _ => mret r
  | [] => throw (TypeError "Cannot read properties of undefined")
  end.

(** ** Statements on [users] *)

Definition returning {A} (rs : list A) : result A :=
  {| rows := rs; rowCount := length rs |}.

(** [SELECT ... FROM users WHERE email = $1] *)
Definition select_users_by_email (mail : string) : statement user_row :=
  fun w => (inr (returning (List.filter (fun u => String.eqb (u_email u) mail) (users w))), w).

(** The double quote, which a literal cannot hold. *)
Definition quote : string := String (ascii_of_nat 34) EmptyString.

(** The error the server raises for a second row under a unique
    constraint; its message names the constraint. *)
Definition unique_violation (constraint : string) : error :=
  {| e_name := "error";
     e_message :=
       "duplicate key value violates unique constraint " ++ quote ++ constraint ++ quote;
     e_code := Some "23505";
     e_constraint := Some constraint |}.

(** Modelled from the spec: the schema of [users] is not under src/; its
    [id] is assigned by the database and [email] and [phone] are unique
    (the violation is what the [catch] blocks of the register handlers
    look for). The constraints carry the names PostgreSQL gives to a
    [UNIQUE] column, [users_email_key] and [users_phone_key].

    [INSERT INTO users (name, email, phone, password, created_at ...)
     VALUES ($1, $2, $3, $4, NOW() ...) RETURNING id, name, email, phone] *)
Definition insert_user (nm mail ph pw : string) (now : Z) (updated : option Z)
  : statement user_row :=
  fun w =>
    if existsb (fun u => String.eqb (u_email u) mail) (users w)
    then (inl (unique_violation "users_email_key"), w)
    else if existsb (fun u => String.eqb (u_phone u) ph) (users w)
    then (inl (unique_violation "users_phone_key"), w)
    else
      let row := {| u_id := users_id_seq w; u_name := nm; u_email := mail;
                    u_phone := ph; u_password := pw;
                    u_created_at := now; u_updated_at := updated |} in
      (inr (returning [row]), set_users (users w ++ [row]) (users_id_seq w + 1) w).

(** ** The credential libraries

    [bcryptjs] and [jsonwebtoken] are not part of the repository: the
    handlers are stated over any implementation of the three calls they
    make, knowing that a hash verifies against its own password. *)
Record salt := { rounds : nat; seed : string }.

Class Crypto := {
  bcrypt_hash : string -> salt -> string;
  bcrypt_compare : string -> string -> bool;
  jwt_sign : Z -> string -> string -> string -> string;
  bcrypt_compare_hash : forall pw s, bcrypt_compare pw (bcrypt_hash pw s) = true }.

Section Credentials.
Context `{Crypto}.

(** [bcrypt.genSalt(rounds)], drawing [entropy] from the random source. *)
Definition genSalt (n : nat) (entropy : string) : salt :=
  {| rounds := n; seed := entropy |}.

(** [bcrypt.hash(v, salt)] rejects anything but a string. *)
Definition hash (v : jsval) (s : salt) : handler string :=
  match v with
  | JsString pw => mret (bcrypt_hash pw s)
  | _ => throw (Error "Illegal arguments: number, string")
  end.

(** [bcrypt.compare(v, stored)] *)
Definition compare (v : jsval) (stored : string) : handler bool :=
  match v with
  | JsString pw => mret (bcrypt_compare pw stored)
  | _ => throw (Error "Illegal arguments: number, string")
  end.

(** [jwt.sign({ userId, email }, secret, { expiresIn })] *)
Definition sign (userId : Z) (mail secret expiresIn : string) : handler string :=
  fun w => (Next (jwt_sign userId mail secret expiresIn),
            emit (JwtSign userId mail secret expiresIn) w).

Definition user_doc (u : user_row) : json :=
  JObj [("id", JNum (u_id u)); ("name", JStr (u_name u));
        ("email", JStr (u_email u)); ("phone", JStr (u_phone u))].

Definition constraint_includes (e : error) (sub : string) : bool :=
  match e_constraint e with
  | Some c => Js.includes c sub
  | None => false
  end.

Definition is_unique_violation (e : error) : bool :=
  match e_code e with
  | Some c => String.eqb c "23505"
  | None => false
  end.

End Credentials.

(** ** [src/routes/auth.js] *)
Module Auth.

(** The statement of the insert, as the template literal spells it. *)
Definition insert_sql : string :=
  "INSERT INTO users (name, email, phone, password, created_at) 
       VALUES ($1, $2, $3, $4, NOW()) 
       RETURNING id, name, email, phone".

Section Routes.
Context `{Crypto} `{Casing}.
Variable env : environment.

(** [router.post('/register', ...)]; [entropy] feeds [genSalt] and [now] is
    the database clock. *)
Definition register (entropy : string) (now : Z) (req : credentials) : handler unit :=
  try_catch
    (if negb (truthy (name req)) || negb (truthy (email req))
        || negb (truthy (phone req)) || negb (truthy (password req))
     then respond 400 (error_doc "All fields are required")
     else
       short ← length_lt (password req) 6;
       if (short : bool)
       then respond 400 (error_doc "Password must be at least 6 characters")
       else
         lowered ← method toLowerCase "email.toLowerCase" (email req);
         let trimmedEmail := Js.trim lowered in
         existingUser ← query "SELECT id FROM users WHERE email = $1"
                          (select_users_by_email trimmedEmail);
         if (0 <? length (rows existingUser))%nat
         then respond 400 (error_doc "Email already registered")
         else
           let salt := genSalt 12 entropy in
           hashedPassword ← hash (password req) salt;
           name' ← method Js.trim "name.trim" (name req);
           phone' ← method Js.trim "phone.trim" (phone req);
           result ← query
             insert_sql
             (insert_user name' trimmedEmail phone' hashedPassword now None);
           user ← first_row result;
           if negb (truthy_opt (JWT_SECRET env))
           then
             console [LText "JWT_SECRET is missing in .env file!"];;
             respond 500 (error_doc "Server configuration error")
           else
             token ← sign (u_id user) (u_email user) (default "" (JWT_SECRET env)) "7d";
             respond 201 (JObj [("message", JStr "User registered successfully");
                                ("user", user_doc user);
                                ("token", JStr token)]))
    (fun error =>
       console [LText "Registration Error:"; LText (e_message error)];;
       console [LText "Full error:"; LError error];;
       if is_unique_violation error && constraint_includes error "email"
       then respond 400 (error_doc "Email already registered")
       else if is_unique_violation error && constraint_includes error "phone"
       then respond 400 (error_doc "Phone number already registered")
       else if String.eqb (e_name error) "JsonWebTokenError"
       then respond 500 (error_doc "Authentication system error")
       else respond 500 (error_doc "Registration failed. Please try again later.")).

(** [router.post('/login', ...)] *)
Definition login (req : credentials) : handler unit :=
  try_catch
    (if negb (truthy (email req)) || negb (truthy (password req))
     then respond 400 (error_doc "Email and password are required")
     else
       lowered ← method toLowerCase "email.toLowerCase" (email req);
       let trimmedEmail := Js.trim lowered in
       result ← query "SELECT id, name, email, phone, password FROM users WHERE email = $1"
                  (select_users_by_email trimmedEmail);
       if (length (rows result) =? 0)%nat
       then respond 401 (error_doc "Invalid email or password")
       else
         user ← first_row result;
         isValidPassword ← compare (password req) (u_password user);
         if negb isValidPassword
         then respond 401 (error_doc "Invalid email or password")
         else if negb (truthy_opt (JWT_SECRET env))
         then
           console [LText "JWT_SECRET missing!"];;
           respond 500 (error_doc "Server configuration error")
         else
           token ← sign (u_id user) (u_email user) (default "" (JWT_SECRET env)) "7d";
           respond 200 (JObj [("message", JStr "Login successful");
                              ("user", user_doc user);
                              ("token", JStr token)]))
    (fun error =>
       console [LText "Login Error:"; LText (e_message error)];;
       respond 500 (error_doc "Login failed. Please try again.")).

End Routes.
End Auth.

(** ** [src/unnamed/part_001]: the second revision of the auth routes *)
Module AuthRevised.

(** The statement of the insert, as the template literal spells it. *)
Definition insert_sql : string :=
  "INSERT INTO users (name, email, phone, password, created_at, updated_at)
       VALUES ($1, $2, $3, $4, NOW(), NOW())
       RETURNING id, name, email, phone".

Section Routes.
Context `{Crypto} `{Casing}.
Variable env : environment.

(** [typeof v !== 'string'] *)
Definition not_a_string (v : jsval) : bool :=
  match v with JsString _ => false | _ => true end.

(** [!process.env.JWT_SECRET || process.env.JWT_SECRET.length < 20] *)
Definition secret_missing_or_short : bool :=
  negb (truthy_opt (JWT_SECRET env))
  || (Js.length (default "" (JWT_SECRET env)) <? 20)%nat.

Definition register (entropy : string) (now : Z) (req : credentials) : handler unit :=
  try_catch
    (console [LText "Registration attempt:"; LBody req];;
     if negb (truthy (name req)) || negb (truthy (email req))
        || negb (truthy (phone req)) || negb (truthy (password req))
     then respond 400 (error_doc "All fields are required")
     else
       short ← (if not_a_string (password req) then mret true
                else trimmed ← method Js.trim "password.trim" (password req);
                     mret (Js.length trimmed <? 6)%nat);
       if (short : bool)
       then respond 400 (error_doc "Password must be at least 6 characters")
       else
         cleanName ← method Js.trim "name.trim" (name req);
         lowered ← method toLowerCase "email.toLowerCase" (email req);
         let cleanEmail := Js.trim lowered in
         cleanPhone ← method Js.trim "phone.trim" (phone req);
         existingUser ← query "SELECT id FROM users WHERE email = $1"
                          (select_users_by_email cleanEmail);
         if (0 <? length (rows existingUser))%nat
         then
           console [LText "Duplicate email attempt:"; LText cleanEmail];;
           respond 400 (error_doc "Email already registered")
         else
           trimmed ← method Js.trim "password.trim" (password req);
           hashedPassword ← hash (JsString trimmed) (genSalt 12 entropy);
           result ← query
             insert_sql
             (insert_user cleanName cleanEmail cleanPhone hashedPassword now (Some now));
           user ← first_row result;
           console [LText "New user created:"; LNum (u_id user); LText (u_email user)];;
           if secret_missing_or_short
           then
             console [LText "FATAL: JWT_SECRET is missing or too short!"];;
             respond 500 (error_doc "Server configuration error. Contact admin.")
           else
             token ← sign (u_id user) (u_email user) (default "" (JWT_SECRET env)) "30d";
             respond 201 (JObj [("message", JStr "Registration successful!");
                                ("token", JStr token);
                                ("user", user_doc user)]))
    (fun error =>
       console [LText "REGISTRATION FAILED:"; LText (e_message error)];;
       console [LText "Full error object:"; LError error];;
       if is_unique_violation error && constraint_includes error "email"
       then respond 400 (error_doc "Email already registered")
       else if is_unique_violation error && constraint_includes error "phone"
       then respond 400 (error_doc "Phone number already in use")
       else if String.eqb (e_name error) "JsonWebTokenError"
               || Js.includes (e_message error) "secret"
       then respond 500 (error_doc "Authentication system error")
       else respond 500 (error_doc "Registration failed. Please try again later.")).

Definition login (req : credentials) : handler unit :=
  try_catch
    (if negb (truthy (email req)) || negb (truthy (password req))
     then respond 400 (error_doc "Email and password are required")
     else
       lowered ← method toLowerCase "email.toLowerCase" (email req);
       let cleanEmail := Js.trim lowered in
       result ← query "SELECT id, name, email, phone, password FROM users WHERE email = $1"
                  (select_users_by_email cleanEmail);
       if (length (rows result) =? 0)%nat
       then respond 401 (error_doc "Invalid email or password")
       else
         user ← first_row result;
         isMatch ← compare (password req) (u_password user);
         if negb isMatch
         then respond 401 (error_doc "Invalid email or password")
         else if negb (truthy_opt (JWT_SECRET env))
         then
           console [LText "JWT_SECRET missing during login"];;
           respond 500 (error_doc "Server error")
         else
           token ← sign (u_id user) (u_email user) (default "" (JWT_SECRET env)) "30d";
           respond 200 (JObj [("message", JStr "Login successful");
                              ("token", JStr token);
                              ("user", user_doc user)]))
    (fun error =>
       console [LText "LOGIN FAILED:"; LError error];;
       respond 500 (error_doc "Login failed. Please try again.")).

End Routes.
End AuthRevised.

(** ** The SQL the listing routes rely on *)
Module Sql.

(** A LIKE pattern: [%] stands for any run of characters, [_] for any single
    character, and a backslash makes the next character literal. A
    character is one to four bytes: [_] takes a byte and the bytes that
    continue it. *)
Inductive token :=
| AnyRun
| AnyOne
| Lit (c : ascii).

(** [None] when the pattern ends in a lone escape character, which
    PostgreSQL refuses. *)
Fixpoint parse (p : string) : option (list token) :=
  match p with
  | EmptyString => Some []
  | String c rest =>
      if Ascii.eqb c "\"%char then
        match rest with
        | String d rest' => option_map (cons (Lit d)) (parse rest')
        | EmptyString => None
        end
      else if Ascii.eqb c "%"%char then option_map (cons AnyRun) (parse rest)
      else if Ascii.eqb c "_"%char then option_map (cons AnyOne) (parse rest)
      else option_map (cons (Lit c)) (parse rest)
  end.

Fixpoint matches (p : list token) : string -> bool :=
  match p with
  | [] => fun s => match s with EmptyString => true | String _ _ => false end
  | Lit c :: p' =>
      fun s => match s with
               | String d s' => Ascii.eqb c d && matches p' s'
               | EmptyString => false
               end
  | AnyOne :: p' =>
      fun s => match s with
               | String _ s' => matches p' (Js.continued s')
               | EmptyString => false
               end
  | AnyRun :: p' =>
      fix run (s : string) : bool :=
        matches p' s
        || match s with
           | String _ s' => run s'
           | EmptyString => false
           end
  end.

(** Truth values of a WHERE clause: [None] is SQL's unknown. *)
Definition tv := option bool.

Definition or (a b : tv) : tv :=
  match a, b with
  | Some true, _ | _, Some true => Some true
  | Some false, Some false => Some false
  | _, _ => None
  end.

(** [column = $n] *)
Definition eq (column : option string) (v : string) : tv :=
  option_map (fun c => String.eqb c v) column.

(** [column ILIKE $n], for a parsed pattern: both sides are compared with
    the letters A to Z in lower case. *)
Definition ilike (column : option string) (p : list token) : tv :=
  option_map (fun c => matches p (Js.ascii_lower c)) column.

Definition invalid_escape : error :=
  {| e_name := "error";
     e_message := "LIKE pattern must not end with escape character";
     e_code := Some "22025";
     e_constraint := None |}.

End Sql.

(** ** Statements on [listings] *)

(** [req.params.id] is a text, and the handlers hand it to the database
    as it is: the server reads the parameter as a value of the type of
    [listings.id] and raises an error for a text that is none (letters, a
    number the type cannot hold). The schema is not under src/, so the
    reading is a parameter: the id read, or the error raised. *)
Class IdColumn := { id_in : string -> error + Z }.

(** A statement with [id = $n] run on the text of the route. *)
Definition by_id `{IdColumn} {A} (id : string) (st : Z -> statement A) : statement A :=
  fun w =>
    match id_in id with
    | inr n => st n w
    | inl e => (inl e, w)
    end.

(** A listing row next to the row of its owner: [listings l JOIN users u ON
    l.user_id = u.id]. *)
Definition join_owner (w : world) : list (listing_row * user_row) :=
  flat_map
    (fun l => List.map (fun u => (l, u))
                (List.filter (fun u => l_user_id l =? u_id u) (users w)))
    (listings w).

(** One [AND ...] conjunct appended to the query text by [GET /], with the
    parameter it refers to. *)
Inductive conjunct :=
| CategoryEq (param : string)
| CountyEq (param : string)
| TitleOrDescriptionILike (param : string).

Definition holds (c : conjunct) (l : listing_row) : error + Sql.tv :=
  match c with
  | CategoryEq v => inr (Sql.eq (l_category l) v)
  | CountyEq v => inr (Sql.eq (l_county l) v)
  | TitleOrDescriptionILike pat =>
      match Sql.parse (Js.ascii_lower pat) with
      | Some p => inr (Sql.or (Sql.ilike (l_title l) p) (Sql.ilike (l_description l) p))
      | None => inl Sql.invalid_escape
      end
  end.

(** A row passes [WHERE 1=1 AND c1 AND ...] when every conjunct is true. *)
Definition passes (cs : list conjunct) (l : listing_row) : bool :=
  forallb (fun c => match holds c l with inr (Some true) => true | _ => false end) cs.

Definition pattern_error (cs : list conjunct) : option error :=
  match List.filter
          (fun c => match c with
                    | TitleOrDescriptionILike pat =>
                        match Sql.parse (Js.ascii_lower pat) with
                        | Some _ => false
                        | None => true
                        end
                    | _ => false
                    end) cs
  with
  | _ :: _ => Some Sql.invalid_escape
  | [] => None
  end.

(** [ORDER BY created_at DESC]: the later row first. *)
Definition newer_first (a b : listing_row) : Prop := l_created_at b <= l_created_at a.

#[export] Instance newer_first_dec a b : Decision (newer_first a b) :=
  Z_le_dec (l_created_at b) (l_created_at a).

Definition by_listing {A} (R : listing_row -> listing_row -> Prop)
  (x y : listing_row * A) : Prop := R (fst x) (fst y).

#[export] Instance by_listing_dec {A} R `{forall a b, Decision (R a b)}
  (x y : listing_row * A) : Decision (by_listing R x y) :=
  decide (R (fst x) (fst y)).

(** [SELECT l.*, u.name ..., u.phone ... FROM listings l JOIN users u ...
     WHERE 1=1 AND ... ORDER BY l.created_at DESC] *)
Definition select_listings (cs : list conjunct) : statement (listing_row * user_row) :=
  fun w =>
    match pattern_error cs with
    | Some e => (inl e, w)
    | None =>
        (inr (returning
                (merge_sort (by_listing newer_first)
                   (List.filter (fun lu => passes cs (fst lu)) (join_owner w)))), w)
    end.

(** [SELECT l.*, ... FROM listings l JOIN users u ... WHERE l.id = $1],
    for the id the server has read. *)
Definition select_listing_by_id (id : Z) : statement (listing_row * user_row) :=
  fun w => (inr (returning (List.filter (fun lu => l_id (fst lu) =? id) (join_owner w))), w).

(** [SELECT * FROM listings WHERE user_id = $1 ORDER BY created_at DESC] *)
Definition select_listings_of (userId : Z) : statement listing_row :=
  fun w =>
    (inr (returning
            (merge_sort newer_first
               (List.filter (fun l => l_user_id l =? userId) (listings w)))), w).

(** [SELECT user_id FROM listings WHERE id = $1], for the id the server
    has read in the parameter; [by_id] is the statement on the text of the
    route, which can fail. *)
Definition select_owner (id : Z) : statement Z :=
  fun w =>
    (inr (returning
            (List.map l_user_id (List.filter (fun l => l_id l =? id) (listings w)))), w).

(** The body of [POST /listings] and [PUT /listings/:id]. *)
Record listing_fields := {
  title : option string;
  description : option string;
  category : option string;
  custom_category : option string;
  location : option string;
  county : option string;
  contact : option string;
  amenities : option (list string);
  images : option (list string) }.

(** Modelled from the spec: the schema of [listings] is not under src/; the
    [id] comes from the table's sequence and [created_at] and [updated_at]
    default to the time of the insert. [userId] is the [req.userId] of a
    verified token: it names a stored user, and users are never deleted,
    so the foreign key on [user_id] holds and is not checked again here.

    [INSERT INTO listings (user_id, title, ..., images)
     VALUES ($1, ..., $10) RETURNING *] *)
Definition insert_listing (userId : Z) (f : listing_fields) (now : Z)
  : statement listing_row :=
  fun w =>
    let row := {| l_id := listings_id_seq w; l_user_id := userId;
                  l_title := title f; l_description := description f;
                  l_category := category f; l_custom_category := custom_category f;
                  l_location := location f; l_county := county f;
                  l_phone := contact f; l_amenities := amenities f;
                  l_images := images f;
                  l_created_at := now; l_updated_at := now |} in
    (inr (returning [row]),
     set_listings (listings w ++ [row]) (listings_id_seq w + 1) w).

(** The [SET] clause of the update: nine columns take the parameters,
    [updated_at] takes [CURRENT_TIMESTAMP]. *)
Definition set_columns (f : listing_fields) (now : Z) (l : listing_row) : listing_row :=
  {| l_id := l_id l; l_user_id := l_user_id l;
     l_title := title f; l_description := description f;
     l_category := category f; l_custom_category := custom_category f;
     l_location := location f; l_county := county f;
     l_phone := contact f; l_amenities := amenities f;
     l_images := images f;
     l_created_at := l_created_at l; l_updated_at := now |}.

(** [UPDATE listings SET ... WHERE id = $10 RETURNING *] *)
Definition update_listing (id : Z) (f : listing_fields) (now : Z)
  : statement listing_row :=
  fun w =>
    let updated :=
      List.map (fun l => if l_id l =? id then set_columns f now l else l) (listings w) in
    (inr (returning (List.filter (fun l => l_id l =? id) updated)),
     set_listings updated (listings_id_seq w) w).

(** [DELETE FROM listings WHERE id = $1] *)
Definition delete_listing (id : Z) : statement listing_row :=
  fun w =>
    let hit := List.filter (fun l => l_id l =? id) (listings w) in
    (inr {| rows := []; rowCount := length hit |},
     set_listings (List.filter (fun l => negb (l_id l =? id)) (listings w))
       (listings_id_seq w) w).

(** ** [src/routes/listings.js]

    [userId] is the [req.userId] the authentication guard attached (the
    guard, [middleware/auth], is not under src/). The routes with an
    [:id] come twice: [get], [update] and [delete] are the handlers for a
    request whose id the server reads as the number [id]; [get_request],
    [update_request] and [delete_request] take the text of
    [req.params.id] and cover the request whose id the server cannot
    read. *)
Module Listings.

(** [req.query] of [GET /]. *)
Record filters := {
  q_category : option string;
  q_location : option string;
  q_search : option string }.

Definition nullable (v : option string) : json :=
  match v with Some s => JStr s | None => JNull end.

Definition nullable_array (v : option (list string)) : json :=
  match v with Some l => JArr (List.map JStr l) | None => JNull end.

(** The columns of [l.*] as the driver hands them over. *)
Definition listing_columns (l : listing_row) : list (string * json) :=
  [("id", JNum (l_id l)); ("user_id", JNum (l_user_id l));
   ("title", nullable (l_title l)); ("description", nullable (l_description l));
   ("category", nullable (l_category l));
   ("custom_category", nullable (l_custom_category l));
   ("location", nullable (l_location l)); ("county", nullable (l_county l));
   ("phone", nullable (l_phone l));
   ("amenities", nullable_array (l_amenities l));
   ("images", nullable_array (l_images l));
   ("created_at", JNum (l_created_at l)); ("updated_at", JNum (l_updated_at l))].

Definition listing_doc (l : listing_row) : json := JObj (listing_columns l).

Definition listed_doc (lu : listing_row * user_row) : json :=
  JObj (listing_columns (fst lu)
        ++ [("owner_name", JStr (u_name (snd lu)));
            ("owner_phone", JStr (u_phone (snd lu)))]).

Definition detailed_doc (lu : listing_row * user_row) : json :=
  JObj (listing_columns (fst lu)
        ++ [("owner_name", JStr (u_name (snd lu)));
            ("owner_email", JStr (u_email (snd lu)));
            ("owner_phone", JStr (u_phone (snd lu)))]).

(** The [AND] conjuncts [GET /] appends for the filters that are given. *)
Definition conjuncts (q : filters) : list conjunct :=
  (if truthy_opt (q_category q) then [CategoryEq (default "" (q_category q))] else [])
  ++ (if truthy_opt (q_location q) then [CountyEq (default "" (q_location q))] else [])
  ++ (if truthy_opt (q_search q)
      then [TitleOrDescriptionILike ("%" ++ default "" (q_search q) ++ "%")]
      else []).

(** [router.get('/', ...)] *)
(** The text of the statement, grown the way the handler grows it:
    [paramCount] numbers the parameters that have been pushed. *)
Definition list_head : string :=
  "
      SELECT l.*, u.name as owner_name, u.phone as owner_phone 
      FROM listings l 
      JOIN users u ON l.user_id = u.id 
      WHERE 1=1
    ".

Definition list_sql (q : filters) : string :=
  let query := list_head in
  let paramCount := 1 in
  let '(query, paramCount) :=
    if truthy_opt (q_category q)
    then (query ++ " AND l.category = $" ++ Js.toString paramCount, paramCount + 1)
    else (query, paramCount) in
  let '(query, paramCount) :=
    if truthy_opt (q_location q)
    then (query ++ " AND l.county = $" ++ Js.toString paramCount, paramCount + 1)
    else (query, paramCount) in
  let '(query, paramCount) :=
    if truthy_opt (q_search q)
    then (query ++ " AND (l.title ILIKE $" ++ Js.toString paramCount
            ++ " OR l.description ILIKE $" ++ Js.toString paramCount ++ ")",
          paramCount + 1)
    else (query, paramCount) in
  query ++ " ORDER BY l.created_at DESC".

Definition list_listings (q : filters) : handler unit :=
  try_catch
    (result ← query (list_sql q) (select_listings (conjuncts q));
     respond 200 (JObj [("listings", JArr (List.map listed_doc (rows result)))]))
    (fun error =>
       console [LText "Get listings error:"; LError error];;
       respond 500 (error_doc "Failed to fetch listings")).

(** [router.get('/:id', ...)] *)
Definition get_sql : string :=
  "SELECT l.*, u.name as owner_name, u.email as owner_email, u.phone as owner_phone 
       FROM listings l 
       JOIN users u ON l.user_id = u.id 
       WHERE l.id = $1".

Definition get (id : Z) : handler unit :=
  try_catch
    (result ← query get_sql (select_listing_by_id id);
     match rows result with
     | [] => respond 404 (error_doc "Listing not found")
     | row :: _ => respond 200 (JObj [("listing", detailed_doc row)])
     end)
    (fun error =>
       console [LText "Get listing error:"; LError error];;
       respond 500 (error_doc "Failed to fetch listing")).

(** [images.length === 0 || images.length > 5] once [images] is there. *)
Definition image_count_ok (f : listing_fields) : bool :=
  match images f with
  | Some l => negb (length l =? 0)%nat && negb (5 <? length l)%nat
  | None => false
  end.

(** [amenities || []]: an array, even an empty one, is truthy. *)
Definition amenities_or_empty (f : listing_fields) : listing_fields :=
  {| title := title f; description := description f; category := category f;
     custom_category := custom_category f; location := location f;
     county := county f; contact := contact f;
     amenities := Some (default [] (amenities f)); images := images f |}.

(** [router.post('/', authMiddleware, ...)]; [userId] is the [req.userId]
    the guard attached. *)
Definition insert_sql : string :=
  "INSERT INTO listings 
       (user_id, title, description, category, custom_category, location, county, phone, amenities, images) 
       VALUES ($1, $2, $3, $4, $5, $6, $7, $8, $9, $10) 
       RETURNING *".

Definition create (userId : Z) (now : Z) (f : listing_fields) : handler unit :=
  try_catch
    (if negb (truthy_opt (title f)) || negb (truthy_opt (category f))
        || negb (truthy_opt (location f)) || negb (truthy_opt (county f))
        || negb (truthy_opt (contact f))
     then respond 400 (error_doc "Missing required fields")
     else if negb (image_count_ok f)
     then respond 400 (error_doc "Please provide 1-5 images")
     else
       result ← query insert_sql (insert_listing userId (amenities_or_empty f) now);
       row ← first_row result;
       respond 201 (JObj [("message", JStr "Listing created successfully");
                          ("listing", listing_doc row)]))
    (fun error =>
       console [LText "Create listing error:"; LError error];;
       respond 500 (error_doc "Failed to create listing")).

(** [router.get('/user/my-listings', authMiddleware, ...)] *)
Definition listMine (userId : Z) : handler unit :=
  try_catch
    (result ← query "SELECT * FROM listings WHERE user_id = $1 ORDER BY created_at DESC"
                (select_listings_of userId);
     respond 200 (JObj [("listings", JArr (List.map listing_doc (rows result)))]))
    (fun error =>
       console [LText "Get user listings error:"; LError error];;
       respond 500 (error_doc "Failed to fetch listings")).

(** [listing: result.rows[0]]: a missing row leaves the key out. *)
Definition listing_key (res : result listing_row) : list (string * json) :=
  match rows res with
  | row :: _ => [("listing", listing_doc row)]
  | [] => []
  end.

(** [router.put('/:id', authMiddleware, ...)] *)
Definition update_sql : string :=
  "UPDATE listings 
       SET title = $1, description = $2, category = $3, custom_category = $4, 
           location = $5, county = $6, phone = $7, amenities = $8, images = $9, 
           updated_at = CURRENT_TIMESTAMP 
       WHERE id = $10 
       RETURNING *".

Definition update (id : Z) (userId : Z) (now : Z) (f : listing_fields) : handler unit :=
  try_catch
    (checkOwnership ← query "SELECT user_id FROM listings WHERE id = $1" (select_owner id);
     match rows checkOwnership with
     | [] => respond 404 (error_doc "Listing not found")
     | owner :: _ =>
         if negb (owner =? userId)
         then respond 403 (error_doc "Not authorized")
         else
           result ← query update_sql (update_listing id f now);
           respond 200 (JObj (("message", JStr "Listing updated successfully")
                              :: listing_key result))
     end)
    (fun error =>
       console [LText "Update listing error:"; LError error];;
       respond 500 (error_doc "Failed to update listing")).

(** [router.delete('/:id', authMiddleware, ...)] *)
Definition delete (id : Z) (userId : Z) : handler unit :=
  try_catch
    (checkOwnership ← query "SELECT user_id FROM listings WHERE id = $1" (select_owner id);
     match rows checkOwnership with
     | [] => respond 404 (error_doc "Listing not found")
     | owner :: _ =>
         if negb (owner =? userId)
         then respond 403 (error_doc "Not authorized")
         else
           query "DELETE FROM listings WHERE id = $1" (delete_listing id);;
           respond 200 (JObj [("message", JStr "Listing deleted successfully")])
     end)
    (fun error =>
       console [LText "Delete listing error:"; LError error];;
       respond 500 (error_doc "Failed to delete listing")).

Section Requests.
Context `{IdColumn}.

(** [router.get('/:id', ...)] on [req.params.id] *)
Definition get_request (id : string) : handler unit :=
  try_catch
    (result ← query get_sql (by_id id select_listing_by_id);
     match rows result with
     | [] => respond 404 (error_doc "Listing not found")
     | row :: _ => respond 200 (JObj [("listing", detailed_doc row)])
     end)
    (fun error =>
       console [LText "Get listing error:"; LError error];;
       respond 500 (error_doc "Failed to fetch listing")).

(** [router.put('/:id', authMiddleware, ...)] on [req.params.id] *)
Definition update_request (id : string) (userId : Z) (now : Z) (f : listing_fields)
  : handler unit :=
  try_catch
    (checkOwnership ← query "SELECT user_id FROM listings WHERE id = $1"
                        (by_id id select_owner);
     match rows checkOwnership with
     | [] => respond 404 (error_doc "Listing not found")
     | owner :: _ =>
         if negb (owner =? userId)
         then respond 403 (error_doc "Not authorized")
         else
           result ← query update_sql (by_id id (fun n => update_listing n f now));
           respond 200 (JObj (("message", JStr "Listing updated successfully")
                              :: listing_key result))
     end)
    (fun error =>
       console [LText "Update listing error:"; LError error];;
       respond 500 (error_doc "Failed to update listing")).

(** [router.delete('/:id', authMiddleware, ...)] on [req.params.id] *)
Definition delete_request (id : string) (userId : Z) : handler unit :=
  try_catch
    (checkOwnership ← query "SELECT user_id FROM listings WHERE id = $1"
                        (by_id id select_owner);
     match rows checkOwnership with
     | [] => respond 404 (error_doc "Listing not found")
     | owner :: _ =>
         if negb (owner =? userId)
         then respond 403 (error_doc "Not authorized")
         else
           query "DELETE FROM listings WHERE id = $1" (by_id id delete_listing);;
           respond 200 (JObj [("message", JStr "Listing deleted successfully")])
     end)
    (fun error =>
       console [LText "Delete listing error:"; LError error];;
       respond 500 (error_doc "Failed to delete listing")).

End Requests.

End Listings.

(** ** [src/routes/upload.js] *)

(** A file part of the multipart body, as multer hands it to the route;
    [size] is the number of bytes of [buffer]. *)
Record file := {
  originalname : string;
  mimetype : string;
  size : Z;
  buffer : string }.

(** The storage vendor's URL scheme is not part of the repository. *)
Class StorageClient := { getPublicUrl : string -> string }.

Module Upload.

Definition MulterError (code msg : string) : error :=
  {| e_name := "MulterError"; e_message := msg; e_code := Some code; e_constraint := None |}.

(** [limits: { fileSize: 5 * 1024 * 1024 }] *)
Definition fileSize : Z := 5 * 1024 * 1024.

(** [fileFilter]: accept when [file.mimetype.startsWith('image/')]. *)
Definition fileFilter (f : file) : error + unit :=
  if Js.startsWith (mimetype f) "image/" then inr tt
  else inl (Error "Only image files are allowed").

(** [upload.array('images', maxCount)]: multer is not part of the
    repository; this is what it does with the configuration above. It takes
    the parts in order; a part beyond [maxCount] is refused, then the filter
    is asked, then the part is read up to the size limit ([fileSize] is the
    largest size let through). The first refusal aborts the request with
    that error. *)
Fixpoint array (maxCount : nat) (parts : list file) {struct parts}
  : error + list file :=
  match parts with
  | [] => inr []
  | f :: rest =>
      match maxCount with
      | O => inl (MulterError "LIMIT_UNEXPECTED_FILE" "Unexpected field")
      | S remaining =>
          match fileFilter f with
          | inl e => inl e
          | inr _ =>
              if fileSize <? size f
              then inl (MulterError "LIMIT_FILE_SIZE" "File too large")
              else
                match array remaining rest with
                | inr files => inr (f :: files)
                | inl e => inl e
                end
          end
      end
  end.

(** The middleware hands its error to Express ([next(err)]); the route
    handler does not run. *)
Definition middleware (r : error + list file) : handler (list file) :=
  match r with
  | inr files => mret files
  | inl e => throw e
  end.

Definition already_exists : error :=
  {| e_name := "StorageApiError"; e_message := "The resource already exists";
     e_code := Some "409"; e_constraint := None |}.

(** [supabase.storage.from('house-images').upload(path, buffer,
     { contentType, upsert })]: without [upsert] an existing object is kept
    and the call reports an error. *)
Definition storage_upload (path : string) (f : file) (upsert : bool)
  : handler (option error) :=
  fun w =>
    let w' := emit (StorageUpload path (mimetype f) upsert) w in
    let stored := {| content := buffer f; contentType := mimetype f |} in
    match bucket w !! path with
    | Some _ =>
        if upsert then (Next None, set_bucket (<[path := stored]> (bucket w)) w')
        else (Next (Some already_exists), w')
    | None => (Next None, set_bucket (<[path := stored]> (bucket w)) w')
    end.

(** [supabase.storage.from('house-images').remove(paths)] *)
Definition storage_remove (paths : list string) : handler (option error) :=
  fun w =>
    (Next None,
     set_bucket (foldr (fun p b => base.delete p b) (bucket w) paths)
       (emit (StorageRemove paths) w)).

Section Routes.
Context `{StorageClient}.

(** The key of the [i]th file: [clock i] is [Date.now()] and [random i] is
    [Math.random().toString(36).substring(7)] at that iteration. *)
Definition filePath (userId : Z) (clock : nat -> Z) (random : nat -> string)
  (i : nat) (f : file) : string :=
  let fileName := Js.toString (clock i) ++ "-" ++ random i ++ "-" ++ originalname f in
  "listings/" ++ Js.toString userId ++ "/" ++ fileName.

(** [for (const file of req.files) { ... }] *)
Fixpoint upload_each (userId : Z) (clock : nat -> Z) (random : nat -> string)
  (i : nat) (files : list file) (uploadedUrls : list string) : handler (list string) :=
  match files with
  | [] => mret uploadedUrls
  | f :: rest =>
      let path := filePath userId clock random i f in
      error ← storage_upload path f false;
      match error with
      | Some e =>
          console [LText "Supabase upload error:"; LError e];;
          throw e
      | None =>
          upload_each userId clock random (S i) rest (uploadedUrls ++ [getPublicUrl path])
      end
  end.

(** [router.post('/', authMiddleware, upload.array('images', 5), ...)] *)
Definition upload (userId : Z) (clock : nat -> Z) (random : nat -> string)
  (parts : list file) : handler unit :=
  files ← middleware (array 5 parts);
  try_catch
    (if (length files =? 0)%nat
     then respond 400 (error_doc "No files uploaded")
     else if (5 <? length files)%nat
     then respond 400 (error_doc "Maximum 5 images allowed")
     else
       uploadedUrls ← upload_each userId clock random 0 files [];
       respond 200 (JObj [("message", JStr "Images uploaded successfully");
                          ("urls", JArr (List.map JStr uploadedUrls))]))
    (fun error =>
       console [LText "Upload error:"; LError error];;
       respond 500 (error_doc "Failed to upload images")).

(** [imageUrl.split('/house-images/')] *)
Definition split_url (imageUrl : jsval) : handler (list string) :=
  match imageUrl with
  | JsString s => mret (Js.split s "/house-images/")
  | JsNumber _ => throw (TypeError "imageUrl.split is not a function")
  | JsUndefined => throw (TypeError "Cannot read properties of undefined")
  end.

(** [router.delete('/image', authMiddleware, ...)] *)
Definition deleteImage (userId : Z) (imageUrl : jsval) : handler unit :=
  try_catch
    (if negb (truthy imageUrl)
     then respond 400 (error_doc "Image URL required")
     else
       urlParts ← split_url imageUrl;
       if (length urlParts <? 2)%nat
       then respond 400 (error_doc "Invalid image URL")
       else
         let path := nth 1 urlParts "" in
         error ← storage_remove [path];
         match error with
         | Some e =>
             console [LText "Supabase delete error:"; LError e];;
             throw e
         | None => respond 200 (JObj [("message", JStr "Image deleted successfully")])
         end)
    (fun error =>
       console [LText "Delete error:"; LError error];;
       respond 500 (error_doc "Failed to delete image")).

End Routes.
End Upload.

(** ** The profile route of the two auth files

    [GET /me] runs behind the authentication guard, which leaves the decoded
    token in [req.user]. *)

(** [req.user]: the payload of the token, whose [userId] may be missing. *)
Record session := { s_userId : option Z }.

(** [SELECT id, name, email, phone, created_at FROM users WHERE id = $1];
    a parameter that is [undefined] is sent as NULL and matches nothing. *)
Definition select_user_by_id (id : option Z) : statement user_row :=
  fun w =>
    (inr (returning
            (match id with
             | Some n => List.filter (fun u => u_id u =? n) (users w)
             | None => []
             end)), w).

(** The five columns the profile query selects. *)
Definition profile_doc (u : user_row) : json :=
  JObj [("id", JNum (u_id u)); ("name", JStr (u_name u));
        ("email", JStr (u_email u)); ("phone", JStr (u_phone u));
        ("created_at", JNum (u_created_at u))].

Module Profile.

(** [req.user.userId]: reading a property of [undefined] throws. *)
Definition user_id_of (user : option session) : handler (option Z) :=
  match user with
  | Some s => mret (s_userId s)
  | None => throw (TypeError "Cannot read properties of undefined")
  end.

(** [router.get('/me', authMiddleware, ...)] of [src/routes/auth.js] *)
Definition me (user : option session) : handler unit :=
  try_catch
    (userId ← user_id_of user;
     result ← query "SELECT id, name, email, phone, created_at FROM users WHERE id = $1"
                (select_user_by_id userId);
     match rows result with
     | [] => respond 404 (error_doc "User not found")
     | row :: _ => respond 200 (JObj [("user", profile_doc row)])
     end)
    (fun error =>
       console [LText "Get user error:"; LError error];;
       respond 500 (error_doc "Failed to fetch user profile")).

(** [req.user?.userId], and whether [!userId] lets it through: a missing
    id and the id 0 are both refused. *)
Definition optional_user_id (user : option session) : option Z :=
  match user with
  | Some s => s_userId s
  | None => None
  end.

Definition truthy_id (id : option Z) : bool :=
  match id with
  | Some n => negb (n =? 0)
  | None => false
  end.

(** [router.get('/me', authMiddleware, ...)] of [src/unnamed/part_001] *)
Definition me_revised (user : option session) : handler unit :=
  try_catch
    (let userId := optional_user_id user in
     if negb (truthy_id userId)
     then respond 401 (error_doc "Unauthorized")
     else
       result ← query "SELECT id, name, email, phone, created_at FROM users WHERE id = $1"
                  (select_user_by_id userId);
       match rows result with
       | [] => respond 404 (error_doc "User not found")
       | row :: _ => respond 200 (JObj [("user", profile_doc row)])
       end)
    (fun error =>
       console [LText "GET /me error:"; LError error];;
       respond 500 (error_doc "Failed to load profile")).

End Profile.

(** ** The start-up connection test ([src/unnamed/part_000])

    [pool.connect()] and [client.query(...)] either fail with an error or
    give a client and the one row of [SELECT NOW(), version()]. *)
Module Database.

(** What [testConnection] prints or does with the pool, oldest first. *)
Inductive step :=
| Acquire
| Release
| Log (text : string)
| LogTime (text : string) (time : Z)
| LogText (text : string) (value : string)
| LogCode (text : string) (code : option string).

Record server_row := { current_time : Z; pg_version : string }.

(** The branch of hints in the [catch] block: at most one is printed. *)
Definition hint (err : error) : list step :=
  if match e_code err with Some c => String.eqb c "ENOTFOUND" | None => false end
  then [Log "   → Database host not found. Check your DATABASE_URL host."]
  else if match e_code err with Some c => String.eqb c "ECONNREFUSED" | None => false end
  then [Log "   → Connection refused. Check your DATABASE_URL port (should be 5432)."]
  else if Js.includes (e_message err) "password authentication failed"
  then [Log "   → Password authentication failed. Check your database password."]
  else if Js.includes (e_message err) "SSL"
  then [Log "   → SSL connection issue. Make sure SSL is properly configured."]
  else [].

(** The [catch] block. *)
Definition failed (err : error) : list step :=
  [Log "❌ Database connection test failed!";
   LogText "   Error:" (e_message err);
   LogCode "   Code:" (e_code err)]
  ++ hint err.

(** [testConnection]: the value it resolves to and what it did. The
    [finally] block releases the client when [pool.connect()] had given
    one. *)
Definition testConnection (connect : error + unit) (answer : error + server_row)
  : bool * list step :=
  match connect with
  | inl err => (false, failed err)
  | inr _ =>
      match answer with
      | inl err => (false, Acquire :: failed err ++ [Release])
      | inr row =>
          (true,
           [Acquire;
            Log "✅ Database connection test successful!";
            LogTime "   Current time:" (current_time row);
            LogText "   PostgreSQL version:"
              (hd "" (Js.split (pg_version row) ","));
            Release])
      end
  end.

End Database.

(** ** Test doubles

    Stand-ins for the libraries, for the case tables of the engine and for
    the id column, used to run the handlers on concrete requests. *)
Module Fixture.

Fixpoint ends_with (s suffix : string) : bool :=
  String.eqb s suffix
  || match s with
     | String _ s' => ends_with s' suffix
     | EmptyString => false
     end.

Lemma ends_with_append a suffix : ends_with (a ++ suffix) suffix = true.
Proof.
  induction a as [|c a IH]; simpl.
  - destruct suffix; simpl; rewrite ?Ascii.eqb_refl, ?String.eqb_refl; reflexivity.
  - rewrite IH. apply orb_true_r.
Qed.

(** The salt is kept in front of the digest, as bcrypt does. *)
Definition crypto : Crypto :=
  {| bcrypt_hash := fun pw s => seed s ++ "$" ++ pw;
     bcrypt_compare := fun pw stored => ends_with stored ("$" ++ pw);
     jwt_sign := fun userId mail secret expiresIn =>
       "jwt." ++ Js.toString userId ++ "." ++ mail ++ "." ++ expiresIn;
     bcrypt_compare_hash := fun pw s => ends_with_append (seed s) ("$" ++ pw) |}.

(** Lower case for Basic Latin and for the letters of the Latin-1
    Supplement, U+00C0 to U+00DE without the multiplication sign, which
    UTF-8 writes as the byte 195 followed by 128 to 158. *)
Fixpoint lower_latin (s : string) : string :=
  match s with
  | String c s' =>
      if (Js.code c =? 195)%nat then
        match s' with
        | String d s'' =>
            if ((128 <=? Js.code d) && (Js.code d <=? 158)
                && negb (Js.code d =? 151))%nat
            then String c (String (ascii_of_nat (Js.code d + 32)) (lower_latin s''))
            else String c (String d (lower_latin s''))
        | EmptyString => String c EmptyString
        end
      else String (Js.lower c) (lower_latin s')
  | EmptyString => EmptyString
  end.

Lemma lower_latin_ascii s : Js.is_ascii s = true -> lower_latin s = Js.ascii_lower s.
Proof.
  induction s as [|c s IH]; [reflexivity|].
  cbn [Js.is_ascii lower_latin Js.ascii_lower].
  intros Hs. apply andb_true_iff in Hs as [Hc Hs]. apply Nat.ltb_lt in Hc.
  destruct (Nat.eqb_spec (Js.code c) 195) as [Heq|_]; [lia|].
  rewrite (IH Hs). reflexivity.
Qed.

(** PostgreSQL's [integer] read from a text: blanks, an optional sign,
    decimal digits, blanks; a value from -2^31 to 2^31-1. *)
Fixpoint skip_blank (s : string) : string :=
  match s with
  | String c s' => if Js.space1 c then skip_blank s' else s
  | EmptyString => EmptyString
  end.

Definition digit (c : ascii) : option Z :=
  if ((48 <=? Js.code c) && (Js.code c <=? 57))%nat
  then Some (Z.of_nat (Js.code c) - 48)
  else None.

Fixpoint read_digits (s : string) (acc : Z) (seen : bool) : option (Z * string) :=
  match s with
  | String c s' =>
      match digit c with
      | Some d => read_digits s' (10 * acc + d) true
      | None => if seen then Some (acc, s) else None
      end
  | EmptyString => if seen then Some (acc, EmptyString) else None
  end.

Definition invalid_text (s : string) : error :=
  {| e_name := "error";
     e_message := "invalid input syntax for type integer: " ++ quote ++ s ++ quote;
     e_code := Some "22P02"; e_constraint := None |}.

Definition out_of_range (s : string) : error :=
  {| e_name := "error";
     e_message := "value " ++ quote ++ s ++ quote ++ " is out of range for type integer";
     e_code := Some "22003"; e_constraint := None |}.

Definition integer_in (s : string) : error + Z :=
  let t := skip_blank s in
  let '(negative, t) :=
    match t with
    | String "-" t' => (true, t')
    | String "+" t' => (false, t')
    | _ => (false, t)
    end in
  match read_digits t 0 false with
  | Some (n, rest) =>
      if String.eqb (skip_blank rest) ""
      then
        let v := if negative then - n else n in
        if (- 2 ^ 31 <=? v) && (v <? 2 ^ 31) then inr v else inl (out_of_range s)
      else inl (invalid_text s)
  | None => inl (invalid_text s)
  end.

Definition integer : IdColumn := {| id_in := integer_in |}.

Definition casing : Casing :=
  {| toLowerCase := lower_latin; toLowerCase_ascii := lower_latin_ascii |}.

Definition storage : StorageClient :=
  {| getPublicUrl := fun path =>
       "https://cdn.test/storage/v1/object/public/house-images/" ++ path |}.

Definition empty : world :=
  {| users := []; users_id_seq := 1; listings := []; listings_id_seq := 1;
     bucket := ∅; trace := [] |}.

Definition alice : user_row :=
  {| u_id := 1; u_name := "Alice"; u_email := "alice@example.com";
     u_phone := "0711"; u_password := "pepper$wonderland";
     u_created_at := 10; u_updated_at := None |}.

Definition bob : user_row :=
  {| u_id := 2; u_name := "Bob"; u_email := "bob@example.com";
     u_phone := "0722"; u_password := "ginger$builder1";
     u_created_at := 20; u_updated_at := None |}.

Definition flat : listing_row :=
  {| l_id := 1; l_user_id := 1; l_title := Some "Sunny flat";
     l_description := None; l_category := Some "rental";
     l_custom_category := None; l_location := Some "Westlands";
     l_county := Some "Nairobi"; l_phone := Some "0711";
     l_amenities := Some ["wifi"]; l_images := Some ["a.png"];
     l_created_at := 100; l_updated_at := 100 |}.

Definition plot : listing_row :=
  {| l_id := 2; l_user_id := 2; l_title := Some "Plot for sale";
     l_description := Some "Quarter acre near the road"; l_category := Some "land";
     l_custom_category := None; l_location := Some "Ruiru";
     l_county := Some "Kiambu"; l_phone := Some "0722";
     l_amenities := Some []; l_images := Some ["p.png"; "q.png"];
     l_created_at := 200; l_updated_at := 200 |}.

(** Two users with one listing each. *)
Definition market : world :=
  {| users := [alice; bob]; users_id_seq := 3;
     listings := [flat; plot]; listings_id_seq := 3;
     bucket := ∅; trace := [] |}.

(** A complete listing body with two images. *)
Definition advert : listing_fields :=
  {| title := Some "Bedsitter"; description := Some "Near the stage";
     category := Some "rental"; custom_category := None;
     location := Some "Roysambu"; county := Some "Nairobi";
     contact := Some "0733"; amenities := None;
     images := Some ["1.png"; "2.png"] |}.

(** A photo that user 1 uploaded, and the bucket holding it. *)
Definition photo_key : string := "listings/1/1700000000000-k3x9q-house.png".

Definition photo : file :=
  {| originalname := "house.png"; mimetype := "image/png"; size := 2048;
     buffer := "PNG" |}.

(** A text file. *)
Definition notes : file :=
  {| originalname := "notes.txt"; mimetype := "text/plain"; size := 10;
     buffer := "hello" |}.

Definition shelf : world :=
  {| users := [alice; bob]; users_id_seq := 3;
     listings := [flat; plot]; listings_id_seq := 3;
     bucket := {[ photo_key := {| content := "PNG"; contentType := "image/png" |} ]};
     trace := [] |}.

End Fixture.

(** * Properties *)

(** Unfolds the monad so that a handler applied to a world reduces. *)
Ltac run :=
  unfold try_catch, mbind, handler_bind, mret, handler_ret, respond, throw,
    console, query, first_row, returning in *;
  simpl in *.

(** ** Listings: ownership of update and delete *)

(** The stored [user_id] of the listing with the given id: [rows[0].user_id]
    of the ownership query. *)
Definition owner_of (id : Z) (w : world) : option Z :=
  head (List.map l_user_id (List.filter (fun l => l_id l =? id) (listings w))).

Definition not_found : response :=
  {| status := 404; body := error_doc "Listing not found" |}.

Definition forbidden : response :=
  {| status := 403; body := error_doc "Not authorized" |}.

Lemma update_absent id userId now f w :
  owner_of id w = None ->
  fst (Listings.update id userId now f w) = Done not_found
  /\ listings (snd (Listings.update id userId now f w)) = listings w.
Proof.
  unfold owner_of, Listings.update, select_owner. run.
  destruct (List.map l_user_id _) as [|o os]; [|discriminate].
  intros _. split; reflexivity.
Qed.

Lemma delete_absent id userId w :
  owner_of id w = None ->
  fst (Listings.delete id userId w) = Done not_found
  /\ listings (snd (Listings.delete id userId w)) = listings w.
Proof.
  unfold owner_of, Listings.delete, select_owner. run.
  destruct (List.map l_user_id _) as [|o os]; [|discriminate].
  intros _. split; reflexivity.
Qed.

Lemma update_forbidden id userId now f w o :
  owner_of id w = Some o -> o <> userId ->
  fst (Listings.update id userId now f w) = Done forbidden
  /\ listings (snd (Listings.update id userId now f w)) = listings w.
Proof.
  unfold owner_of, Listings.update, select_owner. run.
  destruct (List.map l_user_id _) as [|o' os]; [discriminate|].
  intros [= ->] Hne. apply Z.eqb_neq in Hne. rewrite Hne. split; reflexivity.
Qed.

Lemma delete_forbidden id userId w o :
  owner_of id w = Some o -> o <> userId ->
  fst (Listings.delete id userId w) = Done forbidden
  /\ listings (snd (Listings.delete id userId w)) = listings w.
Proof.
  unfold owner_of, Listings.delete, select_owner. run.
  destruct (List.map l_user_id _) as [|o' os]; [discriminate|].
  intros [= ->] Hne. apply Z.eqb_neq in Hne. rewrite Hne. split; reflexivity.
Qed.

(** The nine columns a client supplies, read back from a row. *)
Definition fields_of (l : listing_row) : listing_fields :=
  {| title := l_title l; description := l_description l;
     category := l_category l; custom_category := l_custom_category l;
     location := l_location l; county := l_county l; contact := l_phone l;
     amenities := l_amenities l; images := l_images l |}.

Definition rewrite_row (id : Z) (f : listing_fields) (now : Z) (l : listing_row) :=
  if l_id l =? id then set_columns f now l else l.

Lemma rewrite_row_id id f now l : l_id (rewrite_row id f now l) = l_id l.
Proof. unfold rewrite_row. destruct (l_id l =? id); reflexivity. Qed.

Lemma rewrite_row_owner id f now l : l_user_id (rewrite_row id f now l) = l_user_id l.
Proof. unfold rewrite_row. destruct (l_id l =? id); reflexivity. Qed.

Lemma filter_rewritten id f now ls :
  List.filter (fun l => l_id l =? id) (List.map (rewrite_row id f now) ls)
  = List.map (set_columns f now) (List.filter (fun l => l_id l =? id) ls).
Proof.
  induction ls as [|l ls IH]; simpl; [reflexivity|].
  rewrite rewrite_row_id. unfold rewrite_row at 1.
  destruct (l_id l =? id); simpl; rewrite IH; reflexivity.
Qed.

Lemma update_owner id userId now f w :
  owner_of id w = Some userId ->
  let w' := snd (Listings.update id userId now f w) in
  (exists row,
      head (List.filter (fun l => l_id l =? id) (listings w)) = Some row
      /\ fst (Listings.update id userId now f w)
         = Done {| status := 200;
                   body := JObj [("message", JStr "Listing updated successfully");
                                 ("listing", Listings.listing_doc (set_columns f now row))] |}
      /\ In (set_columns f now row) (listings w'))
  /\ listings w' = List.map (rewrite_row id f now) (listings w)
  /\ owner_of id w' = Some userId.
Proof.
  unfold owner_of, Listings.update, select_owner, update_listing, Listings.listing_key. run.
  fold (rewrite_row id f now).
  destruct (List.filter (fun l => l_id l =? id) (listings w)) as [|row rest] eqn:Hrows;
    [discriminate|].
  simpl. intros [= Howner]. rewrite Howner, Z.eqb_refl. simpl.
  rewrite !filter_rewritten, Hrows. simpl. repeat split.
  - exists row. repeat split.
    assert (Hin : In row (listings w)).
    { apply (proj1 (filter_In (fun l => l_id l =? id) row (listings w))).
      rewrite Hrows. left. reflexivity. }
    assert (Hid : (l_id row =? id) = true).
    { apply (proj1 (filter_In (fun l => l_id l =? id) row (listings w))).
      rewrite Hrows. left. reflexivity. }
    apply in_map_iff. exists row. split; [|exact Hin].
    unfold rewrite_row. rewrite Hid. reflexivity.
  - f_equal. exact Howner.
Qed.

Lemma join_without id w :
  List.filter (fun l => l_id l =? id) (listings w) = [] ->
  List.filter (fun lu : listing_row * user_row => l_id (fst lu) =? id) (join_owner w) = [].
Proof.
  unfold join_owner. induction (listings w) as [|l ls IH]; simpl; [reflexivity|].
  destruct (l_id l =? id) eqn:Hid; [discriminate|].
  intros Hrest. rewrite List.filter_app, (IH Hrest), app_nil_r.
  induction (List.filter _ (users w)) as [|u us IHu]; simpl; [reflexivity|].
  rewrite Hid. exact IHu.
Qed.

Lemma filter_filter_out id (ls : list listing_row) :
  List.filter (fun l => l_id l =? id) (List.filter (fun l => negb (l_id l =? id)) ls) = [].
Proof.
  induction ls as [|l ls IH]; simpl; [reflexivity|].
  destruct (l_id l =? id) eqn:Hid; simpl; [exact IH|].
  rewrite Hid. exact IH.
Qed.

Lemma delete_owner id userId w :
  owner_of id w = Some userId ->
  let w' := snd (Listings.delete id userId w) in
  fst (Listings.delete id userId w)
  = Done {| status := 200;
            body := JObj [("message", JStr "Listing deleted successfully")] |}
  /\ listings w' = List.filter (fun l => negb (l_id l =? id)) (listings w)
  /\ fst (Listings.get id w') = Done not_found.
Proof.
  unfold owner_of, Listings.delete, select_owner, delete_listing. run.
  destruct (List.map l_user_id _) as [|o os] eqn:Howners; [discriminate|].
  intros [= ->]. rewrite Z.eqb_refl. simpl. repeat split.
  unfold Listings.get, select_listing_by_id. run.
  rewrite join_without; [reflexivity|]. simpl. apply filter_filter_out.
Qed.

(** Update and delete for an id the server has read. They look the
    listing up on every call: an unknown id is answered 404, a caller other
    than the stored [user_id] is answered 403 and the table is left as it
    was; for the owner the update overwrites the nine supplied columns of
    the row (a column left out of the body becomes NULL) and sets
    [updated_at] to the current time, keeping id, owner and creation time,
    and the delete removes the row so that reading the id afterwards is
    answered 404. An update does not change who owns the row, so a later
    call by somebody else is refused again. *)
Lemma mutation_for_read_id (id userId now : Z) (f : listing_fields) (w : world) :
  let updated := Listings.update id userId now f w in
  let deleted := Listings.delete id userId w in
  (owner_of id w = None ->
     fst updated = Done not_found /\ listings (snd updated) = listings w
     /\ fst deleted = Done not_found /\ listings (snd deleted) = listings w)
  /\ (forall owner, owner_of id w = Some owner -> owner <> userId ->
        fst updated = Done forbidden /\ listings (snd updated) = listings w
        /\ fst deleted = Done forbidden /\ listings (snd deleted) = listings w)
  /\ (owner_of id w = Some userId ->
        (exists row,
            head (List.filter (fun l => l_id l =? id) (listings w)) = Some row
            /\ fst updated
               = Done {| status := 200;
                         body := JObj [("message", JStr "Listing updated successfully");
                                       ("listing", Listings.listing_doc (set_columns f now row))] |}
            /\ In (set_columns f now row) (listings (snd updated)))
        /\ (forall l, In l (listings (snd updated)) -> l_id l = id ->
              fields_of l = f /\ l_updated_at l = now)
        /\ (forall l, In l (listings (snd updated)) -> l_id l <> id -> In l (listings w))
        /\ (forall l, In l (listings w) ->
              exists l', In l' (listings (snd updated))
                         /\ l_id l' = l_id l /\ l_user_id l' = l_user_id l
                         /\ l_created_at l' = l_created_at l)
        /\ (forall other now' f', other <> userId ->
              fst (Listings.update id other now' f' (snd updated)) = Done forbidden
              /\ fst (Listings.delete id other (snd updated)) = Done forbidden)
        /\ fst deleted
           = Done {| status := 200;
                     body := JObj [("message", JStr "Listing deleted successfully")] |}
        /\ (forall l, In l (listings (snd deleted)) <-> In l (listings w) /\ l_id l <> id)
        /\ fst (Listings.get id (snd deleted)) = Done not_found).
Proof.
  intros updated deleted. subst updated deleted. split; [|split].
  - intros Habsent.
    destruct (update_absent id userId now f w Habsent) as [-> ->].
    destruct (delete_absent id userId w Habsent) as [-> ->]. auto.
  - intros owner Howner Hne.
    destruct (update_forbidden id userId now f w owner Howner Hne) as [-> ->].
    destruct (delete_forbidden id userId w owner Howner Hne) as [-> ->]. auto.
  - intros Howner.
    destruct (update_owner id userId now f w Howner) as (Hrow & Hrows & Hkeeps).
    destruct (delete_owner id userId w Howner) as (Hdel & Hleft & Hget).
    cbv zeta in Hrow, Hrows, Hkeeps, Hdel, Hleft, Hget.
    split; [exact Hrow|]. split; [|split; [|split; [|split; [|split; [|split]]]]].
    + intros l Hin Hid. rewrite Hrows in Hin. apply in_map_iff in Hin.
      destruct Hin as (l0 & <- & _). rewrite rewrite_row_id in Hid.
      unfold rewrite_row. apply Z.eqb_eq in Hid. rewrite Hid.
      destruct f; split; reflexivity.
    + intros l Hin Hid. rewrite Hrows in Hin. apply in_map_iff in Hin.
      destruct Hin as (l0 & <- & Hin0). rewrite rewrite_row_id in Hid.
      unfold rewrite_row. apply Z.eqb_neq in Hid. rewrite Hid. exact Hin0.
    + intros l Hin. exists (rewrite_row id f now l). rewrite Hrows. split.
      * apply in_map. exact Hin.
      * rewrite rewrite_row_id, rewrite_row_owner. repeat split.
        unfold rewrite_row. destruct (l_id l =? id); reflexivity.
    + intros other now' f' Hother. split.
      * apply (update_forbidden id other now' f' _ userId Hkeeps). congruence.
      * apply (delete_forbidden id other _ userId Hkeeps). congruence.
    + exact Hdel.
    + intros l. rewrite Hleft, filter_In, negb_true_iff, Z.eqb_neq. tauto.
    + exact Hget.
Qed.

(** *** The id as the route carries it *)

Section ReadId.
Context `{IdColumn}.

Lemma get_request_read id n w :
  id_in id = inr n -> Listings.get_request id w = Listings.get n w.
Proof.
  intros Hid. unfold Listings.get_request, Listings.get, by_id. rewrite Hid. reflexivity.
Qed.

Lemma update_request_read id n userId now f w :
  id_in id = inr n ->
  Listings.update_request id userId now f w = Listings.update n userId now f w.
Proof.
  intros Hid. unfold Listings.update_request, Listings.update, by_id.
  rewrite Hid. reflexivity.
Qed.

Lemma delete_request_read id n userId w :
  id_in id = inr n ->
  Listings.delete_request id userId w = Listings.delete n userId w.
Proof.
  intros Hid. unfold Listings.delete_request, Listings.delete, by_id.
  rewrite Hid. reflexivity.
Qed.

(** An id the server cannot read makes the first query fail: the wrapper
    prints the error and the statement, the [catch] block prints the error
    again and answers 500; the tables are as before. *)
Lemma update_request_unread id e userId now f w :
  id_in id = inl e ->
  Listings.update_request id userId now f w
  = (Done {| status := 500; body := error_doc "Failed to update listing" |},
     emit (Console [LText "Update listing error:"; LError e])
       (emit (Console [LText "Query text:";
                       LText "SELECT user_id FROM listings WHERE id = $1"])
          (emit (Console [LText "Query error:"; LText (e_message e)]) w))).
Proof.
  intros Hid. unfold Listings.update_request, by_id. run. rewrite Hid. reflexivity.
Qed.

Lemma delete_request_unread id e userId w :
  id_in id = inl e ->
  Listings.delete_request id userId w
  = (Done {| status := 500; body := error_doc "Failed to delete listing" |},
     emit (Console [LText "Delete listing error:"; LError e])
       (emit (Console [LText "Query text:";
                       LText "SELECT user_id FROM listings WHERE id = $1"])
          (emit (Console [LText "Query error:"; LText (e_message e)]) w))).
Proof.
  intros Hid. unfold Listings.delete_request, by_id. run. rewrite Hid. reflexivity.
Qed.

Lemma get_request_unread id e w :
  id_in id = inl e ->
  Listings.get_request id w
  = (Done {| status := 500; body := error_doc "Failed to fetch listing" |},
     emit (Console [LText "Get listing error:"; LError e])
       (emit (Console [LText "Query text:"; LText Listings.get_sql])
          (emit (Console [LText "Query error:"; LText (e_message e)]) w))).
Proof.
  intros Hid. unfold Listings.get_request, by_id. run. rewrite Hid. reflexivity.
Qed.

End ReadId.

(** C1, at the id [abc]. No listing has it, yet update and delete are
    answered 500, not 404: the text goes to the database as it is, the
    ownership query fails on it, and the [catch] block answers. *)
Lemma unreadable_id_is_not_answered_404 :
  (forall l, In l (listings Fixture.market) -> Js.toString (l_id l) <> "abc")
  /\ fst (Listings.update_request (H := Fixture.integer) "abc" 1 500 Fixture.advert
            Fixture.market)
     = Done {| status := 500; body := error_doc "Failed to update listing" |}
  /\ fst (Listings.delete_request (H := Fixture.integer) "abc" 1 Fixture.market)
     = Done {| status := 500; body := error_doc "Failed to delete listing" |}
  /\ fst (Listings.update_request (H := Fixture.integer) "abc" 1 500 Fixture.advert
            Fixture.market)
     <> Done not_found
  /\ fst (Listings.delete_request (H := Fixture.integer) "abc" 1 Fixture.market)
     <> Done not_found.
Proof.
  split.
  - intros l [<-|[<-|[]]]; vm_compute; discriminate.
  - rewrite (update_request_unread (H := Fixture.integer) "abc"
               (Fixture.invalid_text "abc") 1 500 Fixture.advert Fixture.market eq_refl).
    rewrite (delete_request_unread (H := Fixture.integer) "abc"
               (Fixture.invalid_text "abc") 1 Fixture.market eq_refl).
    repeat split; discriminate.
Qed.

(** C1, amended. Update and delete hand the id of the route to the
    database on every call. For an id the database cannot read as a value
    of the id column, both are answered 500 and the table is left as it
    was. For an id it reads as [n]: when no listing has the id [n] the
    answer is 404; when the stored [user_id] is not the caller the answer
    is 403 and the table is left as it was; for the owner the update
    overwrites the nine supplied columns of the row (a column left out of
    the body becomes NULL) and sets [updated_at] to the current time,
    keeping id, owner and creation time, and the delete removes the row so
    that reading the id afterwards is answered 404. An update does not
    change who owns the row, so a later call by somebody else is refused
    again. *)
Theorem listing_mutation_checks_owner `{IdColumn}
  (id : string) (userId now : Z) (f : listing_fields) (w : world) :
  let updated := Listings.update_request id userId now f w in
  let deleted := Listings.delete_request id userId w in
  match id_in id with
  | inl _ =>
      fst updated = Done {| status := 500; body := error_doc "Failed to update listing" |}
      /\ listings (snd updated) = listings w
      /\ fst deleted
         = Done {| status := 500; body := error_doc "Failed to delete listing" |}
      /\ listings (snd deleted) = listings w
  | inr n =>
      (owner_of n w = None ->
         fst updated = Done not_found /\ listings (snd updated) = listings w
         /\ fst deleted = Done not_found /\ listings (snd deleted) = listings w)
      /\ (forall owner, owner_of n w = Some owner -> owner <> userId ->
            fst updated = Done forbidden /\ listings (snd updated) = listings w
            /\ fst deleted = Done forbidden /\ listings (snd deleted) = listings w)
      /\ (owner_of n w = Some userId ->
            (exists row,
                head (List.filter (fun l => l_id l =? n) (listings w)) = Some row
                /\ fst updated
                   = Done {| status := 200;
                             body := JObj [("message", JStr "Listing updated successfully");
                                           ("listing",
                                            Listings.listing_doc (set_columns f now row))] |}
                /\ In (set_columns f now row) (listings (snd updated)))
            /\ (forall l, In l (listings (snd updated)) -> l_id l = n ->
                  fields_of l = f /\ l_updated_at l = now)
            /\ (forall l, In l (listings (snd updated)) -> l_id l <> n -> In l (listings w))
            /\ (forall l, In l (listings w) ->
                  exists l', In l' (listings (snd updated))
                             /\ l_id l' = l_id l /\ l_user_id l' = l_user_id l
                             /\ l_created_at l' = l_created_at l)
            /\ (forall other now' f', other <> userId ->
                  fst (Listings.update_request id other now' f' (snd updated))
                  = Done forbidden
                  /\ fst (Listings.delete_request id other (snd updated)) = Done forbidden)
            /\ fst deleted
               = Done {| status := 200;
                         body := JObj [("message", JStr "Listing deleted successfully")] |}
            /\ (forall l, In l (listings (snd deleted)) <-> In l (listings w) /\ l_id l <> n)
            /\ fst (Listings.get_request id (snd deleted)) = Done not_found)
  end.
Proof.
  cbv zeta. destruct (id_in id) as [e|n] eqn:Hid.
  - rewrite (update_request_unread id e userId now f w Hid).
    rewrite (delete_request_unread id e userId w Hid).
    repeat split.
  - rewrite (update_request_read id n userId now f w Hid).
    rewrite (delete_request_read id n userId w Hid).
    pose proof (mutation_for_read_id n userId now f w) as (Habsent & Hother & Howner).
    cbv zeta in Howner.
    split; [exact Habsent|]. split; [exact Hother|].
    intros Hmine.
    destruct (Howner Hmine) as (Hrow & Hset & Hrest & Hkept & Hagain & Hdel & Hleft & Hgone).
    split; [exact Hrow|]. split; [exact Hset|]. split; [exact Hrest|].
    split; [exact Hkept|]. split.
    + intros other now' f' Hne.
      rewrite (update_request_read id n other now' f' _ Hid).
      rewrite (delete_request_read id n other _ Hid).
      exact (Hagain other now' f' Hne).
    + split; [exact Hdel|]. split; [exact Hleft|].
      rewrite (get_request_read id n _ Hid). exact Hgone.
Qed.

Lemma listing_mutation_checks_owner_witness :
  fst (Listings.update_request (H := Fixture.integer) "1" 2 500 Fixture.advert
         Fixture.market)
  = Done forbidden
  /\ fst (Listings.delete_request (H := Fixture.integer) " 1" 1 Fixture.market)
     = Done {| status := 200;
               body := JObj [("message", JStr "Listing deleted successfully")] |}
  /\ fst (Listings.get_request (H := Fixture.integer) " 1"
            (snd (Listings.delete_request (H := Fixture.integer) " 1" 1 Fixture.market)))
     = Done not_found
  /\ fst (Listings.delete_request (H := Fixture.integer) "2147483648" 1 Fixture.market)
     = Done {| status := 500; body := error_doc "Failed to delete listing" |}.
Proof.
  pose proof (listing_mutation_checks_owner (H := Fixture.integer) "1" 2 500
                Fixture.advert Fixture.market) as Hother.
  pose proof (listing_mutation_checks_owner (H := Fixture.integer) " 1" 1 500
                Fixture.advert Fixture.market) as Howner.
  pose proof (listing_mutation_checks_owner (H := Fixture.integer) "2147483648" 1 500
                Fixture.advert Fixture.market) as Hwide.
  cbv zeta in Hother, Howner, Hwide.
  change (id_in (IdColumn := Fixture.integer) "1") with (@inr error Z 1) in Hother.
  change (id_in (IdColumn := Fixture.integer) " 1") with (@inr error Z 1) in Howner.
  change (id_in (IdColumn := Fixture.integer) "2147483648")
    with (@inl error Z (Fixture.out_of_range "2147483648")) in Hwide.
  cbv iota in Hother, Howner, Hwide.
  destruct Hother as (_ & Hother & _).
  destruct Howner as (_ & _ & Howner).
  destruct Hwide as (_ & _ & Hwide & _).
  split; [apply (Hother 1); [reflexivity | lia]|].
  destruct (Howner eq_refl) as (_ & _ & _ & _ & _ & Hdeleted & _ & Hgone).
  repeat split; assumption.
Defined.

(** ** Listings: creation *)

(** A required field counts as absent when [!field] holds: it is missing
    from the body or it is the empty string. *)
Definition absent (v : option string) : Prop := v = None \/ v = Some "".

Lemma truthy_opt_absent v : truthy_opt v = false <-> absent v.
Proof.
  unfold absent. destruct v as [s|]; simpl.
  - rewrite negb_false_iff, String.eqb_eq. split.
    + intros ->. right. reflexivity.
    + intros [H|[= H]]; [discriminate | exact H].
  - split; auto.
Qed.

(** [images.length], with a missing array counted as no image. *)
Definition image_count (f : listing_fields) : nat := length (default [] (images f)).

Definition is_bad_request (o : outcome unit) : Prop :=
  exists msg, o = Done {| status := 400; body := error_doc msg |}.

(** What the validation of [POST /listings] refuses. *)
Definition create_refused (f : listing_fields) : Prop :=
  absent (title f) \/ absent (category f) \/ absent (location f)
  \/ absent (county f) \/ absent (contact f)
  \/ image_count f = 0%nat \/ (5 < image_count f)%nat.

Lemma image_count_ok_iff f :
  Listings.image_count_ok f = true <-> (1 <= image_count f <= 5)%nat.
Proof.
  unfold Listings.image_count_ok, image_count.
  destruct (images f) as [l|]; simpl; [|split; [discriminate | lia]].
  rewrite andb_true_iff, !negb_true_iff, Nat.eqb_neq, Nat.ltb_ge. lia.
Qed.

(** The row [POST /listings] stores. *)
Definition created_row (userId now : Z) (f : listing_fields) (w : world) : listing_row :=
  {| l_id := listings_id_seq w; l_user_id := userId;
     l_title := title f; l_description := description f;
     l_category := category f; l_custom_category := custom_category f;
     l_location := location f; l_county := county f; l_phone := contact f;
     l_amenities := Some (default [] (amenities f)); l_images := images f;
     l_created_at := now; l_updated_at := now |}.

(** C7. Creation is refused with 400 exactly when one of title, category,
    location, county and phone is absent or the number of images is 0 or
    above 5, and then nothing is stored; every other request is answered 201
    and appends one row whose id is the next value of the table's sequence,
    whose creation time is the current time, and whose amenities are the
    supplied ones, or the empty array when none were supplied. *)
Theorem create_validates_and_persists (userId now : Z) (f : listing_fields) (w : world) :
  let created := Listings.create userId now f w in
  (is_bad_request (fst created) <-> create_refused f)
  /\ (create_refused f -> listings (snd created) = listings w)
  /\ (~ create_refused f ->
        fst created
        = Done {| status := 201;
                  body := JObj [("message", JStr "Listing created successfully");
                                ("listing", Listings.listing_doc (created_row userId now f w))] |}
        /\ listings (snd created) = (listings w ++ [created_row userId now f w])%list
        /\ listings_id_seq (snd created) = listings_id_seq w + 1
        /\ (amenities f = None -> l_amenities (created_row userId now f w) = Some [])).
Proof.
  intros created. subst created.
  unfold create_refused, is_bad_request, Listings.create, insert_listing. run.
  rewrite <- !truthy_opt_absent.
  assert (Hcount : Listings.image_count_ok f = false
                   <-> image_count f = 0%nat \/ (5 < image_count f)%nat).
  { rewrite <- not_true_iff_false, image_count_ok_iff. lia. }
  destruct (truthy_opt (title f)), (truthy_opt (category f)),
    (truthy_opt (location f)), (truthy_opt (county f)), (truthy_opt (contact f));
    simpl; try (split; [split; [intros _; tauto | intros _; eexists; reflexivity]
                       | split; [reflexivity | tauto]]).
  destruct (Listings.image_count_ok f) eqn:Hok; simpl.
  - assert (Hfine : ~ (image_count f = 0%nat \/ (5 < image_count f)%nat)).
    { intros Hbad. apply Hcount in Hbad. discriminate. }
    split; [split|split].
    + intros [msg [=]].
    + intros Hbad. exfalso. intuition congruence.
    + intros Hbad. exfalso. intuition congruence.
    + intros _. unfold created_row. simpl. repeat split.
      intros ->. reflexivity.
  - assert (Hbad : image_count f = 0%nat \/ (5 < image_count f)%nat)
      by (apply Hcount; reflexivity).
    split; [split|split].
    + intros _. tauto.
    + intros _. eexists. reflexivity.
    + reflexivity.
    + tauto.
Qed.

Lemma create_validates_and_persists_witness :
  listings (snd (Listings.create 1 300 Fixture.advert Fixture.market))
  = [Fixture.flat; Fixture.plot; created_row 1 300 Fixture.advert Fixture.market]
  /\ l_id (created_row 1 300 Fixture.advert Fixture.market) = 3
  /\ l_amenities (created_row 1 300 Fixture.advert Fixture.market) = Some [].
Proof.
  destruct (create_validates_and_persists 1 300 Fixture.advert Fixture.market)
    as (_ & _ & Hok).
  destruct Hok as (_ & Hrows & _ & Hamenities).
  - unfold create_refused, absent, image_count. simpl.
    intuition (try discriminate; try lia).
  - split; [exact Hrows|]. split; [reflexivity|]. apply Hamenities. reflexivity.
Defined.

(** ** Strings: [includes] and [split] *)

Lemma strip_prefix_spec p s rest :
  Js.strip_prefix p s = Some rest <-> s = p ++ rest.
Proof.
  revert s. induction p as [|a p IH]; intros s; simpl.
  - split; [intros [= ->] | intros ->]; reflexivity.
  - destruct s as [|b s]; [split; discriminate|].
    destruct (Ascii.eqb_spec a b) as [->|Hne].
    + rewrite IH. split; [intros ->; reflexivity | intros [= ->]; reflexivity].
    + split; [discriminate | intros [= Hab _]; congruence].
Qed.

(** [find_sep] cuts the text at an occurrence of the separator. *)
Lemma find_sep_splits sep s before rest :
  Js.find_sep sep s = Some (before, rest) -> s = before ++ sep ++ rest.
Proof.
  revert before rest. induction s as [|c s IH]; intros before rest.
  - unfold Js.find_sep.
    destruct (Js.strip_prefix sep "") as [r|] eqn:Hp; [|discriminate].
    intros [= <- <-]. apply strip_prefix_spec in Hp. exact Hp.
  - unfold Js.find_sep; fold Js.find_sep.
    destruct (Js.strip_prefix sep (String c s)) as [r|] eqn:Hp.
    + intros [= <- <-]. apply strip_prefix_spec in Hp. exact Hp.
    + destruct (Js.find_sep sep s) as [[b r]|]; [|discriminate].
      intros [= <- <-]. change (String c s = String c (b ++ sep ++ r)).
      f_equal. apply IH. reflexivity.
Qed.



Lemma split_by_cases a sep s :
  Js.split_by a sep s
  = match Js.find_sep (String a sep) s with
    | Some (before, rest) => before :: Js.split_by a sep rest
    | None => [s]
    end.
Proof.
  funelim (Js.split_by a sep s);
    match goal with E : Js.find_sep _ _ = _ |- _ => rewrite E end; reflexivity.
Qed.

(** What [split(sep)[1]] is: the text after the first separator, cut at the
    next separator if there is one. *)
Definition second_piece (s sep : string) : option string :=
  match Js.find_sep sep s with
  | Some (_, rest) =>
      match Js.find_sep sep rest with
      | Some (piece, _) => Some piece
      | None => Some rest
      end
  | None => None
  end.

Lemma split_second a sep s :
  match second_piece s (String a sep) with
  | Some piece =>
      (2 <= length (Js.split s (String a sep)))%nat
      /\ nth 1 (Js.split s (String a sep)) "" = piece
  | None => length (Js.split s (String a sep)) = 1%nat
  end.
Proof.
  unfold second_piece, Js.split. rewrite split_by_cases.
  destruct (Js.find_sep (String a sep) s) as [[b r]|]; [|reflexivity].
  rewrite split_by_cases.
  destruct (Js.find_sep (String a sep) r) as [[b' r']|]; simpl; split; auto; lia.
Qed.

(** ** Upload: deleting an image *)

Definition marker : string := "/house-images/".

(** The whole of the URL after the (first) marker. *)
Definition suffix_after_marker (url : string) : option string :=
  option_map snd (Js.find_sep marker url).

Definition image_deleted : response :=
  {| status := 200; body := JObj [("message", JStr "Image deleted successfully")] |}.

Section DeleteImage.

Lemma includes_marker_truthy url :
  Js.includes url marker = true -> truthy (JsString url) = true.
Proof. destruct url; [discriminate | reflexivity]. Qed.

Lemma includes_second_piece url :
  Js.includes url marker = true <-> exists key, second_piece url marker = Some key.
Proof.
  unfold Js.includes, second_piece.
  destruct (Js.find_sep marker url) as [[b r]|].
  - destruct (Js.find_sep marker r) as [[b' r']|]; split; eauto.
  - split; [discriminate | intros [key [=]]].
Qed.

(** What the handler does with a URL that holds the marker. *)
Lemma deleteImage_removes caller url key w :
  second_piece url marker = Some key ->
  Upload.deleteImage caller (JsString url) w
  = (Done image_deleted,
     set_bucket (base.delete key (bucket w)) (emit (StorageRemove [key]) w)).
Proof.
  intros Hkey.
  assert (Hin : Js.includes url marker = true)
    by (apply includes_second_piece; eauto).
  unfold Upload.deleteImage.
  rewrite (includes_marker_truthy url Hin).
  unfold Upload.split_url, Upload.storage_remove. run.
  pose proof (split_second "/" "house-images/" url) as Hsplit.
  fold marker in Hsplit. rewrite Hkey in Hsplit. destruct Hsplit as [Hlen Hnth].
  fold marker. destruct (Nat.ltb_spec (length (Js.split url marker)) 2); [lia|].
  rewrite Hnth. reflexivity.
Qed.

(** ... and with one that does not, or with none. *)
Lemma deleteImage_refuses caller url w :
  Js.includes url marker = false ->
  is_bad_request (fst (Upload.deleteImage caller (JsString url) w))
  /\ snd (Upload.deleteImage caller (JsString url) w) = w.
Proof.
  intros Hout.
  unfold Upload.deleteImage, Upload.split_url, is_bad_request. run.
  destruct (negb (String.eqb url "")); simpl; [|split; eauto].
  pose proof (split_second "/" "house-images/" url) as Hsplit.
  fold marker in Hsplit.
  destruct (second_piece url marker) as [key|] eqn:Hkey.
  - assert (Js.includes url marker = true) by (apply includes_second_piece; eauto).
    congruence.
  - fold marker. rewrite Hsplit. simpl. split; eauto.
Qed.

Lemma deleteImage_requires_url caller w :
  is_bad_request (fst (Upload.deleteImage caller JsUndefined w))
  /\ snd (Upload.deleteImage caller JsUndefined w) = w.
Proof. unfold is_bad_request. split; [eexists|]; reflexivity. Qed.

(** The request is refused with 400 exactly when the URL is missing or does
    not hold the marker. *)
Lemma deleteImage_bad_request_iff caller url w :
  is_bad_request (fst (Upload.deleteImage caller (JsString url) w))
  <-> Js.includes url marker = false.
Proof.
  split.
  - intros [msg Hbad]. destruct (Js.includes url marker) eqn:Hin; [|reflexivity].
    apply includes_second_piece in Hin. destruct Hin as [key Hkey].
    rewrite (deleteImage_removes caller url key w Hkey) in Hbad. discriminate.
  - intros Hout. apply deleteImage_refuses. exact Hout.
Qed.

(** When the marker occurs once, the key is all that follows it. *)
Lemma deleteImage_key_single_marker caller url rest w :
  suffix_after_marker url = Some rest ->
  Js.includes rest marker = false ->
  trace (snd (Upload.deleteImage caller (JsString url) w))
  = (trace w ++ [StorageRemove [rest]])%list.
Proof.
  unfold suffix_after_marker, Js.includes. intros Hsuffix Honce.
  rewrite (deleteImage_removes caller url rest w); [reflexivity|].
  unfold second_piece.
  destruct (Js.find_sep marker url) as [[b r]|]; [|discriminate].
  injection Hsuffix as ->.
  destruct (Js.find_sep marker rest); [discriminate | reflexivity].
Qed.

End DeleteImage.

(** C3. The delete-image handler never looks at the caller: two callers
    sending the same body get the same answer and leave the same world
    behind. For any caller and any URL holding the marker the storage
    removal is issued for the key cut out of the URL, whatever user id that
    key names, and an object stored under that key is gone afterwards. *)
Theorem deleteImage_ignores_caller (caller other : Z) (url : string) (w : world) :
  Js.includes url marker = true ->
  let key := nth 1 (Js.split url marker) "" in
  let deleted := Upload.deleteImage caller (JsString url) w in
  (forall imageUrl, Upload.deleteImage caller imageUrl w = Upload.deleteImage other imageUrl w)
  /\ fst deleted = Done image_deleted
  /\ trace (snd deleted) = (trace w ++ [StorageRemove [key]])%list
  /\ bucket (snd deleted) !! key = None
  /\ (forall k, k <> key -> bucket (snd deleted) !! k = bucket w !! k).
Proof.
  intros Hin key deleted. subst deleted.
  destruct (proj1 (includes_second_piece url) Hin) as [piece Hpiece].
  pose proof (split_second "/" "house-images/" url) as Hsplit.
  fold marker in Hsplit. rewrite Hpiece in Hsplit. destruct Hsplit as [_ Hnth].
  fold key in Hnth. subst piece.
  rewrite (deleteImage_removes caller url key w Hpiece). simpl.
  split; [reflexivity|]. split; [reflexivity|]. split; [reflexivity|]. split.
  - apply lookup_delete_eq.
  - intros k Hk. apply lookup_delete_ne. congruence.
Qed.

Lemma deleteImage_ignores_caller_witness :
  fst (Upload.deleteImage 2
         (JsString (getPublicUrl (StorageClient := Fixture.storage) Fixture.photo_key))
         Fixture.shelf)
  = Done image_deleted
  /\ bucket (snd (Upload.deleteImage 2
                    (JsString (getPublicUrl (StorageClient := Fixture.storage)
                                 Fixture.photo_key))
                    Fixture.shelf))
     !! Fixture.photo_key = None.
Proof.
  pose proof (deleteImage_ignores_caller 2 1
                (getPublicUrl (StorageClient := Fixture.storage) Fixture.photo_key)
                Fixture.shelf eq_refl) as (_ & Hdone & _ & Hgone & _).
  split; [exact Hdone | exact Hgone].
Defined.

(** The text in front of the first occurrence holds no occurrence. *)
Lemma strip_prefix_append p s t rest :
  Js.strip_prefix p s = Some rest -> Js.strip_prefix p (s ++ t) = Some (rest ++ t).
Proof.
  intros Hp. apply strip_prefix_spec in Hp as ->. apply strip_prefix_spec.
  induction p as [|c p IH]; [reflexivity|].
  change (String c (p ++ rest) ++ t = String c (p ++ rest ++ t)).
  change (String c ((p ++ rest) ++ t) = String c (p ++ rest ++ t)).
  f_equal. exact IH.
Qed.

Lemma find_sep_first a sep s before rest :
  Js.find_sep (String a sep) s = Some (before, rest) ->
  Js.includes before (String a sep) = false.
Proof.
  unfold Js.includes. revert before rest.
  induction s as [|c s IH]; intros before rest.
  - simpl. discriminate.
  - unfold Js.find_sep at 1; fold Js.find_sep.
    destruct (Js.strip_prefix (String a sep) (String c s)) as [r|] eqn:Hp.
    + intros [= <- <-]. reflexivity.
    + destruct (Js.find_sep (String a sep) s) as [[b r]|] eqn:Hfound; [|discriminate].
      intros [= <- <-]. specialize (IH b r eq_refl).
      unfold Js.find_sep; fold Js.find_sep.
      destruct (Js.strip_prefix (String a sep) (String c b)) as [r'|] eqn:Hp'.
      * apply (strip_prefix_append _ _ (String a sep ++ r)) in Hp'.
        apply find_sep_splits in Hfound. subst s.
        change (String c b ++ String a sep ++ r)
          with (String c (b ++ String a sep ++ r)) in Hp'.
        congruence.
      * destruct (Js.find_sep (String a sep) b) as [[b' r']|]; [discriminate|].
        reflexivity.
Qed.

(** What the handler answers to every string: 400 exactly when the URL
    does not hold the marker; for a URL that holds it, the key handed to
    the storage removal is what follows the first marker up to the next
    marker, which is all that follows it only when the marker occurs
    once. *)
Lemma deleteImage_extracts_key (caller : Z) (url : string) (w : world) :
  is_bad_request (fst (Upload.deleteImage caller JsUndefined w))
  /\ (is_bad_request (fst (Upload.deleteImage caller (JsString url) w))
      <-> Js.includes url marker = false)
  /\ (forall rest, suffix_after_marker url = Some rest ->
        exists key,
          Upload.deleteImage caller (JsString url) w
          = (Done image_deleted,
             set_bucket (base.delete key (bucket w)) (emit (StorageRemove [key]) w))
          /\ Js.includes key marker = false
          /\ (Js.includes rest marker = false /\ key = rest
              \/ exists tail, rest = key ++ marker ++ tail)).
Proof.
  split; [apply deleteImage_requires_url|]. split; [apply deleteImage_bad_request_iff|].
  unfold suffix_after_marker. intros rest Hsuffix.
  destruct (Js.find_sep marker url) as [[before rest']|] eqn:Hfirst; [|discriminate].
  injection Hsuffix as ->.
  destruct (Js.find_sep marker rest) as [[key tail]|] eqn:Hnext.
  - exists key. split; [|split].
    + apply deleteImage_removes. unfold second_piece. rewrite Hfirst, Hnext. reflexivity.
    + apply (find_sep_first "/" "house-images/" rest key tail Hnext).
    + right. exists tail. apply find_sep_splits. exact Hnext.
  - exists rest. split; [|split].
    + apply deleteImage_removes. unfold second_piece. rewrite Hfirst, Hnext. reflexivity.
    + unfold Js.includes. rewrite Hnext. reflexivity.
    + left. split; [|reflexivity]. unfold Js.includes. rewrite Hnext. reflexivity.
Qed.

(** A URL sent as a number other than 0 has no [split]: the [catch] block
    answers 500, not 400, and nothing is removed. *)
Lemma deleteImage_number (caller n : Z) (w : world) :
  n <> 0 ->
  fst (Upload.deleteImage caller (JsNumber n) w)
  = Done {| status := 500; body := error_doc "Failed to delete image" |}
  /\ bucket (snd (Upload.deleteImage caller (JsNumber n) w)) = bucket w.
Proof.
  intros Hn. unfold Upload.deleteImage, Upload.split_url. run.
  apply Z.eqb_neq in Hn. rewrite Hn. simpl. split; reflexivity.
Qed.

(** C9, at a URL that holds the marker twice. All that follows the first
    marker is [listings/7/a/house-images/b.png], the path the comment
    [Extract file path from URL] is after; [split(...)[1]] stops at the
    second marker, so the storage removal is issued for [listings/7/a],
    and an object stored under the full path stays in the bucket. *)
Theorem deleteImage_second_marker_cuts_key (o : object) :
  let url := "https://cdn.test/public/house-images/listings/7/a/house-images/b.png" in
  let full := "listings/7/a/house-images/b.png" in
  let w := set_bucket (<[full := o]> (bucket Fixture.shelf)) Fixture.shelf in
  suffix_after_marker url = Some full
  /\ fst (Upload.deleteImage 7 (JsString url) w) = Done image_deleted
  /\ trace (snd (Upload.deleteImage 7 (JsString url) w)) = [StorageRemove ["listings/7/a"]]
  /\ "listings/7/a" <> full
  /\ bucket (snd (Upload.deleteImage 7 (JsString url) w)) !! full = Some o.
Proof.
  cbv zeta. split; [reflexivity|].
  rewrite (deleteImage_removes 7 _ "listings/7/a"); [|reflexivity].
  split; [reflexivity|]. split; [reflexivity|]. split; [discriminate|].
  simpl. rewrite lookup_delete_ne by discriminate. apply lookup_insert_eq.
Qed.

(** ** Upload: storing images *)

Definition is_image (f : file) : bool := Js.startsWith (mimetype f) "image/".

Definition acceptable (f : file) : Prop :=
  is_image f = true /\ size f <= Upload.fileSize.

Lemma array_accepts n parts :
  (length parts <= n)%nat -> Forall acceptable parts ->
  Upload.array n parts = inr parts.
Proof.
  revert n. induction parts as [|f parts IH]; intros n Hlen Hall; [reflexivity|].
  destruct n as [|n]; simpl in Hlen; [lia|].
  apply Forall_cons_iff in Hall as [[Himg Hsize] Hall]. simpl.
  unfold Upload.fileFilter. unfold is_image in Himg. rewrite Himg.
  destruct (Z.ltb_spec Upload.fileSize (size f)); [lia|].
  rewrite IH; [reflexivity | lia | exact Hall].
Qed.

(** What multer refuses, and why. *)
Lemma array_refuses n parts e :
  Upload.array n parts = inl e ->
  (e = Upload.MulterError "LIMIT_UNEXPECTED_FILE" "Unexpected field"
   /\ (n < length parts)%nat)
  \/ (e = Error "Only image files are allowed"
      /\ Exists (fun f => is_image f = false) parts)
  \/ (e = Upload.MulterError "LIMIT_FILE_SIZE" "File too large"
      /\ Exists (fun f => Upload.fileSize < size f) parts).
Proof.
  revert n. induction parts as [|f parts IH]; intros n; [discriminate|].
  destruct n as [|n]; simpl.
  - intros [= <-]. left. split; [reflexivity | lia].
  - unfold Upload.fileFilter. fold (is_image f).
    destruct (is_image f) eqn:Himg.
    + destruct (Z.ltb_spec Upload.fileSize (size f)) as [Hbig|Hfits].
      * intros [= <-]. right. right. split; [reflexivity|]. left. exact Hbig.
      * destruct (Upload.array n parts) as [e'|files] eqn:Hrest; [|discriminate].
        intros [= <-].
        destruct (IH n Hrest) as [[-> Hlen]|[[-> Hex]|[-> Hex]]].
        -- left. split; [reflexivity | lia].
        -- right. left. split; [reflexivity|]. right. exact Hex.
        -- right. right. split; [reflexivity|]. right. exact Hex.
    + intros [= <-]. right. left. split; [reflexivity|]. left. exact Himg.
Qed.

Lemma array_complete n parts :
  (n < length parts)%nat \/ Exists (fun f => ~ acceptable f) parts ->
  exists e, Upload.array n parts = inl e.
Proof.
  intros Hbad. destruct (Upload.array n parts) as [e|files] eqn:Harray; [eauto|].
  exfalso. revert n files Harray Hbad.
  induction parts as [|f parts IH]; intros n files Harray Hbad.
  - destruct Hbad as [Hlen|Hex]; [simpl in Hlen; lia | inversion Hex].
  - destruct n as [|n]; [discriminate|]. simpl in Harray.
    unfold Upload.fileFilter in Harray. fold (is_image f) in Harray.
    destruct (is_image f) eqn:Himg; [|discriminate].
    destruct (Z.ltb_spec Upload.fileSize (size f)) as [Hbig|Hfits]; [discriminate|].
    destruct (Upload.array n parts) as [e'|files'] eqn:Hrest; [discriminate|].
    apply (IH n files' Hrest).
    destruct Hbad as [Hlen|Hex]; [left; simpl in Hlen; lia|].
    apply Exists_cons in Hex as [Hf|Hex]; [|right; exact Hex].
    exfalso. apply Hf. split; assumption.
Qed.

Section Uploading.
Context `{StorageClient}.
Variables (userId : Z) (clock : nat -> Z) (random : nat -> string).

(** The keys of the files, from iteration [i] on. *)
Fixpoint keys_from (i : nat) (files : list file) : list string :=
  match files with
  | [] => []
  | f :: rest => Upload.filePath userId clock random i f :: keys_from (S i) rest
  end.

Definition stored (f : file) : object :=
  {| content := buffer f; contentType := mimetype f |}.

(** The world after one successful upload per file. *)
Fixpoint after_uploads (i : nat) (files : list file) (w : world) : world :=
  match files with
  | [] => w
  | f :: rest =>
      let path := Upload.filePath userId clock random i f in
      after_uploads (S i) rest
        (set_bucket (<[path := stored f]> (bucket w))
           (emit (StorageUpload path (mimetype f) false) w))
  end.

Lemma keys_from_lookup files i j f :
  files !! j = Some f ->
  keys_from i files !! j = Some (Upload.filePath userId clock random (i + j) f).
Proof.
  revert i j. induction files as [|g files IH]; intros i j; [discriminate|].
  destruct j as [|j]; simpl.
  - intros [= ->]. rewrite Nat.add_0_r. reflexivity.
  - intros Hj. rewrite (IH (S i) j Hj). do 2 f_equal. lia.
Qed.

Lemma keys_from_length files i : length (keys_from i files) = length files.
Proof. revert i. induction files as [|g files IH]; intros i; simpl; auto. Qed.

(** With keys that collide neither with the bucket nor with each other,
    the loop uploads every file and collects the URLs in order. *)
Lemma upload_each_fresh files i urls w :
  NoDup (keys_from i files) ->
  Forall (fun k => bucket w !! k = None) (keys_from i files) ->
  Upload.upload_each userId clock random i files urls w
  = (Next (urls ++ List.map getPublicUrl (keys_from i files))%list,
     after_uploads i files w).
Proof.
  revert i urls w. induction files as [|f files IH]; intros i urls w Hnodup Hfree.
  - simpl. rewrite app_nil_r. reflexivity.
  - simpl in Hnodup, Hfree. apply NoDup_cons in Hnodup as [Hfirst Hnodup].
    apply Forall_cons_iff in Hfree as [Hkey Hfree].
    simpl. unfold Upload.storage_upload. run. rewrite Hkey.
    rewrite IH.
    + simpl. rewrite <- app_assoc. reflexivity.
    + exact Hnodup.
    + simpl. apply Forall_forall. intros k Hk.
      rewrite lookup_insert_ne.
      * rewrite Forall_forall in Hfree. apply Hfree. exact Hk.
      * intros <-. contradiction.
Qed.

(** The loop itself never answers the request. *)
Lemma upload_each_no_response files i urls w r w' :
  Upload.upload_each userId clock random i files urls w <> (Done r, w').
Proof.
  revert i urls w. induction files as [|f files IH]; intros i urls w; [discriminate|].
  simpl. unfold Upload.storage_upload. run.
  destruct (bucket w !! Upload.filePath userId clock random i f); [discriminate|].
  apply IH.
Qed.

Lemma after_uploads_trace files i w :
  trace (after_uploads i files w)
  = (trace w
     ++ List.map (fun kf => StorageUpload (fst kf) (mimetype (snd kf)) false)
          (combine (keys_from i files) files))%list.
Proof.
  revert i w. induction files as [|f files IH]; intros i w; simpl.
  - rewrite app_nil_r. reflexivity.
  - rewrite IH. simpl. rewrite <- app_assoc. reflexivity.
Qed.

Lemma after_uploads_keeps files i w k :
  k ∉ keys_from i files ->
  bucket (after_uploads i files w) !! k = bucket w !! k.
Proof.
  revert i w. induction files as [|f files IH]; intros i w Hout; [reflexivity|].
  simpl in Hout. apply not_elem_of_cons in Hout as [Hne Hout].
  simpl. rewrite IH by exact Hout. simpl. apply lookup_insert_ne. congruence.
Qed.

Lemma after_uploads_stores files i w j f :
  NoDup (keys_from i files) ->
  files !! j = Some f ->
  bucket (after_uploads i files w)
    !! Upload.filePath userId clock random (i + j) f = Some (stored f).
Proof.
  revert i w j. induction files as [|g files IH]; intros i w j Hnodup; [discriminate|].
  simpl in Hnodup. apply NoDup_cons in Hnodup as [Hfirst Hnodup].
  destruct j as [|j]; simpl.
  - intros [= ->]. rewrite Nat.add_0_r.
    rewrite after_uploads_keeps by exact Hfirst. simpl. apply lookup_insert_eq.
  - intros Hj. replace (i + S j)%nat with (S i + j)%nat by lia.
    apply IH; assumption.
Qed.

End Uploading.

Lemma array_passes n parts files :
  Upload.array n parts = inr files ->
  files = parts /\ (length parts <= n)%nat /\ Forall acceptable parts.
Proof.
  revert n files. induction parts as [|f parts IH]; intros n files.
  - intros [= <-]. repeat split; [simpl; lia | constructor].
  - destruct n as [|n]; [discriminate|]. simpl.
    unfold Upload.fileFilter. fold (is_image f).
    destruct (is_image f) eqn:Himg; [|discriminate].
    destruct (Z.ltb_spec Upload.fileSize (size f)) as [Hbig|Hfits]; [discriminate|].
    destruct (Upload.array n parts) as [e'|files'] eqn:Hrest; [discriminate|].
    intros [= <-]. destruct (IH n files' Hrest) as (-> & Hlen & Hall).
    repeat split; [simpl; lia|]. constructor; [split; assumption | exact Hall].
Qed.

Definition images_uploaded (urls : list string) : response :=
  {| status := 200;
     body := JObj [("message", JStr "Images uploaded successfully");
                   ("urls", JArr (List.map JStr urls))] |}.

(** C8, at a text file. The file filter refuses it, multer hands the
    error to Express and the handler never runs: the route sends no
    response, of status 400 or any other, that would tell the client the
    file type is wrong. *)
Lemma upload_text_file_is_not_answered :
  Upload.upload (H := Fixture.storage) 1 (fun i => 1700000000000 + Z.of_nat i)
    (fun _ => "k3x9q") [Fixture.notes] Fixture.market
  = (Thrown (Error "Only image files are allowed"), Fixture.market)
  /\ forall r,
       fst (Upload.upload (H := Fixture.storage) 1 (fun i => 1700000000000 + Z.of_nat i)
              (fun _ => "k3x9q") [Fixture.notes] Fixture.market)
       <> Done r.
Proof. split; [reflexivity | discriminate]. Qed.

Definition no_files : response :=
  {| status := 400; body := error_doc "No files uploaded" |}.

(** C8, amended. A request with no file is answered 400. A request of at
    most five files with one whose content type does not start with
    [image/], or one above 5 MiB, is refused by multer before the handler
    runs: the error of the file filter, or multer's [LIMIT_FILE_SIZE], is
    handed on, no response is sent by the route and nothing is stored;
    each of the two errors is only raised for its own reason. Any other
    request of one to five files, as long as its keys are free, is
    answered with one public URL per file in the order of the files; the
    [j]th file is stored under
    [listings/<userId>/<time>-<token>-<originalname>] by an upload call
    with [upsert] off. *)
Theorem upload_validates_and_stores `{StorageClient}
  (userId : Z) (clock : nat -> Z) (random : nat -> string)
  (parts : list file) (w : world) :
  let uploaded := Upload.upload userId clock random parts w in
  let keys := keys_from userId clock random 0 parts in
  let type_bad := Exists (fun f => is_image f = false) parts in
  let size_bad := Exists (fun f => Upload.fileSize < size f) parts in
  let type_error := Error "Only image files are allowed" in
  let size_error := Upload.MulterError "LIMIT_FILE_SIZE" "File too large" in
  (parts = [] -> uploaded = (Done no_files, w))
  /\ ((length parts <= 5)%nat -> type_bad \/ size_bad ->
        uploaded = (Thrown type_error, w) \/ uploaded = (Thrown size_error, w))
  /\ (fst uploaded = Thrown type_error -> type_bad)
  /\ (fst uploaded = Thrown size_error -> size_bad)
  /\ (parts <> [] -> (length parts <= 5)%nat -> ~ type_bad -> ~ size_bad ->
      NoDup keys -> Forall (fun k => bucket w !! k = None) keys ->
        fst uploaded = Done (images_uploaded (List.map getPublicUrl keys))
        /\ length keys = length parts
        /\ (forall j f, parts !! j = Some f ->
              keys !! j
              = Some ("listings/" ++ Js.toString userId ++ "/"
                      ++ Js.toString (clock j) ++ "-" ++ random j ++ "-"
                      ++ originalname f)
              /\ bucket (snd uploaded)
                   !! Upload.filePath userId clock random j f
                 = Some (stored f))
        /\ trace (snd uploaded)
           = (trace w
              ++ List.map (fun kf => StorageUpload (fst kf) (mimetype (snd kf)) false)
                   (combine keys parts))%list).
Proof.
  intros uploaded keys type_bad size_bad type_error size_error.
  subst uploaded keys type_bad size_bad type_error size_error.
  unfold Upload.upload, Upload.middleware.
  destruct (Upload.array 5 parts) as [e|files] eqn:Harray.
  - (* multer refuses *)
    run.
    destruct (array_refuses 5 parts e Harray) as [[-> Hlen]|[[-> Hex]|[-> Hex]]];
      (split; [intros ->; discriminate|]);
      (split; [intros Hfew Hbad; try lia; auto|]);
      (split; [try discriminate; auto|]);
      (split; [try discriminate; auto|]);
      intros _ Hfew Htype Hsize; exfalso; try lia; auto.
  - (* multer lets the files through *)
    destruct (array_passes 5 parts files Harray) as (-> & Hlen & Hall).
    assert (Htype : ~ Exists (fun f => is_image f = false) parts).
    { rewrite Exists_exists. intros (f & Hin & Hf).
      rewrite Forall_forall in Hall. destruct (Hall f Hin). congruence. }
    assert (Hsize : ~ Exists (fun f => Upload.fileSize < size f) parts).
    { rewrite Exists_exists. intros (f & Hin & Hf).
      rewrite Forall_forall in Hall. destruct (Hall f Hin). lia. }
    destruct parts as [|f parts].
    + run. split; [reflexivity|].
      split; [intros _ [Hbad|Hbad]; contradiction|].
      split; [discriminate|]. split; [discriminate|].
      intros Hsome. contradiction.
    + split; [discriminate|].
      split; [intros _ [Hbad|Hbad]; contradiction|].
      assert (Hgo : forall urls, NoDup (keys_from userId clock random 0 (f :: parts)) ->
                Forall (fun k => bucket w !! k = None)
                  (keys_from userId clock random 0 (f :: parts)) ->
                Upload.upload_each userId clock random 0 (f :: parts) urls w
                = (Next (urls ++ List.map getPublicUrl
                                   (keys_from userId clock random 0 (f :: parts)))%list,
                   after_uploads userId clock random 0 (f :: parts) w))
        by (intros; apply upload_each_fresh; assumption).
      remember (f :: parts) as files eqn:Hfiles.
      assert (Hsome : (length files =? 0)%nat = false)
        by (subst files; reflexivity).
      assert (Hfew : (5 <? length files)%nat = false)
        by (apply Nat.ltb_ge; exact Hlen).
      run. rewrite Hsome, Hfew.
      split; [|split].
      * destruct (Upload.upload_each userId clock random 0 files [] w)
          as [[urls|r|e] w'] eqn:Hloop; simpl; discriminate.
      * destruct (Upload.upload_each userId clock random 0 files [] w)
          as [[urls|r|e] w'] eqn:Hloop; simpl; discriminate.
      * intros _ _ _ _ Hnodup Hfree. rewrite (Hgo [] Hnodup Hfree). simpl.
        split; [reflexivity|]. split; [apply keys_from_length|]. split.
        -- intros j g Hj. split.
           ++ rewrite (keys_from_lookup userId clock random files 0 j g Hj).
              reflexivity.
           ++ apply (after_uploads_stores userId clock random files 0 w j g Hnodup Hj).
        -- apply after_uploads_trace.
Qed.

Lemma upload_validates_and_stores_witness :
  fst (Upload.upload (H := Fixture.storage) 1 (fun i => 1700000000000 + Z.of_nat i)
         (fun _ => "k3x9q") [Fixture.photo; Fixture.photo] Fixture.market)
  = Done (images_uploaded
            ["https://cdn.test/storage/v1/object/public/house-images/listings/1/1700000000000-k3x9q-house.png";
             "https://cdn.test/storage/v1/object/public/house-images/listings/1/1700000000001-k3x9q-house.png"]).
Proof.
  destruct (upload_validates_and_stores (H := Fixture.storage) 1
              (fun i => 1700000000000 + Z.of_nat i) (fun _ => "k3x9q")
              [Fixture.photo; Fixture.photo] Fixture.market)
    as (_ & _ & _ & _ & Hstored).
  destruct Hstored as (Hdone & _).
  - discriminate.
  - simpl. lia.
  - rewrite List.Exists_exists. intros (f & Hin & Hf).
    repeat (destruct Hin as [<-|Hin]; [discriminate|]). inversion Hin.
  - rewrite List.Exists_exists. intros (f & Hin & Hf).
    repeat (destruct Hin as [<-|Hin]; [vm_compute in Hf; discriminate|]). inversion Hin.
  - compute_done.
  - repeat constructor.
  - exact Hdone.
Defined.

(** Without [upsert] an object that is already there is kept: the request
    fails with 500 and the bucket is as before. *)
Lemma upload_never_overwrites `{StorageClient} userId clock random f w o :
  acceptable f ->
  bucket w !! Upload.filePath userId clock random 0 f = Some o ->
  fst (Upload.upload userId clock random [f] w)
  = Done {| status := 500; body := error_doc "Failed to upload images" |}
  /\ bucket (snd (Upload.upload userId clock random [f] w)) = bucket w.
Proof.
  intros Hok Htaken. unfold Upload.upload.
  rewrite (array_accepts 5 [f]); [|simpl; lia | constructor; [exact Hok | constructor]].
  unfold Upload.middleware, Upload.upload_each, Upload.storage_upload. run.
  rewrite Htaken. simpl. split; reflexivity.
Qed.

(** ** Auth: login *)

(** [email.toLowerCase().trim()] *)
Definition clean_email `{Casing} (mail : string) : string :=
  Js.trim (toLowerCase mail).

(** The account a login with this email is checked against: [rows[0]] of
    the lookup. *)
Definition account `{Casing} (w : world) (mail : string) : option user_row :=
  head (List.filter (fun u => String.eqb (u_email u) (clean_email mail)) (users w)).

(** Lower-casing of a text that is written out goes by [toLowerCase_ascii]. *)
Ltac lowercase :=
  repeat match goal with
    | |- context [toLowerCase ?s] => rewrite (toLowerCase_ascii s) by reflexivity
    end.

Definition unauthorized : response :=
  {| status := 401; body := error_doc "Invalid email or password" |}.

Lemma truthy_string s : s <> "" -> truthy (JsString s) = true.
Proof.
  intros Hs. simpl. apply negb_true_iff. apply String.eqb_neq. exact Hs.
Qed.

Section Login.
Context `{Crypto} `{Casing}.
Variable env : environment.

Lemma login_unknown_email req mail pw w :
  email req = JsString mail -> password req = JsString pw ->
  mail <> "" -> pw <> "" ->
  account w mail = None ->
  fst (Auth.login env req w) = Done unauthorized
  /\ fst (AuthRevised.login env req w) = Done unauthorized.
Proof.
  intros Hmail Hpw Hm Hp. unfold account, Auth.login, AuthRevised.login.
  rewrite Hmail, Hpw, !truthy_string by assumption.
  unfold method, select_users_by_email. run. fold (clean_email mail).
  destruct (List.filter _ (users w)) as [|u us]; [|discriminate].
  intros _. split; reflexivity.
Qed.

Lemma login_wrong_password req mail pw w u :
  email req = JsString mail -> password req = JsString pw ->
  mail <> "" -> pw <> "" ->
  account w mail = Some u -> bcrypt_compare pw (u_password u) = false ->
  fst (Auth.login env req w) = Done unauthorized
  /\ fst (AuthRevised.login env req w) = Done unauthorized.
Proof.
  intros Hmail Hpw Hm Hp. unfold account, Auth.login, AuthRevised.login.
  rewrite Hmail, Hpw, !truthy_string by assumption.
  unfold method, select_users_by_email, compare. run. fold (clean_email mail).
  destruct (List.filter _ (users w)) as [|u' us]; [discriminate|].
  simpl. intros [= ->] Hwrong. rewrite Hwrong. split; reflexivity.
Qed.

End Login.

(** C4. For bodies with a non-empty email and password, a login naming an
    email nobody registered and a login naming a registered email with a
    password that does not verify get the same response from either
    revision of the route: status 401 with the one message
    [Invalid email or password]. *)
Theorem login_failures_indistinguishable `{Crypto} `{Casing} (env : environment) (w : world)
  (stranger member : credentials) (mail1 pw1 mail2 pw2 : string) (u : user_row) :
  email stranger = JsString mail1 -> password stranger = JsString pw1 ->
  email member = JsString mail2 -> password member = JsString pw2 ->
  mail1 <> "" -> pw1 <> "" -> mail2 <> "" -> pw2 <> "" ->
  account w mail1 = None ->
  account w mail2 = Some u -> bcrypt_compare pw2 (u_password u) = false ->
  fst (Auth.login env stranger w) = Done unauthorized
  /\ fst (Auth.login env member w) = Done unauthorized
  /\ fst (AuthRevised.login env stranger w) = Done unauthorized
  /\ fst (AuthRevised.login env member w) = Done unauthorized.
Proof.
  intros He1 Hp1 He2 Hp2 Hm1 Hq1 Hm2 Hq2 Hnone Hsome Hwrong.
  destruct (login_unknown_email env stranger mail1 pw1 w He1 Hp1 Hm1 Hq1 Hnone).
  destruct (login_wrong_password env member mail2 pw2 w u He2 Hp2 Hm2 Hq2 Hsome Hwrong).
  auto.
Qed.

Lemma login_failures_indistinguishable_witness :
  fst (Auth.login (H := Fixture.crypto) (H0 := Fixture.casing) {| JWT_SECRET := Some "0123456789abcdefghijklmn" |}
         {| name := JsUndefined; email := JsString "carol@example.com";
            phone := JsUndefined; password := JsString "whatever" |}
         Fixture.market)
  = Done unauthorized
  /\ fst (Auth.login (H := Fixture.crypto) (H0 := Fixture.casing) {| JWT_SECRET := Some "0123456789abcdefghijklmn" |}
            {| name := JsUndefined; email := JsString " Alice@Example.com";
               phone := JsUndefined; password := JsString "whatever" |}
            Fixture.market)
     = Done unauthorized.
Proof.
  destruct (login_failures_indistinguishable (H := Fixture.crypto) (H0 := Fixture.casing)
              {| JWT_SECRET := Some "0123456789abcdefghijklmn" |} Fixture.market
              {| name := JsUndefined; email := JsString "carol@example.com";
                 phone := JsUndefined; password := JsString "whatever" |}
              {| name := JsUndefined; email := JsString " Alice@Example.com";
                 phone := JsUndefined; password := JsString "whatever" |}
              "carol@example.com" "whatever" " Alice@Example.com" "whatever"
              Fixture.alice)
    as (Hstranger & Hmember & _); try reflexivity; try discriminate.
  split; assumption.
Defined.

(** ** Auth: the signing secret *)

Definition is_signature (ev : event) : bool :=
  match ev with JwtSign _ _ _ _ => true | _ => false end.

(** The tokens signed so far. *)
Definition signatures (w : world) : list event := List.filter is_signature (trace w).

(** Splits on whatever the handler under scrutiny branches on. *)
Ltac branch :=
  repeat match goal with
    | |- context [match ?x with _ => _ end] =>
        lazymatch x with
        | context [match _ with _ => _ end] => fail
        | _ => destruct x eqn:?
        end; simpl in *; try discriminate
    end.

Ltac count_signatures :=
  unfold signatures, emit, set_users; simpl;
  rewrite ?List.filter_app; simpl; rewrite ?app_nil_r; try reflexivity.

Section Secret.
Context `{Crypto} `{Casing}.
Variable env : environment.

Lemma signatures_emit ev w :
  signatures (emit ev w)
  = (signatures w ++ (if is_signature ev then [ev] else []))%list.
Proof.
  unfold signatures. simpl. rewrite List.filter_app. simpl.
  destruct (is_signature ev); reflexivity.
Qed.

Lemma signatures_set_users us seq w : signatures (set_users us seq w) = signatures w.
Proof. reflexivity. Qed.

(** A missing or empty secret: none of the four handlers signs. *)
Lemma login_without_secret req w :
  truthy_opt (JWT_SECRET env) = false ->
  signatures (snd (Auth.login env req w)) = signatures w
  /\ signatures (snd (AuthRevised.login env req w)) = signatures w.
Proof.
  intros Hsecret. unfold Auth.login, AuthRevised.login.
  rewrite Hsecret. unfold method, compare, select_users_by_email, sign. run.
  split; branch; count_signatures.
Qed.

Lemma register_without_secret entropy now req w :
  truthy_opt (JWT_SECRET env) = false ->
  signatures (snd (Auth.register env entropy now req w)) = signatures w
  /\ signatures (snd (AuthRevised.register env entropy now req w)) = signatures w.
Proof.
  intros Hsecret.
  unfold Auth.register, AuthRevised.register, AuthRevised.secret_missing_or_short.
  rewrite Hsecret.
  unfold method, length_lt, hash, select_users_by_email, insert_user, sign. run.
  split; branch; count_signatures.
Qed.

(** The revised register route also refuses a secret under 20 characters. *)
Lemma revised_register_with_weak_secret entropy now req w :
  AuthRevised.secret_missing_or_short env = true ->
  signatures (snd (AuthRevised.register env entropy now req w)) = signatures w
  /\ (forall r, fst (AuthRevised.register env entropy now req w) = Done r ->
        status r = 400 \/ status r = 500).
Proof.
  intros Hsecret. unfold AuthRevised.register. rewrite Hsecret.
  unfold method, length_lt, hash, select_users_by_email, insert_user, sign. run.
  split.
  - branch; count_signatures.
  - intros r. branch; intros [= <-]; simpl; auto.
Qed.

End Secret.

Definition ann : credentials :=
  {| name := JsString "Ann"; email := JsString "ann@example.com";
     phone := JsString "0700"; password := JsString "secret1" |}.

Definition ann_doc : json :=
  JObj [("id", JNum 1); ("name", JStr "Ann");
        ("email", JStr "ann@example.com"); ("phone", JStr "0700")].

(** C2, with [JWT_SECRET=short] (five characters). The revised register
    route stores the account and answers 500 without signing; the login
    routes and the register route of [routes/auth.js] only test that the
    secret is there, and sign with it. *)
Theorem short_secret_still_signs `{Crypto} `{Casing} (entropy : string) (now : Z) :
  let env := {| JWT_SECRET := Some "short" |} in
  let registered := AuthRevised.register env entropy now ann Fixture.empty in
  fst registered
  = Done {| status := 500; body := error_doc "Server configuration error. Contact admin." |}
  /\ signatures (snd registered) = []
  /\ fst (AuthRevised.login env ann (snd registered))
     = Done {| status := 200;
               body := JObj [("message", JStr "Login successful");
                             ("token", JStr (jwt_sign 1 "ann@example.com" "short" "30d"));
                             ("user", ann_doc)] |}
  /\ signatures (snd (AuthRevised.login env ann (snd registered)))
     = [JwtSign 1 "ann@example.com" "short" "30d"]
  /\ fst (Auth.login env ann (snd registered))
     = Done {| status := 200;
               body := JObj [("message", JStr "Login successful");
                             ("user", ann_doc);
                             ("token", JStr (jwt_sign 1 "ann@example.com" "short" "7d"))] |}
  /\ fst (Auth.register env entropy now ann Fixture.empty)
     = Done {| status := 201;
               body := JObj [("message", JStr "User registered successfully");
                             ("user", ann_doc);
                             ("token", JStr (jwt_sign 1 "ann@example.com" "short" "7d"))] |}
  /\ signatures (snd (Auth.register env entropy now ann Fixture.empty))
     = [JwtSign 1 "ann@example.com" "short" "7d"].
Proof.
  cbv zeta. unfold AuthRevised.register, AuthRevised.login, Auth.register, Auth.login.
  unfold method, length_lt, hash, compare, select_users_by_email, insert_user, sign.
  run. lowercase. simpl. rewrite !bcrypt_compare_hash. simpl. repeat split.
Qed.

(** ** Auth: registration *)

(** C5. The revised register route starts by printing the request body,
    password included, on the console, whatever the request is. *)
Theorem revised_register_logs_request_body `{Crypto} `{Casing}
  (env : environment) (entropy : string) (now : Z) (req : credentials) (w : world) :
  exists later,
    trace (snd (AuthRevised.register env entropy now req w))
    = (trace w ++ Console [LText "Registration attempt:"; LBody req] :: later)%list.
Proof.
  unfold AuthRevised.register.
  unfold method, length_lt, hash, select_users_by_email, insert_user, sign. run.
  branch; unfold emit, set_users; simpl; rewrite <- ?app_assoc; simpl;
    eexists; reflexivity.
Qed.

Example revised_register_logs_ann_password :
  trace (snd (AuthRevised.register (H := Fixture.crypto) (H0 := Fixture.casing)
                {| JWT_SECRET := Some "0123456789abcdefghijklmn" |} "salt" 100 ann
                Fixture.empty))
  !! 0%nat
  = Some (Console [LText "Registration attempt:";
                   LBody {| name := JsString "Ann"; email := JsString "ann@example.com";
                            phone := JsString "0700"; password := JsString "secret1" |}]).
Proof. reflexivity. Qed.

Definition padded : credentials :=
  {| name := JsString "Ann"; email := JsString "ann@example.com";
     phone := JsString "0700"; password := JsString "a     " |}.

(** C10, at the password made of one letter and five spaces: trimmed it has
    one character, yet the register route of [routes/auth.js], which tests
    the untrimmed length, hashes it and stores the account. *)
Theorem register_accepts_padded_password `{Crypto} `{Casing}
  (env : environment) (entropy : string) (now : Z) :
  Js.length (Js.trim "a     ") = 1%nat
  /\ users (snd (Auth.register env entropy now padded Fixture.empty))
     = [{| u_id := 1; u_name := "Ann"; u_email := "ann@example.com";
           u_phone := "0700";
           u_password := bcrypt_hash "a     " (genSalt 12 entropy);
           u_created_at := now; u_updated_at := None |}].
Proof.
  split; [reflexivity|].
  unfold Auth.register.
  unfold method, length_lt, hash, select_users_by_email, insert_user, sign. run.
  lowercase. simpl.
  destruct (truthy_opt (JWT_SECRET env)); reflexivity.
Qed.

Section Register.
Context `{Crypto} `{Casing}.
Variable env : environment.

Definition too_short_trimmed (v : jsval) : Prop :=
  match v with
  | JsString pw => (Js.length (Js.trim pw) < 6)%nat
  | _ => True
  end.

(** The revised route refuses every password that is not a string of at
    least six characters once trimmed, before it touches the table. *)
Lemma revised_register_rejects_short entropy now req w :
  too_short_trimmed (password req) ->
  is_bad_request (fst (AuthRevised.register env entropy now req w))
  /\ users (snd (AuthRevised.register env entropy now req w)) = users w.
Proof.
  unfold too_short_trimmed, is_bad_request, AuthRevised.register.
  unfold method, AuthRevised.not_a_string. run.
  destruct (password req) as [|pw|n]; simpl; intros Hshort.
  - rewrite !orb_true_r. simpl. split; eauto.
  - destruct (negb _ || negb _ || negb _ || negb _); simpl; [split; eauto|].
    apply Nat.ltb_lt in Hshort. rewrite Hshort. simpl. split; eauto.
  - destruct (negb _ || negb _ || negb _ || negb _); simpl; split; eauto.
Qed.

(** The route of [routes/auth.js] refuses a string of fewer than six
    characters as it was sent. *)
Lemma register_rejects_short entropy now req pw w :
  password req = JsString pw -> (Js.length pw < 6)%nat ->
  is_bad_request (fst (Auth.register env entropy now req w))
  /\ users (snd (Auth.register env entropy now req w)) = users w.
Proof.
  unfold is_bad_request, Auth.register. unfold length_lt. run.
  intros -> Hshort. apply Nat.ltb_lt in Hshort.
  destruct (negb _ || negb _ || negb _ || negb _); simpl; [split; eauto|].
  rewrite Hshort. simpl. split; eauto.
Qed.

(** Either revision stores a new account with the hash of the password,
    salted with twelve rounds, and nothing else of it. *)
Lemma register_stores_hash entropy now req w u :
  In u (users (snd (Auth.register env entropy now req w))) ->
  In u (users w)
  \/ exists pw, password req = JsString pw
               /\ u_password u = bcrypt_hash pw (genSalt 12 entropy).
Proof.
  unfold Auth.register.
  unfold method, length_lt, hash, select_users_by_email, insert_user, sign. run.
  branch; auto; intros Hin; apply in_app_iff in Hin as [Hin|[<-|[]]]; eauto.
Qed.

Lemma revised_register_stores_hash entropy now req w u :
  In u (users (snd (AuthRevised.register env entropy now req w))) ->
  In u (users w)
  \/ exists pw, password req = JsString pw
               /\ u_password u = bcrypt_hash (Js.trim pw) (genSalt 12 entropy).
Proof.
  unfold AuthRevised.register.
  unfold method, length_lt, hash, select_users_by_email, insert_user, sign. run.
  branch; auto; intros Hin; apply in_app_iff in Hin as [Hin|[<-|[]]]; eauto.
Qed.

(** The answer to a successful registration shows the account by
    [user_doc]: id, name, email and phone. *)
Lemma register_response_hides_hash entropy now req w r :
  fst (Auth.register env entropy now req w) = Done r ->
  status r = 201 ->
  exists u token,
    In u (users (snd (Auth.register env entropy now req w)))
    /\ body r = JObj [("message", JStr "User registered successfully");
                      ("user", user_doc u); ("token", JStr token)].
Proof.
  unfold Auth.register.
  unfold method, length_lt, hash, select_users_by_email, insert_user, sign. run.
  branch; intros [= <-] Hcreated; try discriminate Hcreated.
  do 2 eexists. split; [|reflexivity].
  apply in_app_iff. right. left. reflexivity.
Qed.

Lemma revised_register_response_hides_hash entropy now req w r :
  fst (AuthRevised.register env entropy now req w) = Done r ->
  status r = 201 ->
  exists u token,
    In u (users (snd (AuthRevised.register env entropy now req w)))
    /\ body r = JObj [("message", JStr "Registration successful!");
                      ("token", JStr token); ("user", user_doc u)].
Proof.
  unfold AuthRevised.register.
  unfold method, length_lt, hash, select_users_by_email, insert_user, sign. run.
  branch; intros [= <-] Hcreated; try discriminate Hcreated.
  do 2 eexists. split; [|reflexivity].
  apply in_app_iff. right. left. reflexivity.
Qed.

Definition with_password (req : credentials) (pw : string) : credentials :=
  {| name := name req; email := email req; phone := phone req;
     password := JsString pw |}.

(** The route of [routes/auth.js] leaves the same trace for any two
    passwords it accepts: nothing it prints or signs depends on the
    password. *)
Lemma register_trace_ignores_password entropy now req pw1 pw2 w :
  (6 <= Js.length pw1)%nat -> (6 <= Js.length pw2)%nat ->
  trace (snd (Auth.register env entropy now (with_password req pw1) w))
  = trace (snd (Auth.register env entropy now (with_password req pw2) w)).
Proof.
  intros Hlong1 Hlong2. unfold Auth.register, with_password.
  unfold method, length_lt, hash, select_users_by_email, insert_user, sign. run.
  assert (Hp1 : negb (String.eqb pw1 "") = true) by (destruct pw1; [simpl in *; lia | reflexivity]).
  assert (Hp2 : negb (String.eqb pw2 "") = true) by (destruct pw2; [simpl in *; lia | reflexivity]).
  apply Nat.ltb_ge in Hlong1, Hlong2. rewrite Hp1, Hp2, Hlong1, Hlong2.
  branch; reflexivity.
Qed.

End Register.

(** ** Listings: filters and order *)

Module LikeFacts.
Import Sql.




Lemma append_cons c (s t : string) : String c s ++ t = String c (s ++ t).
Proof. reflexivity. Qed.





Lemma lower_append s t :
  Js.ascii_lower (s ++ t) = Js.ascii_lower s ++ Js.ascii_lower t.
Proof.
  induction s as [|c s IH]; [reflexivity|].
  rewrite !append_cons. simpl. rewrite IH. reflexivity.
Qed.






End LikeFacts.

#[export] Instance newer_first_total : Total newer_first.
Proof. intros a b. unfold newer_first. lia. Qed.

#[export] Instance newer_first_transitive : Transitive newer_first.
Proof. intros a b c. unfold newer_first. lia. Qed.

#[export] Instance by_listing_total {A} : Total (@by_listing A newer_first).
Proof. intros a b. unfold by_listing. apply total, _. Qed.

#[export] Instance by_listing_transitive {A} : Transitive (@by_listing A newer_first).
Proof. intros a b c. unfold by_listing. apply transitivity. Qed.








Lemma sql_or_true a b : Sql.or a b = Some true <-> a = Some true \/ b = Some true.
Proof.
  destruct a as [[]|], b as [[]|]; simpl; split; auto; intros [|]; congruence.
Qed.

(** A pattern that ends in [%] is never refused: a backslash before the
    final [%] just makes it literal. *)
Lemma parse_ends_in_percent n t :
  (String.length t <= n)%nat -> exists p, Sql.parse (t ++ "%") = Some p.
Proof.
  revert t. induction n as [|n IH]; intros t Hlen.
  - destruct t; [|simpl in Hlen; lia]. eexists. reflexivity.
  - destruct t as [|c t]; [eexists; reflexivity|].
    rewrite LikeFacts.append_cons. simpl in Hlen. simpl Sql.parse.
    assert (Hrest : exists p, Sql.parse (t ++ "%") = Some p) by (apply IH; lia).
    destruct (Ascii.eqb c "\").
    + destruct t as [|d t]; [eexists; reflexivity|].
      rewrite LikeFacts.append_cons.
      destruct (IH t) as [p ->]; [simpl in Hlen; lia|]. eexists. reflexivity.
    + destruct Hrest as [p ->].
      destruct (Ascii.eqb c "%"), (Ascii.eqb c "_"); eexists; reflexivity.
Qed.

Lemma parse_wrapped term :
  exists p, Sql.parse (Js.ascii_lower ("%" ++ term ++ "%")) = Some p.
Proof.
  change ("%" ++ term ++ "%") with (String "%" (term ++ "%")).
  change (Js.ascii_lower (String "%" (term ++ "%")))
    with (String "%" (Js.ascii_lower (term ++ "%"))).
  rewrite LikeFacts.lower_append.
  change (Js.ascii_lower "%") with "%".
  destruct (parse_ends_in_percent _ (Js.ascii_lower term) (le_n _)) as [p Hp].
  exists (Sql.AnyRun :: p). simpl Sql.parse. rewrite Hp. reflexivity.
Qed.


Lemma truthy_opt_some v : truthy_opt v = true <-> exists s, v = Some s /\ s <> "".
Proof.
  destruct v as [s|]; simpl.
  - rewrite negb_true_iff, String.eqb_neq. split; [eauto | intros (s' & [= ->] & Hs); auto].
  - split; [discriminate | intros (s & [=] & _)].
Qed.


Lemma pattern_accepted q : pattern_error (Listings.conjuncts q) = None.
Proof.
  unfold pattern_error, Listings.conjuncts.
  rewrite !List.filter_app.
  destruct (truthy_opt (Listings.q_category q)), (truthy_opt (Listings.q_location q));
    simpl;
    (destruct (Listings.q_search q) as [s|] eqn:Hq; simpl; [|reflexivity];
     destruct (negb (String.eqb s "")); [|reflexivity];
     cbn [List.filter]; change (id s) with s;
     destruct (parse_wrapped s) as [p ->]; reflexivity).
Qed.




(** * Further properties of the routes *)

(** ** Registration and login together *)

Lemma filter_nil_existsb {A} (p : A -> bool) (l : list A) :
  List.filter p l = [] <-> existsb p l = false.
Proof.
  induction l as [|x l IH]; simpl; [tauto|].
  destruct (p x); simpl; [split; discriminate | exact IH].
Qed.

Lemma account_none_existsb `{Casing} w mail :
  account w mail = None <->
  existsb (fun u => String.eqb (u_email u) (clean_email mail)) (users w) = false.
Proof.
  unfold account. rewrite <- filter_nil_existsb.
  destruct (List.filter _ (users w)); simpl; split; congruence.
Qed.

Lemma units_app s t : Js.length (s ++ t) = (Js.length s + Js.length t)%nat.
Proof.
  induction s as [|c s IH]; [reflexivity|].
  change (String c s ++ t) with (String c (s ++ t)). simpl. rewrite IH. lia.
Qed.

Lemma trimStart_suffix s : exists p, s = p ++ Js.trimStart s.
Proof.
  remember (String.length s) as n eqn:Hn. revert s Hn.
  induction n as [n IH] using lt_wf_ind. intros s Hn.
  destruct s as [|a s1]; [exists ""; reflexivity|].
  cbn [Js.trimStart]. simpl in Hn.
  destruct (Js.space1 a).
  { destruct (IH (String.length s1) ltac:(lia) s1 eq_refl) as [p Hp].
    exists (String a p). change (String a p ++ Js.trimStart s1) with (String a (p ++ Js.trimStart s1)).
    congruence. }
  destruct s1 as [|b s2]; [exists ""; reflexivity|]. simpl in Hn.
  destruct (Js.space2 a b).
  { destruct (IH (String.length s2) ltac:(lia) s2 eq_refl) as [p Hp].
    exists (String a (String b p)).
    change (String a (String b p) ++ Js.trimStart s2)
      with (String a (String b (p ++ Js.trimStart s2))).
    congruence. }
  destruct s2 as [|c s3]; [exists ""; reflexivity|]. simpl in Hn.
  destruct (Js.space3 a b c); [|exists ""; reflexivity].
  destruct (IH (String.length s3) ltac:(lia) s3 eq_refl) as [p Hp].
  exists (String a (String b (String c p))).
  change (String a (String b (String c p)) ++ Js.trimStart s3)
    with (String a (String b (String c (p ++ Js.trimStart s3)))).
  congruence.
Qed.

Lemma trimEnd_prefix s : exists q, s = Js.trimEnd s ++ q.
Proof.
  induction s as [|c s IH]; [exists ""; reflexivity|].
  cbn [Js.trimEnd]. destruct (Js.trimStart (String c s)).
  - exists (String c s). reflexivity.
  - destruct IH as [q Hq]. exists q.
    change (String c (Js.trimEnd s) ++ q) with (String c (Js.trimEnd s ++ q)).
    congruence.
Qed.

Lemma trim_length s : (Js.length (Js.trim s) <= Js.length s)%nat.
Proof.
  unfold Js.trim.
  destruct (trimStart_suffix s) as [p Hp].
  destruct (trimEnd_prefix (Js.trimStart s)) as [q Hq].
  rewrite Hp at 2. rewrite Hq at 2. rewrite !units_app. lia.
Qed.

Lemma long_not_empty s : (6 <= Js.length s)%nat -> s <> "".
Proof. intros Hlen ->. simpl in Hlen. lia. Qed.

(** Letters outside ASCII: three accented letters are three code units,
    no-break spaces and ideographic spaces are trimmed, and the test
    double lowers the letters of Latin-1. *)
Example length_counts_code_units :
  Js.length "ééé" = 3%nat /\ Js.length "secret1" = 7%nat /\ Js.length "😀😀😀" = 6%nat.
Proof. repeat split. Qed.

Example trim_removes_unicode_space :
  Js.trim "     a" = "a" /\ Js.trim "　 é b  " = "é b".
Proof. split; reflexivity. Qed.

Example lower_latin_letters :
  toLowerCase (Casing := Fixture.casing) "ÄNN@Example.com" = "änn@example.com".
Proof. reflexivity. Qed.

Definition three_letters : credentials :=
  {| name := JsString "Ann"; email := JsString "ann@example.com";
     phone := JsString "0700"; password := JsString "ééé" |}.

Definition padded_with_no_break_spaces : credentials :=
  {| name := JsString "Ann"; email := JsString "ann@example.com";
     phone := JsString "0700"; password := JsString "     a" |}.

Example register_refuses_three_letters :
  Auth.register (H := Fixture.crypto) (H0 := Fixture.casing)
    {| JWT_SECRET := Some "0123456789abcdefghijklmn" |} "salt" 300 three_letters
    Fixture.market
  = (Done {| status := 400; body := error_doc "Password must be at least 6 characters" |},
     Fixture.market).
Proof. reflexivity. Qed.

(** The account a registration stores. *)
Definition new_account `{Casing} (w : world) (nm mail ph hashed : string) (now : Z)
  (updated : option Z) : user_row :=
  {| u_id := users_id_seq w; u_name := Js.trim nm; u_email := clean_email mail;
     u_phone := Js.trim ph; u_password := hashed;
     u_created_at := now; u_updated_at := updated |}.

Section RoundTrip.
Context `{Crypto} `{Casing}.
Variable env : environment.

(** A registration accepted by [routes/auth.js] can be followed by a login
    with the same password and the same email in any letter case and
    padding; the login answers 200 with the account just created. *)
Theorem register_then_login entropy now req nm mail ph pw secret again mail' w :
  name req = JsString nm -> email req = JsString mail ->
  phone req = JsString ph -> password req = JsString pw ->
  nm <> "" -> mail <> "" -> ph <> "" -> (6 <= Js.length pw)%nat ->
  account w mail = None ->
  existsb (fun u => String.eqb (u_phone u) (Js.trim ph)) (users w) = false ->
  JWT_SECRET env = Some secret -> secret <> "" ->
  email again = JsString mail' -> password again = JsString pw ->
  mail' <> "" -> clean_email mail' = clean_email mail ->
  let u := new_account w nm mail ph (bcrypt_hash pw (genSalt 12 entropy)) now None in
  let registered := Auth.register env entropy now req w in
  fst registered
  = Done {| status := 201;
            body := JObj [("message", JStr "User registered successfully");
                          ("user", user_doc u);
                          ("token", JStr (jwt_sign (u_id u) (u_email u) secret "7d"))] |}
  /\ users (snd registered) = (users w ++ [u])%list
  /\ fst (Auth.login env again (snd registered))
     = Done {| status := 200;
               body := JObj [("message", JStr "Login successful");
                             ("user", user_doc u);
                             ("token", JStr (jwt_sign (u_id u) (u_email u) secret "7d"))] |}.
Proof.
  intros Hn He Hp Hw Hnm Hmail Hph Hlong Hfree Hphone Hsecret Hs He' Hw' Hmail' Hsame.
  cbv zeta. unfold Auth.register, Auth.login.
  rewrite Hn, He, Hp, Hw, He', Hw', Hsecret.
  rewrite !truthy_string by (try assumption; apply long_not_empty; exact Hlong).
  unfold method, length_lt, hash, compare, select_users_by_email, insert_user, sign.
  run. fold (clean_email mail) (clean_email mail'). rewrite Hsame.
  apply Nat.ltb_ge in Hlong. rewrite Hlong.
  pose proof (proj1 (account_none_existsb w mail) Hfree) as Hnone.
  pose proof (proj2 (filter_nil_existsb _ _) Hnone) as Hrows.
  rewrite Hrows. simpl. rewrite Hnone, Hphone. simpl.
  apply String.eqb_neq in Hs. rewrite Hs. simpl.
  rewrite List.filter_app, Hrows. simpl. rewrite String.eqb_refl. simpl.
  rewrite bcrypt_compare_hash. simpl. repeat split.
Qed.

End RoundTrip.

Section RevisedRoundTrip.
Context `{Crypto} `{Casing}.
Variable env : environment.

(** The revised register route hashes the trimmed password while its login
    route verifies the password as sent: after an accepted registration the
    login succeeds with the trimmed password. *)
Theorem revised_register_then_login entropy now req nm mail ph pw secret again mail' w :
  name req = JsString nm -> email req = JsString mail ->
  phone req = JsString ph -> password req = JsString pw ->
  nm <> "" -> mail <> "" -> ph <> "" -> (6 <= Js.length (Js.trim pw))%nat ->
  account w mail = None ->
  existsb (fun u => String.eqb (u_phone u) (Js.trim ph)) (users w) = false ->
  JWT_SECRET env = Some secret -> (20 <= Js.length secret)%nat ->
  email again = JsString mail' -> password again = JsString (Js.trim pw) ->
  mail' <> "" -> clean_email mail' = clean_email mail ->
  let u := new_account w nm mail ph (bcrypt_hash (Js.trim pw) (genSalt 12 entropy))
             now (Some now) in
  let registered := AuthRevised.register env entropy now req w in
  fst registered
  = Done {| status := 201;
            body := JObj [("message", JStr "Registration successful!");
                          ("token", JStr (jwt_sign (u_id u) (u_email u) secret "30d"));
                          ("user", user_doc u)] |}
  /\ users (snd registered) = (users w ++ [u])%list
  /\ fst (AuthRevised.login env again (snd registered))
     = Done {| status := 200;
               body := JObj [("message", JStr "Login successful");
                             ("token", JStr (jwt_sign (u_id u) (u_email u) secret "30d"));
                             ("user", user_doc u)] |}.
Proof.
  intros Hn He Hp Hw Hnm Hmail Hph Hlong Hfree Hphone Hsecret Hs He' Hw' Hmail' Hsame.
  assert (Hpw : pw <> "").
  { apply long_not_empty. pose proof (trim_length pw). lia. }
  assert (Htrimmed : Js.trim pw <> "") by (apply long_not_empty; exact Hlong).
  assert (Hsec : secret <> "") by (apply long_not_empty; lia).
  cbv zeta. unfold AuthRevised.register, AuthRevised.login,
    AuthRevised.secret_missing_or_short, AuthRevised.not_a_string.
  rewrite Hn, He, Hp, Hw, He', Hw', Hsecret.
  rewrite !truthy_string by assumption.
  unfold method, hash, compare, select_users_by_email, insert_user, sign.
  run. fold (clean_email mail) (clean_email mail'). rewrite Hsame.
  apply Nat.ltb_ge in Hlong. rewrite Hlong.
  pose proof (proj1 (account_none_existsb w mail) Hfree) as Hnone.
  pose proof (proj2 (filter_nil_existsb _ _) Hnone) as Hrows.
  unfold emit, set_users. simpl.
  rewrite Hrows. simpl. rewrite Hnone, Hphone. simpl.
  apply String.eqb_neq in Hsec. rewrite Hsec. simpl.
  apply Nat.ltb_ge in Hs. rewrite Hs. simpl.
  rewrite List.filter_app, Hrows. simpl. rewrite String.eqb_refl. simpl.
  rewrite bcrypt_compare_hash. simpl. repeat split.
Qed.

(** A second registration under an email that is already there, in any
    letter case and padding, is answered 400 by either revision and adds
    no row and no token. *)
Theorem register_duplicate_email entropy now req nm mail ph pw u w :
  name req = JsString nm -> email req = JsString mail ->
  phone req = JsString ph -> password req = JsString pw ->
  nm <> "" -> mail <> "" -> ph <> "" -> (6 <= Js.length (Js.trim pw))%nat ->
  account w mail = Some u ->
  fst (Auth.register env entropy now req w)
  = Done {| status := 400; body := error_doc "Email already registered" |}
  /\ users (snd (Auth.register env entropy now req w)) = users w
  /\ signatures (snd (Auth.register env entropy now req w)) = signatures w
  /\ fst (AuthRevised.register env entropy now req w)
     = Done {| status := 400; body := error_doc "Email already registered" |}
  /\ users (snd (AuthRevised.register env entropy now req w)) = users w
  /\ signatures (snd (AuthRevised.register env entropy now req w)) = signatures w.
Proof.
  intros Hn He Hp Hw Hnm Hmail Hph Hlong Htaken.
  assert (Hlen : (6 <= Js.length pw)%nat) by (pose proof (trim_length pw); lia).
  assert (Hpw : pw <> "") by (apply long_not_empty; exact Hlen).
  unfold Auth.register, AuthRevised.register, AuthRevised.not_a_string.
  rewrite Hn, He, Hp, Hw. rewrite !truthy_string by assumption.
  unfold method, length_lt, select_users_by_email. run.
  fold (clean_email mail). unfold account in Htaken.
  apply Nat.ltb_ge in Hlong, Hlen. rewrite Hlong, Hlen.
  unfold emit, set_users. simpl.
  destruct (List.filter _ (users w)) as [|u' us]; [discriminate|].
  simpl. repeat split; count_signatures.
Qed.

(** A phone sent as a JSON number passes the presence check and then has
    no [trim]: either revision answers 500 and stores nothing. *)
Theorem register_numeric_phone entropy now req nm mail n pw w :
  name req = JsString nm -> email req = JsString mail ->
  phone req = JsNumber n -> password req = JsString pw ->
  nm <> "" -> mail <> "" -> n <> 0 -> (6 <= Js.length (Js.trim pw))%nat ->
  account w mail = None ->
  fst (Auth.register env entropy now req w)
  = Done {| status := 500;
            body := error_doc "Registration failed. Please try again later." |}
  /\ users (snd (Auth.register env entropy now req w)) = users w
  /\ fst (AuthRevised.register env entropy now req w)
     = Done {| status := 500;
               body := error_doc "Registration failed. Please try again later." |}
  /\ users (snd (AuthRevised.register env entropy now req w)) = users w.
Proof.
  intros Hn He Hp Hw Hnm Hmail Hnum Hlong Hfree.
  assert (Hlen : (6 <= Js.length pw)%nat) by (pose proof (trim_length pw); lia).
  assert (Hpw : pw <> "") by (apply long_not_empty; exact Hlen).
  unfold Auth.register, AuthRevised.register, AuthRevised.not_a_string.
  rewrite Hn, He, Hp, Hw. rewrite !truthy_string by assumption.
  unfold method, length_lt, hash, select_users_by_email. run.
  fold (clean_email mail).
  apply Z.eqb_neq in Hnum. rewrite Hnum.
  apply Nat.ltb_ge in Hlong, Hlen. rewrite Hlong, Hlen.
  pose proof (proj1 (account_none_existsb w mail) Hfree) as Hnone.
  unfold emit, set_users. simpl.
  rewrite (proj2 (filter_nil_existsb _ _) Hnone). simpl. repeat split.
Qed.

End RevisedRoundTrip.



Section Accounts.
Context `{Crypto} `{Casing}.
Variable env : environment.


(** A login is answered 200 only when the body names the email of an
    account and the password verifies against the hash stored for it; the
    token is then signed for that account's id and email, once. *)
Theorem login_grants_only_verified req w r :
  fst (Auth.login env req w) = Done r -> status r = 200 ->
  exists mail pw u secret,
    email req = JsString mail /\ password req = JsString pw
    /\ account w mail = Some u
    /\ bcrypt_compare pw (u_password u) = true
    /\ JWT_SECRET env = Some secret
    /\ body r = JObj [("message", JStr "Login successful"); ("user", user_doc u);
                      ("token", JStr (jwt_sign (u_id u) (u_email u) secret "7d"))]
    /\ signatures (snd (Auth.login env req w))
       = (signatures w ++ [JwtSign (u_id u) (u_email u) secret "7d"])%list.
Proof.
  unfold Auth.login, account.
  unfold method, compare, select_users_by_email, sign. run.
  unfold clean_email.
  destruct (JWT_SECRET env) as [secret|] eqn:Hsecret; simpl;
    branch; intros [= <-] Hok; try discriminate Hok.
  match goal with
  | He : email req = JsString ?m, Hp : password req = JsString ?p,
    Hr : List.filter _ _ = ?u :: _, Hc : negb (bcrypt_compare _ _) = false |- _ =>
      exists m, p, u, secret; rewrite Hr; apply negb_false_iff in Hc;
      repeat split; try assumption; count_signatures
  end.
Qed.

Theorem revised_login_grants_only_verified req w r :
  fst (AuthRevised.login env req w) = Done r -> status r = 200 ->
  exists mail pw u secret,
    email req = JsString mail /\ password req = JsString pw
    /\ account w mail = Some u
    /\ bcrypt_compare pw (u_password u) = true
    /\ JWT_SECRET env = Some secret
    /\ body r = JObj [("message", JStr "Login successful");
                      ("token", JStr (jwt_sign (u_id u) (u_email u) secret "30d"));
                      ("user", user_doc u)]
    /\ signatures (snd (AuthRevised.login env req w))
       = (signatures w ++ [JwtSign (u_id u) (u_email u) secret "30d"])%list.
Proof.
  unfold AuthRevised.login, account.
  unfold method, compare, select_users_by_email, sign. run.
  unfold clean_email.
  destruct (JWT_SECRET env) as [secret|] eqn:Hsecret; simpl;
    branch; intros [= <-] Hok; try discriminate Hok.
  match goal with
  | He : email req = JsString ?m, Hp : password req = JsString ?p,
    Hr : List.filter _ _ = ?u :: _, Hc : negb (bcrypt_compare _ _) = false |- _ =>
      exists m, p, u, secret; rewrite Hr; apply negb_false_iff in Hc;
      repeat split; try assumption; count_signatures
  end.
Qed.

(** Login reads the accounts and never writes them, and a login that is
    not answered 200 signs nothing. *)
Theorem login_signs_only_on_success req w :
  users (snd (Auth.login env req w)) = users w
  /\ users (snd (AuthRevised.login env req w)) = users w
  /\ ((forall r, fst (Auth.login env req w) = Done r -> status r <> 200) ->
      signatures (snd (Auth.login env req w)) = signatures w)
  /\ ((forall r, fst (AuthRevised.login env req w) = Done r -> status r <> 200) ->
      signatures (snd (AuthRevised.login env req w)) = signatures w).
Proof.
  unfold Auth.login, AuthRevised.login.
  unfold method, compare, select_users_by_email, sign. run.
  split; [|split; [|split]].
  - branch; reflexivity.
  - branch; reflexivity.
  - branch; intros Hfail; try (count_signatures; fail);
      exfalso; eapply Hfail; reflexivity.
  - branch; intros Hfail; try (count_signatures; fail);
      exfalso; eapply Hfail; reflexivity.
Qed.

End Accounts.

Section Secrets.
Context `{Crypto} `{Casing}.
Variable env : environment.

(** With no signing secret in the environment (unset or empty), none of
    the four register and login handlers signs a token, whatever the
    request and the accounts. *)
Theorem absent_secret_never_signs entropy now req w :
  truthy_opt (JWT_SECRET env) = false ->
  signatures (snd (Auth.register env entropy now req w)) = signatures w
  /\ signatures (snd (AuthRevised.register env entropy now req w)) = signatures w
  /\ signatures (snd (Auth.login env req w)) = signatures w
  /\ signatures (snd (AuthRevised.login env req w)) = signatures w.
Proof.
  intros Hsecret.
  destruct (register_without_secret env entropy now req w Hsecret) as [Hr Hr'].
  destruct (login_without_secret env req w Hsecret) as [Hl Hl'].
  auto.
Qed.

(** Whatever either register route stores for a new account, its password
    column is bcrypt's hash of the password sent (trimmed by the revised
    route) under a salt of twelve rounds. *)
Theorem new_accounts_store_hash entropy now req w u :
  ~ In u (users w) ->
  (In u (users (snd (Auth.register env entropy now req w))) ->
   exists pw, password req = JsString pw
              /\ u_password u = bcrypt_hash pw (genSalt 12 entropy))
  /\ (In u (users (snd (AuthRevised.register env entropy now req w))) ->
      exists pw, password req = JsString pw
                 /\ u_password u = bcrypt_hash (Js.trim pw) (genSalt 12 entropy)).
Proof.
  intros Hnew. split; intros Hin.
  - destruct (register_stores_hash env entropy now req w u Hin); [contradiction | assumption].
  - destruct (revised_register_stores_hash env entropy now req w u Hin);
      [contradiction | assumption].
Qed.

End Secrets.

(** *** Runs on the test doubles *)

Definition strong : environment := {| JWT_SECRET := Some "0123456789abcdefghijklmn" |}.

Definition ann_again : credentials :=
  {| name := JsUndefined; email := JsString " ANN@example.com ";
     phone := JsUndefined; password := JsString "secret1" |}.

Lemma register_then_login_witness :
  fst (Auth.login (H := Fixture.crypto) (H0 := Fixture.casing) strong ann_again
         (snd (Auth.register (H := Fixture.crypto) (H0 := Fixture.casing) strong "salt" 300 ann Fixture.market)))
  = Done {| status := 200;
            body := JObj [("message", JStr "Login successful");
                          ("user", JObj [("id", JNum 3); ("name", JStr "Ann");
                                         ("email", JStr "ann@example.com");
                                         ("phone", JStr "0700")]);
                          ("token", JStr "jwt.3.ann@example.com.7d")] |}.
Proof.
  pose proof (register_then_login (H := Fixture.crypto) (H0 := Fixture.casing) strong "salt" 300 ann
                "Ann" "ann@example.com" "0700" "secret1" "0123456789abcdefghijklmn"
                ann_again " ANN@example.com " Fixture.market) as Hround.
  destruct Hround as (_ & _ & Hlogin);
    [ first [reflexivity | discriminate | simpl; lia] .. | exact Hlogin ].
Defined.

Definition padded_ann : credentials :=
  {| name := JsString "Ann"; email := JsString "ann@example.com";
     phone := JsString "0700"; password := JsString "  secret1 " |}.

Lemma revised_register_then_login_witness :
  fst (AuthRevised.login (H := Fixture.crypto) (H0 := Fixture.casing) strong ann_again
         (snd (AuthRevised.register (H := Fixture.crypto) (H0 := Fixture.casing) strong "salt" 300 padded_ann
                 Fixture.market)))
  = Done {| status := 200;
            body := JObj [("message", JStr "Login successful");
                          ("token", JStr "jwt.3.ann@example.com.30d");
                          ("user", JObj [("id", JNum 3); ("name", JStr "Ann");
                                         ("email", JStr "ann@example.com");
                                         ("phone", JStr "0700")])] |}.
Proof.
  pose proof (revised_register_then_login (H := Fixture.crypto) (H0 := Fixture.casing) strong "salt" 300
                padded_ann "Ann" "ann@example.com" "0700" "  secret1 "
                "0123456789abcdefghijklmn" ann_again " ANN@example.com "
                Fixture.market) as Hround.
  destruct Hround as (_ & _ & Hlogin);
    [ first [reflexivity | discriminate | vm_compute; lia] .. | exact Hlogin ].
Defined.

Definition alice_again : credentials :=
  {| name := JsString "Alice B"; email := JsString " ALICE@Example.com";
     phone := JsString "0799"; password := JsString "another1" |}.

Lemma register_duplicate_email_witness :
  fst (Auth.register (H := Fixture.crypto) (H0 := Fixture.casing) strong "salt" 300 alice_again Fixture.market)
  = Done {| status := 400; body := error_doc "Email already registered" |}
  /\ users (snd (AuthRevised.register (H := Fixture.crypto) (H0 := Fixture.casing) strong "salt" 300 alice_again
                   Fixture.market))
     = [Fixture.alice; Fixture.bob].
Proof.
  destruct (register_duplicate_email (H := Fixture.crypto) (H0 := Fixture.casing) strong "salt" 300 alice_again
              "Alice B" " ALICE@Example.com" "0799" "another1" Fixture.alice
              Fixture.market)
    as (Hfirst & _ & _ & _ & Hrows & _);
    [ first [reflexivity | discriminate | vm_compute; lia] .. | split; assumption ].
Defined.

Definition ann_numeric_phone : credentials :=
  {| name := JsString "Ann"; email := JsString "ann@example.com";
     phone := JsNumber 254700000000; password := JsString "secret1" |}.

Lemma register_numeric_phone_witness :
  fst (Auth.register (H := Fixture.crypto) (H0 := Fixture.casing) strong "salt" 300 ann_numeric_phone
         Fixture.market)
  = Done {| status := 500;
            body := error_doc "Registration failed. Please try again later." |}
  /\ users (snd (Auth.register (H := Fixture.crypto) (H0 := Fixture.casing) strong "salt" 300 ann_numeric_phone
                   Fixture.market))
     = [Fixture.alice; Fixture.bob].
Proof.
  destruct (register_numeric_phone (H := Fixture.crypto) (H0 := Fixture.casing) strong "salt" 300
              ann_numeric_phone "Ann" "ann@example.com" 254700000000 "secret1"
              Fixture.market)
    as (Hfirst & Hrows & _);
    [ first [reflexivity | discriminate | vm_compute; lia] .. | split; assumption ].
Defined.


Definition alice_login : credentials :=
  {| name := JsUndefined; email := JsString "Alice@example.com";
     phone := JsUndefined; password := JsString "wonderland" |}.

Lemma login_grants_only_verified_witness :
  exists mail pw u secret,
    email alice_login = JsString mail /\ password alice_login = JsString pw
    /\ account (H := Fixture.casing) Fixture.market mail = Some u
    /\ bcrypt_compare (Crypto := Fixture.crypto) pw (u_password u) = true
    /\ JWT_SECRET strong = Some secret
    /\ JObj [("message", JStr "Login successful"); ("user", user_doc Fixture.alice);
             ("token", JStr "jwt.1.alice@example.com.7d")]
       = JObj [("message", JStr "Login successful"); ("user", user_doc u);
               ("token", JStr (jwt_sign (Crypto := Fixture.crypto)
                                 (u_id u) (u_email u) secret "7d"))]
    /\ signatures (snd (Auth.login (H := Fixture.crypto) (H0 := Fixture.casing) strong alice_login Fixture.market))
       = (signatures Fixture.market ++ [JwtSign (u_id u) (u_email u) secret "7d"])%list.
Proof.
  exact (login_grants_only_verified (H := Fixture.crypto) (H0 := Fixture.casing) strong alice_login
           Fixture.market
           {| status := 200;
              body := JObj [("message", JStr "Login successful");
                            ("user", user_doc Fixture.alice);
                            ("token", JStr "jwt.1.alice@example.com.7d")] |}
           eq_refl eq_refl).
Defined.

Lemma revised_login_grants_only_verified_witness :
  exists mail pw u secret,
    email alice_login = JsString mail /\ password alice_login = JsString pw
    /\ account (H := Fixture.casing) Fixture.market mail = Some u
    /\ bcrypt_compare (Crypto := Fixture.crypto) pw (u_password u) = true
    /\ JWT_SECRET strong = Some secret
    /\ JObj [("message", JStr "Login successful");
             ("token", JStr "jwt.1.alice@example.com.30d");
             ("user", user_doc Fixture.alice)]
       = JObj [("message", JStr "Login successful");
               ("token", JStr (jwt_sign (Crypto := Fixture.crypto)
                                 (u_id u) (u_email u) secret "30d"));
               ("user", user_doc u)]
    /\ signatures (snd (AuthRevised.login (H := Fixture.crypto) (H0 := Fixture.casing) strong alice_login
                          Fixture.market))
       = (signatures Fixture.market ++ [JwtSign (u_id u) (u_email u) secret "30d"])%list.
Proof.
  exact (revised_login_grants_only_verified (H := Fixture.crypto) (H0 := Fixture.casing) strong alice_login
           Fixture.market
           {| status := 200;
              body := JObj [("message", JStr "Login successful");
                            ("token", JStr "jwt.1.alice@example.com.30d");
                            ("user", user_doc Fixture.alice)] |}
           eq_refl eq_refl).
Defined.

Lemma absent_secret_never_signs_witness :
  signatures (snd (Auth.login (H := Fixture.crypto) (H0 := Fixture.casing) {| JWT_SECRET := None |} alice_login
                     Fixture.market)) = []
  /\ signatures (snd (AuthRevised.register (H := Fixture.crypto) (H0 := Fixture.casing) {| JWT_SECRET := Some "" |}
                        "salt" 300 ann Fixture.market)) = [].
Proof.
  destruct (absent_secret_never_signs (H := Fixture.crypto) (H0 := Fixture.casing) {| JWT_SECRET := None |}
              "salt" 300 alice_login Fixture.market eq_refl) as (_ & _ & Hlogin & _).
  destruct (absent_secret_never_signs (H := Fixture.crypto) (H0 := Fixture.casing) {| JWT_SECRET := Some "" |}
              "salt" 300 ann Fixture.market eq_refl) as (_ & Hregister & _).
  split; assumption.
Defined.

Lemma revised_register_with_weak_secret_witness :
  signatures (snd (AuthRevised.register (H := Fixture.crypto) (H0 := Fixture.casing) {| JWT_SECRET := Some "short" |}
                     "salt" 300 ann Fixture.market)) = [].
Proof.
  exact (proj1 (revised_register_with_weak_secret (H := Fixture.crypto) (H0 := Fixture.casing)
                  {| JWT_SECRET := Some "short" |} "salt" 300 ann Fixture.market eq_refl)).
Defined.

Lemma revised_register_rejects_short_witness :
  users (snd (AuthRevised.register (H := Fixture.crypto) (H0 := Fixture.casing)
                strong "salt" 300 padded_with_no_break_spaces Fixture.market))
  = [Fixture.alice; Fixture.bob].
Proof.
  refine (proj2 (revised_register_rejects_short (H := Fixture.crypto)
                   (H0 := Fixture.casing) strong "salt" 300
                   padded_with_no_break_spaces Fixture.market _)).
  vm_compute. lia.
Defined.

Lemma register_trace_ignores_password_witness :
  trace (snd (Auth.register (H := Fixture.crypto) (H0 := Fixture.casing) strong "salt" 300
                (with_password ann "secret1") Fixture.market))
  = trace (snd (Auth.register (H := Fixture.crypto) (H0 := Fixture.casing) strong "salt" 300
                  (with_password ann "another password") Fixture.market)).
Proof.
  apply (register_trace_ignores_password (H := Fixture.crypto) (H0 := Fixture.casing)); simpl; lia.
Defined.

Lemma new_accounts_store_hash_witness :
  exists pw, password padded_ann = JsString pw
             /\ "salt$secret1"
                = bcrypt_hash (Crypto := Fixture.crypto) (Js.trim pw) (genSalt 12 "salt").
Proof.
  refine (proj2 (new_accounts_store_hash (H := Fixture.crypto) (H0 := Fixture.casing) strong "salt" 300
                   padded_ann Fixture.market
                   {| u_id := 3; u_name := "Ann"; u_email := "ann@example.com";
                      u_phone := "0700"; u_password := "salt$secret1";
                      u_created_at := 300; u_updated_at := Some 300 |} _) _).
  - intros [Heq|[Heq|[]]]; discriminate Heq.
  - right. right. left. reflexivity.
Defined.

(** ** The profile route *)

Definition profile_of (u : user_row) : response :=
  {| status := 200; body := JObj [("user", profile_doc u)] |}.

(** Given the identity of a token whose id is not 0, both profile routes
    answer with the id, name, email, phone and creation time of the first
    account of that id, and with 404 when there is none; they leave the
    accounts as they are. *)
Theorem me_shows_profile (id : Z) (w : world) :
  id <> 0 ->
  let user := Some {| s_userId := Some id |} in
  match head (List.filter (fun u => u_id u =? id) (users w)) with
  | Some u =>
      fst (Profile.me user w) = Done (profile_of u)
      /\ fst (Profile.me_revised user w) = Done (profile_of u)
  | None =>
      fst (Profile.me user w) = Done {| status := 404; body := error_doc "User not found" |}
      /\ fst (Profile.me_revised user w)
         = Done {| status := 404; body := error_doc "User not found" |}
  end
  /\ users (snd (Profile.me user w)) = users w
  /\ users (snd (Profile.me_revised user w)) = users w.
Proof.
  intros Hid. cbv zeta. unfold Profile.me, Profile.me_revised, select_user_by_id.
  run. apply Z.eqb_neq in Hid. rewrite Hid. simpl.
  destruct (List.filter _ (users w)) as [|u us]; simpl; repeat split.
Qed.

Lemma me_shows_profile_witness :
  fst (Profile.me (Some {| s_userId := Some 2 |}) Fixture.market)
  = Done {| status := 200;
            body := JObj [("user",
                           JObj [("id", JNum 2); ("name", JStr "Bob");
                                 ("email", JStr "bob@example.com");
                                 ("phone", JStr "0722"); ("created_at", JNum 20)])] |}.
Proof.
  pose proof (me_shows_profile 2 Fixture.market) as Hme.
  destruct Hme as ((Hfirst & _) & _); [lia | exact Hfirst].
Defined.

(** Without the identity of a token the two revisions differ: the route
    of [routes/auth.js] reads [userId] of [undefined] and answers 500 when
    [req.user] is missing, and looks for NULL (404) when only the id is
    missing; the revised route answers 401 in both cases, and also for the
    id 0, without a look at the accounts. *)
Theorem me_without_identity (w : world) :
  fst (Profile.me None w)
  = Done {| status := 500; body := error_doc "Failed to fetch user profile" |}
  /\ fst (Profile.me (Some {| s_userId := None |}) w)
     = Done {| status := 404; body := error_doc "User not found" |}
  /\ (forall user,
        Profile.truthy_id (Profile.optional_user_id user) = false ->
        Profile.me_revised user w
        = (Done {| status := 401; body := error_doc "Unauthorized" |}, w))
  /\ Profile.truthy_id (Profile.optional_user_id None) = false
  /\ Profile.truthy_id (Profile.optional_user_id (Some {| s_userId := None |})) = false
  /\ Profile.truthy_id (Profile.optional_user_id (Some {| s_userId := Some 0 |})) = false.
Proof.
  repeat split. intros user Hfalsy. unfold Profile.me_revised. run.
  rewrite Hfalsy. reflexivity.
Qed.

Section Registered.
Context `{Crypto} `{Casing}.
Variable env : environment.

Lemma register_appends entropy now req nm mail ph pw secret w :
  name req = JsString nm -> email req = JsString mail ->
  phone req = JsString ph -> password req = JsString pw ->
  nm <> "" -> mail <> "" -> ph <> "" -> (6 <= Js.length pw)%nat ->
  account w mail = None ->
  existsb (fun u => String.eqb (u_phone u) (Js.trim ph)) (users w) = false ->
  JWT_SECRET env = Some secret -> secret <> "" ->
  users (snd (Auth.register env entropy now req w))
  = (users w
     ++ [new_account w nm mail ph (bcrypt_hash pw (genSalt 12 entropy)) now None])%list
  /\ signatures (snd (Auth.register env entropy now req w))
     = (signatures w ++ [JwtSign (users_id_seq w) (clean_email mail) secret "7d"])%list.
Proof.
  intros Hn He Hp Hw Hnm Hmail Hph Hlong Hfree Hphone Hsecret Hs.
  unfold Auth.register. rewrite Hn, He, Hp, Hw, Hsecret.
  rewrite !truthy_string by (try assumption; apply long_not_empty; exact Hlong).
  unfold method, length_lt, hash, select_users_by_email, insert_user, sign.
  run. fold (clean_email mail).
  apply Nat.ltb_ge in Hlong. rewrite Hlong.
  pose proof (proj1 (account_none_existsb w mail) Hfree) as Hnone.
  rewrite (proj2 (filter_nil_existsb _ _) Hnone). simpl. rewrite Hnone, Hphone. simpl.
  apply String.eqb_neq in Hs. rewrite Hs. simpl. split; [reflexivity|].
  count_signatures.
Qed.

(** The token a registration signs carries the id of the new account; the
    profile routes, given that id, answer with the account just created,
    provided the id the database assigned was not in use (and is not 0). *)
Theorem register_then_me entropy now req nm mail ph pw secret w :
  name req = JsString nm -> email req = JsString mail ->
  phone req = JsString ph -> password req = JsString pw ->
  nm <> "" -> mail <> "" -> ph <> "" -> (6 <= Js.length pw)%nat ->
  account w mail = None ->
  existsb (fun u => String.eqb (u_phone u) (Js.trim ph)) (users w) = false ->
  JWT_SECRET env = Some secret -> secret <> "" ->
  existsb (fun u => u_id u =? users_id_seq w) (users w) = false ->
  users_id_seq w <> 0 ->
  let u := new_account w nm mail ph (bcrypt_hash pw (genSalt 12 entropy)) now None in
  let registered := snd (Auth.register env entropy now req w) in
  exists userId signedMail,
    signatures registered = (signatures w ++ [JwtSign userId signedMail secret "7d"])%list
    /\ fst (Profile.me (Some {| s_userId := Some userId |}) registered)
       = Done (profile_of u)
    /\ fst (Profile.me_revised (Some {| s_userId := Some userId |}) registered)
       = Done (profile_of u).
Proof.
  intros Hn He Hp Hw Hnm Hmail Hph Hlong Hfree Hphone Hsecret Hs Hfresh Hseq.
  cbv zeta.
  destruct (register_appends entropy now req nm mail ph pw secret w
              Hn He Hp Hw Hnm Hmail Hph Hlong Hfree Hphone Hsecret Hs) as [Husers Hsigned].
  exists (users_id_seq w), (clean_email mail). split; [exact Hsigned|].
  unfold Profile.me, Profile.me_revised, select_user_by_id. run.
  apply Z.eqb_neq in Hseq. rewrite Hseq. simpl.
  rewrite Husers, List.filter_app, (proj2 (filter_nil_existsb _ _) Hfresh).
  simpl. rewrite Z.eqb_refl. simpl. split; reflexivity.
Qed.

End Registered.

Lemma register_then_me_witness :
  exists userId signedMail,
    signatures (snd (Auth.register (H := Fixture.crypto) (H0 := Fixture.casing) strong "salt" 300 ann
                       Fixture.market))
    = ([] ++ [JwtSign userId signedMail "0123456789abcdefghijklmn" "7d"])%list
    /\ fst (Profile.me (Some {| s_userId := Some userId |})
              (snd (Auth.register (H := Fixture.crypto) (H0 := Fixture.casing) strong "salt" 300 ann
                      Fixture.market)))
       = Done (profile_of
                 {| u_id := 3; u_name := "Ann"; u_email := "ann@example.com";
                    u_phone := "0700"; u_password := "salt$secret1";
                    u_created_at := 300; u_updated_at := None |})
    /\ fst (Profile.me_revised (Some {| s_userId := Some userId |})
              (snd (Auth.register (H := Fixture.crypto) (H0 := Fixture.casing) strong "salt" 300 ann
                      Fixture.market)))
       = Done (profile_of
                 {| u_id := 3; u_name := "Ann"; u_email := "ann@example.com";
                    u_phone := "0700"; u_password := "salt$secret1";
                    u_created_at := 300; u_updated_at := None |}).
Proof.
  refine (register_then_me (H := Fixture.crypto) (H0 := Fixture.casing) strong "salt" 300 ann
            "Ann" "ann@example.com" "0700" "secret1" "0123456789abcdefghijklmn"
            Fixture.market _ _ _ _ _ _ _ _ _ _ _ _ _ _);
    first [reflexivity | discriminate | simpl; lia].
Defined.

(** ** Listings: reading back what was written *)

Lemma join_filter_id id (ls : list listing_row) (us : list user_row) :
  List.filter (fun lu : listing_row * user_row => l_id (fst lu) =? id)
    (flat_map
       (fun l => List.map (fun u => (l, u))
                   (List.filter (fun u => l_user_id l =? u_id u) us)) ls)
  = flat_map
      (fun l => List.map (fun u => (l, u))
                  (List.filter (fun u => l_user_id l =? u_id u) us))
      (List.filter (fun l => l_id l =? id) ls).
Proof.
  induction ls as [|l ls IH]; [reflexivity|].
  cbn [flat_map List.filter]. rewrite List.filter_app, IH.
  destruct (l_id l =? id) eqn:Hid; cbn [flat_map]; f_equal.
  - induction (List.filter _ us) as [|u us' IHu]; [reflexivity|].
    simpl. rewrite Hid. f_equal. exact IHu.
  - induction (List.filter _ us) as [|u us' IHu]; [reflexivity|].
    simpl. rewrite Hid. exact IHu.
Qed.

(** What [GET /:id] answers, read off the two tables. *)
Lemma get_reads id w :
  fst (Listings.get id w)
  = match List.filter (fun l => l_id l =? id) (listings w) with
    | l :: _ =>
        match List.filter (fun u => l_user_id l =? u_id u) (users w) with
        | u :: _ =>
            Done {| status := 200;
                    body := JObj [("listing", Listings.detailed_doc (l, u))] |}
        | [] =>
            match
              flat_map
                (fun l => List.map (fun u => (l, u))
                            (List.filter (fun u => l_user_id l =? u_id u) (users w)))
                (tail (List.filter (fun l => l_id l =? id) (listings w)))
            with
            | row :: _ =>
                Done {| status := 200;
                        body := JObj [("listing", Listings.detailed_doc row)] |}
            | [] => Done not_found
            end
        end
    | [] => Done not_found
    end.
Proof.
  unfold Listings.get, select_listing_by_id, join_owner. run.
  rewrite join_filter_id.
  destruct (List.filter (fun l => l_id l =? id) (listings w)) as [|l ls]; [reflexivity|].
  cbn [flat_map tail].
  destruct (List.filter (fun u => l_user_id l =? u_id u) (users w)) as [|u us]; simpl.
  - destruct (flat_map _ ls); reflexivity.
  - reflexivity.
Qed.

Lemma create_appends userId now f w :
  ~ create_refused f ->
  listings (snd (Listings.create userId now f w))
  = (listings w ++ [created_row userId now f w])%list
  /\ users (snd (Listings.create userId now f w)) = users w.
Proof.
  intros Hfine. unfold create_refused in Hfine.
  rewrite <- !truthy_opt_absent in Hfine.
  assert (Hcount : Listings.image_count_ok f = true).
  { apply image_count_ok_iff. lia. }
  unfold Listings.create, insert_listing. run.
  destruct (truthy_opt (title f)); [|tauto].
  destruct (truthy_opt (category f)); [|tauto].
  destruct (truthy_opt (location f)); [|tauto].
  destruct (truthy_opt (county f)); [|tauto].
  destruct (truthy_opt (contact f)); [|tauto].
  simpl. rewrite Hcount. simpl. split; reflexivity.
Qed.

(** A listing that was accepted can be read back at once: [GET /:id] with
    the id the database assigned answers with the stored row and the name,
    email and phone of the creator, provided that id was not in use and
    the creator has an account. *)
Theorem create_then_get userId now f u w :
  ~ create_refused f ->
  existsb (fun l => l_id l =? listings_id_seq w) (listings w) = false ->
  head (List.filter (fun u => userId =? u_id u) (users w)) = Some u ->
  fst (Listings.get (listings_id_seq w) (snd (Listings.create userId now f w)))
  = Done {| status := 200;
            body := JObj [("listing",
                           Listings.detailed_doc (created_row userId now f w, u))] |}.
Proof.
  intros Hfine Hfresh Howner.
  destruct (create_appends userId now f w Hfine) as [Hrows Husers].
  rewrite get_reads, Hrows, Husers, List.filter_app.
  rewrite (proj2 (filter_nil_existsb _ _) Hfresh). simpl.
  rewrite Z.eqb_refl. simpl.
  destruct (List.filter _ (users w)) as [|u' us]; [discriminate|].
  injection Howner as ->. reflexivity.
Qed.

Lemma update_keeps_users id userId now f w :
  users (snd (Listings.update id userId now f w)) = users w.
Proof.
  unfold Listings.update, select_owner, update_listing. run. branch; reflexivity.
Qed.

(** The owner's update shows in the next [GET /:id]: the answer carries
    the nine columns of the body, the new [updated_at], and the owner's
    contact. *)
Theorem update_then_get id userId now f row u w :
  owner_of id w = Some userId ->
  head (List.filter (fun l => l_id l =? id) (listings w)) = Some row ->
  head (List.filter (fun u => l_user_id row =? u_id u) (users w)) = Some u ->
  fst (Listings.get id (snd (Listings.update id userId now f w)))
  = Done {| status := 200;
            body := JObj [("listing",
                           Listings.detailed_doc (set_columns f now row, u))] |}.
Proof.
  intros Howner Hrow Hu.
  destruct (update_owner id userId now f w Howner) as (_ & Hrows & _).
  cbv zeta in Hrows.
  rewrite get_reads, Hrows, update_keeps_users, filter_rewritten.
  destruct (List.filter (fun l => l_id l =? id) (listings w)) as [|l ls]; [discriminate|].
  injection Hrow as ->. simpl.
  destruct (List.filter _ (users w)) as [|u' us]; [discriminate|].
  injection Hu as ->. reflexivity.
Qed.

(** Deleting is not repeatable: once the owner has deleted a listing, the
    same request is answered 404 and changes nothing. *)
Theorem delete_twice id userId w :
  owner_of id w = Some userId ->
  let once := snd (Listings.delete id userId w) in
  fst (Listings.delete id userId once) = Done not_found
  /\ listings (snd (Listings.delete id userId once)) = listings once
  /\ forall other now f, fst (Listings.update id other now f once) = Done not_found.
Proof.
  intros Howner. cbv zeta.
  destruct (delete_owner id userId w Howner) as (_ & Hleft & _). cbv zeta in Hleft.
  assert (Hgone : forall w', listings w' = listings (snd (Listings.delete id userId w)) ->
                             owner_of id w' = None).
  { intros w' Hw'. unfold owner_of. rewrite Hw', Hleft, filter_filter_out. reflexivity. }
  destruct (delete_absent id userId _ (Hgone _ eq_refl)) as [Hagain Hsame].
  split; [exact Hagain|]. split; [exact Hsame|].
  intros other now f. apply update_absent. apply Hgone. reflexivity.
Qed.

(** [GET /] has no failing search term: whatever the filters, a term that
    ends in a backslash included, the answer is 200, and the tables are
    left as they were. *)
Theorem list_listings_always_answers (q : Listings.filters) (w : world) :
  (exists found,
      fst (Listings.list_listings q w)
      = Done {| status := 200;
                body := JObj [("listings", JArr (List.map Listings.listed_doc found))] |})
  /\ listings (snd (Listings.list_listings q w)) = listings w
  /\ users (snd (Listings.list_listings q w)) = users w.
Proof.
  unfold Listings.list_listings, select_listings.
  rewrite (pattern_accepted q). run. split; [eexists; reflexivity|].
  split; reflexivity.
Qed.

Lemma create_then_get_witness :
  fst (Listings.get 3 (snd (Listings.create 2 300 Fixture.advert Fixture.market)))
  = Done {| status := 200;
            body := JObj [("listing",
                           Listings.detailed_doc
                             (created_row 2 300 Fixture.advert Fixture.market,
                              Fixture.bob))] |}.
Proof.
  apply (create_then_get 2 300 Fixture.advert Fixture.bob Fixture.market);
    [|reflexivity|reflexivity].
  unfold create_refused, absent, image_count. simpl.
  intuition (try discriminate; try lia).
Defined.

Lemma update_then_get_witness :
  fst (Listings.get 1 (snd (Listings.update 1 1 500 Fixture.advert Fixture.market)))
  = Done {| status := 200;
            body := JObj [("listing",
                           Listings.detailed_doc
                             (set_columns Fixture.advert 500 Fixture.flat,
                              Fixture.alice))] |}.
Proof.
  apply (update_then_get 1 1 500 Fixture.advert Fixture.flat Fixture.alice Fixture.market);
    reflexivity.
Defined.

Lemma delete_twice_witness :
  fst (Listings.delete 2 2 (snd (Listings.delete 2 2 Fixture.market))) = Done not_found.
Proof.
  exact (proj1 (delete_twice 2 2 Fixture.market eq_refl)).
Defined.

(** ** Upload: what a request leaves in the bucket *)

Section Stored.
Context `{StorageClient}.
Variables (userId : Z) (clock : nat -> Z) (random : nat -> string).

(** The loop only ever adds objects. *)
Lemma upload_each_keeps files i urls w k o :
  bucket w !! k = Some o ->
  bucket (snd (Upload.upload_each userId clock random i files urls w)) !! k = Some o.
Proof.
  revert i urls w. induction files as [|f files IH]; intros i urls w Hk; [exact Hk|].
  simpl. unfold Upload.storage_upload. run.
  destruct (bucket w !! Upload.filePath userId clock random i f) eqn:Hpath.
  - simpl. exact Hk.
  - apply IH. simpl. rewrite lookup_insert_ne; [exact Hk|]. congruence.
Qed.

(** The loop stops at the first key that is taken: the files before it
    have been stored, the error is printed and thrown. *)
Lemma upload_each_collision before f rest i urls w o :
  NoDup (keys_from userId clock random i before) ->
  Forall (fun k => bucket w !! k = None) (keys_from userId clock random i before) ->
  bucket w !! Upload.filePath userId clock random (i + length before) f = Some o ->
  Upload.upload_each userId clock random i (before ++ f :: rest) urls w
  = (Thrown Upload.already_exists,
     emit (Console [LText "Supabase upload error:"; LError Upload.already_exists])
       (emit (StorageUpload (Upload.filePath userId clock random (i + length before) f)
                (mimetype f) false)
          (after_uploads userId clock random i before w))).
Proof.
  revert i urls w. induction before as [|g before IH]; intros i urls w Hnodup Hfree Htaken.
  - simpl in *. rewrite Nat.add_0_r in *. unfold Upload.storage_upload. run.
    rewrite Htaken. reflexivity.
  - simpl in Hnodup, Hfree, Htaken. apply NoDup_cons in Hnodup as [Hfirst Hnodup].
    apply Forall_cons_iff in Hfree as [Hkey Hfree].
    replace (i + S (length before))%nat with (S i + length before)%nat in * by lia.
    cbn [app Upload.upload_each after_uploads length].
    replace (i + S (length before))%nat with (S i + length before)%nat by lia.
    unfold Upload.storage_upload at 1. run. rewrite Hkey.
    apply IH.
    + exact Hnodup.
    + simpl. apply Forall_forall. intros k Hk.
      rewrite lookup_insert_ne.
      * rewrite Forall_forall in Hfree. apply Hfree. exact Hk.
      * intros <-. contradiction.
    + simpl. rewrite lookup_insert_ne; [exact Htaken|]. congruence.
Qed.

End Stored.

(** An upload request never replaces or removes an object: whatever the
    parts and whatever the outcome, an object that was in the bucket is
    still there, unchanged. *)
Theorem upload_keeps_existing_objects `{StorageClient} userId clock random parts w k o :
  bucket w !! k = Some o ->
  bucket (snd (Upload.upload userId clock random parts w)) !! k = Some o.
Proof.
  intros Hk. unfold Upload.upload.
  destruct (Upload.array 5 parts) as [e|files]; [exact Hk|].
  unfold Upload.middleware. run.
  destruct (length files =? 0)%nat; [exact Hk|].
  destruct (5 <? length files)%nat; [exact Hk|].
  pose proof (upload_each_keeps userId clock random files 0 [] w k o Hk) as Hkept.
  destruct (Upload.upload_each userId clock random 0 files [] w) as [[urls|r|e] w'];
    exact Hkept.
Qed.

(** The handler's own test for more than five files cannot fire: behind
    [upload.array('images', 5)] no request is answered with ``Maximum 5
    images allowed''. *)
Theorem upload_never_reports_maximum `{StorageClient} userId clock random parts w :
  fst (Upload.upload userId clock random parts w)
  <> Done {| status := 400; body := error_doc "Maximum 5 images allowed" |}.
Proof.
  unfold Upload.upload.
  destruct (Upload.array 5 parts) as [e|files] eqn:Harray; [discriminate|].
  destruct (array_passes 5 parts files Harray) as (-> & Hlen & _).
  unfold Upload.middleware. run.
  destruct (length parts =? 0)%nat; [discriminate|].
  destruct (Nat.ltb_spec 5 (length parts)) as [Hmany|_]; [lia|].
  destruct (Upload.upload_each userId clock random 0 parts [] w) as [[urls|r|e] w'] eqn:Hloop.
  - discriminate.
  - exfalso. exact (upload_each_no_response userId clock random parts 0 [] w r w' Hloop).
  - discriminate.
Qed.

(** A failed upload is not rolled back. When the key of one file is
    taken, the request is answered 500, but the files before it stay in
    the bucket under their keys, and the object that was in the way is
    kept as it was. *)
Theorem upload_partial_failure `{StorageClient} userId clock random before f rest w o :
  (length (before ++ f :: rest) <= 5)%nat ->
  Forall acceptable (before ++ f :: rest) ->
  NoDup (keys_from userId clock random 0 before) ->
  Forall (fun k => bucket w !! k = None) (keys_from userId clock random 0 before) ->
  bucket w !! Upload.filePath userId clock random (length before) f = Some o ->
  let after := snd (Upload.upload userId clock random (before ++ f :: rest) w) in
  fst (Upload.upload userId clock random (before ++ f :: rest) w)
  = Done {| status := 500; body := error_doc "Failed to upload images" |}
  /\ (forall j g, before !! j = Some g ->
        bucket after !! Upload.filePath userId clock random j g = Some (stored g))
  /\ bucket after !! Upload.filePath userId clock random (length before) f = Some o.
Proof.
  intros Hlen Hok Hnodup Hfree Htaken after. subst after.
  unfold Upload.upload. rewrite (array_accepts 5 _ Hlen Hok).
  unfold Upload.middleware. run.
  destruct (length (before ++ f :: rest) =? 0)%nat eqn:Hnone.
  { apply Nat.eqb_eq in Hnone. rewrite length_app in Hnone. simpl in Hnone. lia. }
  destruct (Nat.ltb_spec 5 (length (before ++ f :: rest))) as [Hmany|_]; [lia|].
  rewrite (upload_each_collision userId clock random before f rest 0 [] w o Hnodup Hfree Htaken).
  simpl. split; [reflexivity|]. split.
  - intros j g Hj.
    exact (after_uploads_stores userId clock random before 0 w j g Hnodup Hj).
  - rewrite after_uploads_keeps; [exact Htaken|].
    intros Hin. rewrite Forall_forall in Hfree.
    specialize (Hfree _ Hin). congruence.
Qed.

(** Upload and delete undo each other. When the public URL of a key ends
    in the marker followed by that key, and the key itself does not hold
    the marker, deleting the URL that the upload of one file returned
    puts the bucket back as it was. *)
Theorem upload_then_delete `{StorageClient} userId caller clock random f w :
  acceptable f ->
  bucket w !! Upload.filePath userId clock random 0 f = None ->
  suffix_after_marker (getPublicUrl (Upload.filePath userId clock random 0 f))
  = Some (Upload.filePath userId clock random 0 f) ->
  Js.includes (Upload.filePath userId clock random 0 f) marker = false ->
  let url := getPublicUrl (Upload.filePath userId clock random 0 f) in
  let uploaded := Upload.upload userId clock random [f] w in
  fst uploaded = Done (images_uploaded [url])
  /\ fst (Upload.deleteImage caller (JsString url) (snd uploaded)) = Done image_deleted
  /\ bucket (snd (Upload.deleteImage caller (JsString url) (snd uploaded))) = bucket w.
Proof.
  intros Hok Hfree Hurl Honce url uploaded. subst url uploaded.
  assert (Hup : Upload.upload userId clock random [f] w
                = (Done (images_uploaded
                           [getPublicUrl (Upload.filePath userId clock random 0 f)]),
                   set_bucket (<[Upload.filePath userId clock random 0 f := stored f]>
                                 (bucket w))
                     (emit (StorageUpload (Upload.filePath userId clock random 0 f)
                              (mimetype f) false) w))).
  { unfold Upload.upload.
    rewrite (array_accepts 5 [f]); [|simpl; lia | constructor; [exact Hok | constructor]].
    unfold Upload.middleware, Upload.upload_each, Upload.storage_upload. run.
    rewrite Hfree. reflexivity. }
  rewrite Hup. cbn [fst snd]. split; [reflexivity|].
  assert (Hkey : second_piece (getPublicUrl (Upload.filePath userId clock random 0 f)) marker
                 = Some (Upload.filePath userId clock random 0 f)).
  { unfold suffix_after_marker in Hurl. unfold Js.includes in Honce. unfold second_piece.
    destruct (Js.find_sep marker (getPublicUrl _)) as [[b r]|]; [|discriminate].
    injection Hurl as ->.
    destruct (Js.find_sep marker (Upload.filePath userId clock random 0 f));
      [discriminate | reflexivity]. }
  rewrite (deleteImage_removes caller _ _ _ Hkey). cbn [fst snd].
  split; [reflexivity|]. simpl. apply delete_insert_id. exact Hfree.
Qed.

Lemma upload_keeps_existing_objects_witness :
  bucket (snd (Upload.upload (H := Fixture.storage) 1
                 (fun i => 1700000000000 + Z.of_nat i) (fun _ => "k3x9q")
                 [Fixture.photo] Fixture.shelf))
    !! Fixture.photo_key
  = Some {| content := "PNG"; contentType := "image/png" |}.
Proof.
  apply (upload_keeps_existing_objects (H := Fixture.storage)).
  vm_compute. reflexivity.
Defined.

Lemma upload_partial_failure_witness :
  fst (Upload.upload (H := Fixture.storage) 1
         (fun i => 1699999999999 + Z.of_nat i) (fun _ => "k3x9q")
         [Fixture.photo; Fixture.photo] Fixture.shelf)
  = Done {| status := 500; body := error_doc "Failed to upload images" |}.
Proof.
  refine (proj1 (upload_partial_failure (H := Fixture.storage) 1
                   (fun i => 1699999999999 + Z.of_nat i) (fun _ => "k3x9q")
                   [Fixture.photo] Fixture.photo [] Fixture.shelf
                   {| content := "PNG"; contentType := "image/png" |} _ _ _ _ _)).
  - simpl. lia.
  - repeat constructor; vm_compute; discriminate.
  - compute_done.
  - repeat constructor.
  - vm_compute. reflexivity.
Defined.

Lemma upload_then_delete_witness :
  bucket (snd (Upload.deleteImage 2
                 (JsString (getPublicUrl (StorageClient := Fixture.storage)
                              "listings/1/1700000000000-k3x9q-house.png"))
                 (snd (Upload.upload (H := Fixture.storage) 1
                         (fun i => 1700000000000 + Z.of_nat i) (fun _ => "k3x9q")
                         [Fixture.photo] Fixture.market))))
  = bucket Fixture.market.
Proof.
  refine (proj2 (proj2 (upload_then_delete (H := Fixture.storage) 1 2
                          (fun i => 1700000000000 + Z.of_nat i) (fun _ => "k3x9q")
                          Fixture.photo Fixture.market _ _ _ _))).
  - split; vm_compute; [reflexivity | discriminate].
  - reflexivity.
  - vm_compute. reflexivity.
  - vm_compute. reflexivity.
Defined.

(** ** Auth: a phone number that is taken *)

Section TakenPhone.
Context `{Crypto} `{Casing}.
Variable env : environment.

(** A well-formed registration whose email is new but whose phone number
    belongs to an account: the insert fails on the unique constraint, the
    query wrapper prints the message of the error and the statement and
    throws the error on, and the handler turns it into a 400. No row is
    added and nothing is signed. The two revisions word the message
    differently. *)
Theorem register_duplicate_phone entropy now req nm mail ph pw w :
  name req = JsString nm -> email req = JsString mail ->
  phone req = JsString ph -> password req = JsString pw ->
  nm <> "" -> mail <> "" -> ph <> "" -> (6 <= Js.length (Js.trim pw))%nat ->
  account w mail = None ->
  existsb (fun u => String.eqb (u_phone u) (Js.trim ph)) (users w) = true ->
  fst (Auth.register env entropy now req w)
  = Done {| status := 400; body := error_doc "Phone number already registered" |}
  /\ fst (AuthRevised.register env entropy now req w)
     = Done {| status := 400; body := error_doc "Phone number already in use" |}
  /\ users (snd (Auth.register env entropy now req w)) = users w
  /\ users (snd (AuthRevised.register env entropy now req w)) = users w
  /\ signatures (snd (Auth.register env entropy now req w)) = signatures w
  /\ signatures (snd (AuthRevised.register env entropy now req w)) = signatures w
  /\ trace (snd (Auth.register env entropy now req w))
     = (trace w
        ++ [Console [LText "Executed query";
                     LQuery "SELECT id FROM users WHERE email = $1" 0];
            Console [LText "Query error:";
                     LText (e_message (unique_violation "users_phone_key"))];
            Console [LText "Query text:"; LText Auth.insert_sql];
            Console [LText "Registration Error:";
                     LText (e_message (unique_violation "users_phone_key"))];
            Console [LText "Full error:"; LError (unique_violation "users_phone_key")]])%list.
Proof.
  intros Hn He Hp Hw Hnm Hmail Hph Hlong Hfree Htaken.
  assert (Hlen : (6 <= Js.length pw)%nat) by (pose proof (trim_length pw); lia).
  assert (Hpw : pw <> "") by (apply long_not_empty; exact Hlen).
  unfold Auth.register, AuthRevised.register, AuthRevised.not_a_string.
  rewrite Hn, He, Hp, Hw. rewrite !truthy_string by assumption.
  unfold method, length_lt, hash, select_users_by_email, insert_user. run.
  fold (clean_email mail).
  apply Nat.ltb_ge in Hlong, Hlen. rewrite Hlong, Hlen.
  pose proof (proj1 (account_none_existsb w mail) Hfree) as Hnone.
  unfold emit, set_users. simpl.
  rewrite (proj2 (filter_nil_existsb _ _) Hnone). simpl.
  rewrite Hnone, Htaken. simpl.
  repeat split; try count_signatures.
  rewrite <- !app_assoc. reflexivity.
Qed.

End TakenPhone.

Definition ann_with_bobs_phone : credentials :=
  {| name := JsString "Ann"; email := JsString "ann@example.com";
     phone := JsString " 0722 "; password := JsString "secret1" |}.

Lemma register_duplicate_phone_witness :
  fst (Auth.register (H := Fixture.crypto) (H0 := Fixture.casing) strong "salt" 300 ann_with_bobs_phone
         Fixture.market)
  = Done {| status := 400; body := error_doc "Phone number already registered" |}
  /\ fst (AuthRevised.register (H := Fixture.crypto) (H0 := Fixture.casing) strong "salt" 300 ann_with_bobs_phone
            Fixture.market)
     = Done {| status := 400; body := error_doc "Phone number already in use" |}.
Proof.
  destruct (register_duplicate_phone (H := Fixture.crypto) (H0 := Fixture.casing) strong "salt" 300
              ann_with_bobs_phone "Ann" "ann@example.com" " 0722 " "secret1"
              Fixture.market)
    as (Hfirst & Hsecond & _);
    [ first [reflexivity | discriminate | vm_compute; lia] .. | split; assumption ].
Defined.

(** ** Listings: my listings *)

(** A listing that was accepted shows in its creator's [my-listings], and
    in nobody else's: for every other user the answer is what it was
    before. *)
Theorem create_shows_in_my_listings userId now f w :
  ~ create_refused f ->
  let created := snd (Listings.create userId now f w) in
  (exists mine,
      fst (Listings.listMine userId created)
      = Done {| status := 200;
                body := JObj [("listings", JArr (List.map Listings.listing_doc mine))] |}
      /\ In (created_row userId now f w) mine)
  /\ forall other, other <> userId ->
       fst (Listings.listMine other created) = fst (Listings.listMine other w).
Proof.
  intros Hfine created. subst created.
  destruct (create_appends userId now f w Hfine) as [Hrows _].
  unfold Listings.listMine, select_listings_of. run. rewrite Hrows, List.filter_app.
  split.
  - eexists. split; [reflexivity|].
    apply list_elem_of_In. rewrite merge_sort_Permutation.
    apply list_elem_of_In, in_or_app. right. simpl. rewrite Z.eqb_refl. left. reflexivity.
  - intros other Hother. rewrite List.filter_app. unfold created_row. simpl.
    apply Z.eqb_neq in Hother. rewrite Z.eqb_sym in Hother. rewrite Hother.
    rewrite app_nil_r. reflexivity.
Qed.

Lemma create_shows_in_my_listings_witness :
  fst (Listings.listMine 1 (snd (Listings.create 2 300 Fixture.advert Fixture.market)))
  = fst (Listings.listMine 1 Fixture.market).
Proof.
  refine (proj2 (create_shows_in_my_listings 2 300 Fixture.advert Fixture.market _) 1 _).
  - unfold create_refused, absent, image_count. simpl.
    intuition (try discriminate; try lia).
  - discriminate.
Defined.

(** ** The connection test *)

Definition pool_step (s : Database.step) : bool :=
  match s with
  | Database.Acquire | Database.Release => true
  | _ => false
  end.

Lemma failed_prints_only err : List.filter pool_step (Database.failed err) = [].
Proof.
  unfold Database.failed, Database.hint. rewrite List.filter_app. simpl.
  repeat match goal with |- context [if ?b then _ else _] => destruct b end; reflexivity.
Qed.

(** [testConnection] resolves to [true] exactly when both the connection
    and the query succeeded, and it gives back what it took: the client is
    released exactly when one was acquired, after everything else, and
    without a client nothing is released. *)
Theorem testConnection_releases_client connect answer :
  (fst (Database.testConnection connect answer) = true
   <-> exists u row, connect = inr u /\ answer = inr row)
  /\ List.filter pool_step (snd (Database.testConnection connect answer))
     = match connect with
       | inr _ => [Database.Acquire; Database.Release]
       | inl _ => []
       end
  /\ match connect with
     | inr _ =>
         exists printed,
           snd (Database.testConnection connect answer)
           = (Database.Acquire :: printed ++ [Database.Release])%list
     | inl _ => True
     end.
Proof.
  destruct connect as [err|u]; [|destruct answer as [err|row]];
    unfold Database.testConnection; cbn [fst snd].
  - split; [|split; [apply failed_prints_only | exact I]].
    split; [discriminate | intros (u & row & Hc & _); discriminate].
  - split; [|split].
    + split; [discriminate | intros (u' & row & _ & Ha); discriminate].
    + change (List.filter pool_step
                (Database.Acquire :: Database.failed err ++ [Database.Release]))
        with (Database.Acquire
              :: List.filter pool_step (Database.failed err ++ [Database.Release])).
      rewrite List.filter_app, failed_prints_only. reflexivity.
    + eexists. reflexivity.
  - split; [|split].
    + split; [eauto | reflexivity].
    + reflexivity.
    + eexists [_; _; _]. reflexivity.
Qed.

(** On success the version line shows the server's version string up to
    its first comma: the printed text has no comma, and the version is
    that text, alone or followed by a comma and more. *)
Theorem testConnection_prints_short_version u row :
  exists short,
    Database.testConnection (inr u) (inr row)
    = (true,
       [Database.Acquire;
        Database.Log "✅ Database connection test successful!";
        Database.LogTime "   Current time:" (Database.current_time row);
        Database.LogText "   PostgreSQL version:" short;
        Database.Release])
    /\ Js.includes short "," = false
    /\ (Database.pg_version row = short
        \/ exists more, Database.pg_version row = short ++ "," ++ more).
Proof.
  unfold Database.testConnection, Js.split.
  rewrite (split_by_cases "," "" (Database.pg_version row)).
  destruct (Js.find_sep "," (Database.pg_version row)) as [[before rest]|] eqn:Hfound.
  - exists before. split; [reflexivity|]. split.
    + exact (find_sep_first _ _ _ _ _ Hfound).
    + right. exists rest. exact (find_sep_splits _ _ _ _ Hfound).
  - exists (Database.pg_version row). split; [reflexivity|]. split.
    + unfold Js.includes. rewrite Hfound. reflexivity.
    + left. reflexivity.
Qed.

(** ** Auth: the account is created before the secret is checked *)

Section SecretCheckedLate.
Context `{Crypto} `{Casing}.
Variable env : environment.

(** [routes/auth.js] looks for the signing secret only after the insert.
    With no secret a well-formed registration is answered 500, yet the
    account has been stored, and sending the same registration again is
    refused as a duplicate. *)
Theorem register_without_secret_creates_account entropy now req nm mail ph pw w :
  name req = JsString nm -> email req = JsString mail ->
  phone req = JsString ph -> password req = JsString pw ->
  nm <> "" -> mail <> "" -> ph <> "" -> (6 <= Js.length pw)%nat ->
  account w mail = None ->
  existsb (fun u => String.eqb (u_phone u) (Js.trim ph)) (users w) = false ->
  truthy_opt (JWT_SECRET env) = false ->
  let first := Auth.register env entropy now req w in
  fst first = Done {| status := 500; body := error_doc "Server configuration error" |}
  /\ users (snd first)
     = (users w
        ++ [new_account w nm mail ph (bcrypt_hash pw (genSalt 12 entropy)) now None])%list
  /\ forall entropy' now',
       fst (Auth.register env entropy' now' req (snd first))
       = Done {| status := 400; body := error_doc "Email already registered" |}.
Proof.
  intros Hn He Hp Hw Hnm Hmail Hph Hlong Hfree Hphone Hsecret. cbv zeta.
  unfold Auth.register. rewrite Hn, He, Hp, Hw, Hsecret.
  rewrite !truthy_string by (try assumption; apply long_not_empty; exact Hlong).
  unfold method, length_lt, hash, select_users_by_email, insert_user, sign.
  run. fold (clean_email mail).
  apply Nat.ltb_ge in Hlong. rewrite Hlong.
  pose proof (proj1 (account_none_existsb w mail) Hfree) as Hnone.
  pose proof (proj2 (filter_nil_existsb _ _) Hnone) as Hrows.
  rewrite Hrows. simpl. rewrite Hnone, Hphone. simpl.
  split; [reflexivity|]. split; [reflexivity|].
  intros entropy' now'.
  rewrite List.filter_app, Hrows. simpl. rewrite String.eqb_refl. reflexivity.
Qed.

(** The revised route does the same with a secret that is missing or
    shorter than twenty characters. *)
Theorem revised_register_weak_secret_creates_account entropy now req nm mail ph pw w :
  name req = JsString nm -> email req = JsString mail ->
  phone req = JsString ph -> password req = JsString pw ->
  nm <> "" -> mail <> "" -> ph <> "" -> (6 <= Js.length (Js.trim pw))%nat ->
  account w mail = None ->
  existsb (fun u => String.eqb (u_phone u) (Js.trim ph)) (users w) = false ->
  AuthRevised.secret_missing_or_short env = true ->
  let first := AuthRevised.register env entropy now req w in
  fst first
  = Done {| status := 500;
            body := error_doc "Server configuration error. Contact admin." |}
  /\ users (snd first)
     = (users w
        ++ [new_account w nm mail ph (bcrypt_hash (Js.trim pw) (genSalt 12 entropy))
              now (Some now)])%list
  /\ forall entropy' now',
       fst (AuthRevised.register env entropy' now' req (snd first))
       = Done {| status := 400; body := error_doc "Email already registered" |}.
Proof.
  intros Hn He Hp Hw Hnm Hmail Hph Hlong Hfree Hphone Hsecret. cbv zeta.
  assert (Hlen : (6 <= Js.length pw)%nat) by (pose proof (trim_length pw); lia).
  unfold AuthRevised.register, AuthRevised.not_a_string.
  rewrite Hn, He, Hp, Hw, Hsecret.
  rewrite !truthy_string by (try assumption; apply long_not_empty; exact Hlen).
  unfold method, length_lt, hash, select_users_by_email, insert_user, sign.
  run. fold (clean_email mail).
  apply Nat.ltb_ge in Hlong. rewrite Hlong.
  pose proof (proj1 (account_none_existsb w mail) Hfree) as Hnone.
  pose proof (proj2 (filter_nil_existsb _ _) Hnone) as Hrows.
  unfold emit, set_users. simpl.
  rewrite Hrows. simpl. rewrite Hnone, Hphone. simpl.
  split; [reflexivity|]. split; [reflexivity|].
  intros entropy' now'.
  rewrite List.filter_app, Hrows. simpl. rewrite String.eqb_refl. reflexivity.
Qed.

End SecretCheckedLate.

Lemma register_without_secret_creates_account_witness :
  fst (Auth.register (H := Fixture.crypto) (H0 := Fixture.casing) {| JWT_SECRET := None |} "pepper" 301 ann
         (snd (Auth.register (H := Fixture.crypto) (H0 := Fixture.casing) {| JWT_SECRET := None |} "salt" 300 ann
                 Fixture.market)))
  = Done {| status := 400; body := error_doc "Email already registered" |}.
Proof.
  refine (proj2 (proj2 (register_without_secret_creates_account (H := Fixture.crypto) (H0 := Fixture.casing)
                          {| JWT_SECRET := None |} "salt" 300 ann
                          "Ann" "ann@example.com" "0700" "secret1" Fixture.market
                          _ _ _ _ _ _ _ _ _ _ _)) "pepper" 301);
    first [reflexivity | discriminate | vm_compute; lia].
Defined.

Lemma revised_register_weak_secret_creates_account_witness :
  users (snd (AuthRevised.register (H := Fixture.crypto) (H0 := Fixture.casing) {| JWT_SECRET := Some "short" |}
                "salt" 300 padded_ann Fixture.market))
  = [Fixture.alice; Fixture.bob;
     {| u_id := 3; u_name := "Ann"; u_email := "ann@example.com"; u_phone := "0700";
        u_password := "salt$secret1"; u_created_at := 300; u_updated_at := Some 300 |}].
Proof.
  refine (proj1 (proj2 (revised_register_weak_secret_creates_account
                          (H := Fixture.crypto) (H0 := Fixture.casing) {| JWT_SECRET := Some "short" |}
                          "salt" 300 padded_ann
                          "Ann" "ann@example.com" "0700" "  secret1 " Fixture.market
                          _ _ _ _ _ _ _ _ _ _ _)));
    first [reflexivity | discriminate | vm_compute; lia].
Defined.
